(** * COVID-19 lung-infection segmentation: losses and trainer

    A shallow embedding of [losses/losses.py] and [trainer/trainerunet3d.py].

    Conventions of the embedding.
    - Python [int] is [Z]; Python [float] scalars that the trainer handles
      itself (learning rates, validation accuracies) are IEEE binary64
      numbers, [float].
    - Tensor entries are exact rationals [Q]: the tensor library sums in an
      unspecified order, so rounding is outside the model.  A tensor is its
      [torch.Size] together with its entries as nested lists, outermost axis
      first; tensors are in the default contiguous layout.
    - A Python exception is a value of [exn]; code that can raise returns a
      [result]. *)

From Stdlib Require Import String ZArith QArith Qabs List Bool Lia Lqa.
From Stdlib Require Import Floats.
Import ListNotations.

Set Implicit Arguments.

(** ** Exceptions *)

Inductive exn : Type :=
| AssertionError (msg : string)
| RuntimeError (msg : string)
| UnboundLocalError (name : string)
| AttributeError (msg : string)
| TypeError (msg : string)
| ZeroDivisionError
| CollaboratorError (tag : string).

Inductive result (A : Type) : Type :=
| Ok (a : A)
| Raise (e : exn).

Arguments Ok {A} a.
Arguments Raise {A} e.

Definition rbind {A B} (r : result A) (k : A -> result B) : result B :=
  match r with
  | Ok a => k a
  | Raise e => Raise e
  end.

Declare Scope result_scope.
Delimit Scope result_scope with result.
Notation "'let?' x ':=' r 'in' k" := (rbind r (fun x => k))
  (at level 10, x pattern, r at level 100, k at level 200) : result_scope.

(** ** Tensors *)

Definition nest2 (A : Type) := list (list A).
Definition nest3 (A : Type) := list (nest2 A).
Definition nest4 (A : Type) := list (nest3 A).
Definition nest5 (A : Type) := list (nest4 A).

(** A 4-axis tensor [(N, D, H, W)] and a 5-axis tensor [(N, C, D, H, W)]. *)
Record tensor4 (A : Type) : Type := T4
  { size4 : nat * nat * nat * nat;
    data4 : nest4 A }.

Record tensor5 (A : Type) : Type := T5
  { size5 : nat * nat * nat * nat * nat;
    data5 : nest5 A }.

(** [rows p n l]: [l] has [n] entries and each satisfies [p]. *)
Definition rows {A} (p : A -> bool) (n : nat) (l : list A) : bool :=
  (List.length l =? n)%nat && forallb p l.

Definition any {A} (_ : A) : bool := true.

Definition wf4 {A} (t : tensor4 A) : bool :=
  let '(N, D, H, W) := size4 t in
  rows (rows (rows (rows any W) H) D) N (data4 t).

Definition wf5 {A} (t : tensor5 A) : bool :=
  let '(N, C, D, H, W) := size5 t in
  rows (rows (rows (rows (rows any W) H) D) C) N (data5 t).

Definition numel5 (s : nat * nat * nat * nat * nat) : nat :=
  let '(N, C, D, H, W) := s in (N * C * D * H * W)%nat.

Fixpoint zipWith {A B C} (f : A -> B -> C) (l1 : list A) (l2 : list B)
  : list C :=
  match l1, l2 with
  | a :: l1', b :: l2' => f a b :: zipWith f l1' l2'
  | _, _ => []
  end.

Definition map5 {A B} (f : A -> B) : nest5 A -> nest5 B :=
  map (map (map (map (map f)))).

Definition zip5 {A B C} (f : A -> B -> C) : nest5 A -> nest5 B -> nest5 C :=
  zipWith (zipWith (zipWith (zipWith (zipWith f)))).

(** [alter f n l] applies [f] to entry [n] of [l]; out of range it does
    nothing (the callers check their indices first). *)
Fixpoint alter {A} (f : A -> A) (n : nat) (l : list A) : list A :=
  match l, n with
  | [], _ => []
  | x :: l', O => f x :: l'
  | x :: l', S n' => x :: alter f n' l'
  end.

Definition indexed {A} (l : list A) : list (nat * A) :=
  combine (seq 0 (List.length l)) l.

Definition Qsum (l : list Q) : Q := fold_right Qplus 0%Q l.

Definition size_eqb5 (s1 s2 : nat * nat * nat * nat * nat) : bool :=
  let '(N1, C1, D1, H1, W1) := s1 in
  let '(N2, C2, D2, H2, W2) := s2 in
  (N1 =? N2)%nat && (C1 =? C2)%nat && (D1 =? D2)%nat && (H1 =? H2)%nat
  && (W1 =? W2)%nat.

(** ** losses.py: tensor helpers *)

Local Open Scope result_scope.

(** [tensor.permute((1, 0, 2, 3, 4))]: entry [c][n] of the result is entry
    [n][c] of the argument.  In the library the result shares the storage
    of its argument, so it is no longer contiguous. *)
Definition permute10 {A} (t : tensor5 A) : tensor5 A :=
  let '(N, C, D, H, W) := size5 t in
  T5 (C, N, D, H, W)
     (map (fun c => map (fun tn => nth c tn []) (data5 t)) (seq 0 C)).

Definition flat3 {A} (x : nest3 A) : list A := concat (map (@concat A) x).

(** When [Tensor.view(C, -1)] accepts the permuted [(C, N, D, H, W)] view of
    a contiguous [(N, C, D, H, W)] tensor.  [view] never copies: the axes
    [N, D, H, W] can be merged into one only when they are evenly strided,
    which after the permutation holds exactly when one of [C], [N],
    [D * H * W] is 1.  With no elements at all, [-1] can be inferred unless
    [C] is 0. *)
Definition view_compatible (s : nat * nat * nat * nat * nat) : bool :=
  let '(N, C, D, H, W) := s in
  if (numel5 s =? 0)%nat then negb (C =? 0)%nat
  else (C =? 1)%nat || (N =? 1)%nat || (D * H * W =? 1)%nat.

(** [flatten(tensor)]: [(N, C, D, H, W) -> (C, N * D * H * W)]; the result
    is the list of its [C] rows. *)
Definition flatten {A} (tensor : tensor5 A) : result (nest2 A) :=
  let transposed := permute10 tensor in
  if view_compatible (size5 tensor)
  then Ok (map (fun tc => concat (map (@flat3 A) tc)) (data5 transposed))
  else Raise (RuntimeError
    "view size is not compatible with input tensor's size and stride").

(** Elementwise arithmetic of two 1-axis tensors, with the library's
    broadcasting of an axis of length 1. *)
Definition broadcast1 (f : Q -> Q -> Q) (a b : list Q) : result (list Q) :=
  if (List.length a =? List.length b)%nat then Ok (zipWith f a b)
  else if (List.length a =? 1)%nat then Ok (map (f (hd 0%Q a)) b)
  else if (List.length b =? 1)%nat then Ok (map (fun x => f x (hd 0%Q b)) a)
  else Raise (RuntimeError
    "The size of tensor a must match the size of tensor b").

(** [x.clamp(min=m)] *)
Definition clamp_min (m x : Q) : Q := if Qlt_le_dec x m then m else x.

(** [target.clone().ne_(ignore_index)].  [ignore_index] is the number the
    tensor's dtype makes of the ignore index; for an integer that float32
    holds exactly ([float32_exact] below) that is the integer itself, and
    the comparison here is the library's. *)
Definition ne_mask (ignore_index : Q) (target : tensor5 Q) : tensor5 Q :=
  T5 (size5 target)
     (map5 (fun x => if Qeq_bool x ignore_index then 0%Q else 1%Q)
           (data5 target)).

Definition tmul (a b : tensor5 Q) : tensor5 Q :=
  T5 (size5 a) (zip5 Qmult (data5 a) (data5 b)).

(** [compute_per_channel_dice].  The quotient is the library's wherever
    the clamped denominator is positive, which [epsilon > 0] ensures; on a
    denominator of 0 the library returns NaN or inf, which are no
    rationals, so the theorems about the values of the scores assume
    [epsilon > 0]. *)
Definition compute_per_channel_dice (input target : tensor5 Q) (epsilon : Q)
    (ignore_index : option Q) (weight : option (list Q))
  : result (list Q) :=
  if negb (size_eqb5 (size5 input) (size5 target))
  then Raise (AssertionError "'input' and 'target' must have the same shape")
  else
    let '(input, target) :=
      match ignore_index with
      | Some ii =>
          let mask := ne_mask ii target in
          (tmul input mask, tmul target mask)
      | None => (input, target)
      end in
    let? input := flatten input in
    let? target := flatten target in
    let intersect := map Qsum (zipWith (zipWith Qmult) input target) in
    let? intersect :=
      match weight with
      | Some w => broadcast1 Qmult w intersect
      | None => Ok intersect
      end in
    let denominator := map Qsum (zipWith (zipWith Qplus) input target) in
    broadcast1 Qdiv (map (Qmult 2) intersect)
               (map (clamp_min epsilon) denominator).

(** The per-channel Dice score as the specification words it.  [channel c t]
    is the slice [t[:, c]]; the sum of a slice is the sum of all its
    entries. *)
Definition channel {A} (c : nat) (t : tensor5 A) : nest4 A :=
  map (fun tn => nth c tn []) (data5 t).


Definition flat4 {A} (x : nest4 A) : list A := concat (map (@flat3 A) x).




(** ** losses.py: one-hot expansion *)

Definition unsqueeze0 {A} (t : tensor4 A) : tensor5 A :=
  let '(N, D, H, W) := size4 t in
  T5 (1%nat, N, D, H, W) [data4 t].

Definition zeros5 (s : nat * nat * nat * nat * nat) : tensor5 Q :=
  let '(N, C, D, H, W) := s in
  T5 s (repeat (repeat (repeat (repeat (repeat 0%Q W) H) D) C) N).

(** Every entry of a 5-axis tensor with its index [(i, j, k, l, m)]. *)
Definition positions5 {A} (d : nest5 A)
  : list (nat * nat * nat * nat * nat * A) :=
  flat_map (fun '(i, x) =>
    flat_map (fun '(j, y) =>
      flat_map (fun '(k, z) =>
        flat_map (fun '(l, u) =>
          map (fun '(m, v) => (i, j, k, l, m, v)) (indexed u))
        (indexed z))
      (indexed y))
    (indexed x))
  (indexed d).

Definition set5 {A} (i c k l m : nat) (v : A) : nest5 A -> nest5 A :=
  alter (alter (alter (alter (alter (fun _ => v) m) l) k) c) i.

(** [self.scatter_(1, index, value)] on 5-axis tensors:
    [self[i][index[i][j][k][l][m]][k][l][m] = value] for every entry of
    [index].  The library requires [index] to be no larger than [self] on
    every axis but the scattered one, and every index to lie in
    [0, self.size(1))]; an empty [index] is a no-op. *)
Definition scatter_1 (self : tensor5 Q) (index : tensor5 Z) (value : Q)
  : result (tensor5 Q) :=
  let '(N, C, D, H, W) := size5 self in
  let '(iN, iC, iD, iH, iW) := size5 index in
  let ps := positions5 (data5 index) in
  if (numel5 (size5 index) =? 0)%nat then Ok self
  else if negb ((iN <=? N)%nat && (iD <=? D)%nat && (iH <=? H)%nat
                && (iW <=? W)%nat)
  then Raise (RuntimeError "Expected index to be smaller than self")
  else if negb (forallb (fun '(_, _, _, _, _, v) =>
                           (0 <=? v)%Z && (v <? Z.of_nat C)%Z) ps)
  then Raise (RuntimeError "index out of bounds")
  else Ok (T5 (size5 self)
              (fold_left (fun acc '(i, _, k, l, m, v) =>
                            set5 i (Z.to_nat v) k l m value acc)
                         ps (data5 self))).

(** [src.expand(shape)] for [src] of size [(1, n, D, H, W)]: axis 0 is
    repeated; axis 1 must be 1 (and is repeated) or already [C]. *)
Definition expand {A} (src : tensor5 A) (shape : nat * nat * nat * nat * nat)
  : result (tensor5 A) :=
  let '(_, n, _, _, _) := size5 src in
  let '(N, C, _, _, _) := shape in
  let src0 := hd [] (data5 src) in
  if (n =? 1)%nat then Ok (T5 shape (repeat (repeat (hd [] src0) C) N))
  else if (n =? C)%nat then Ok (T5 shape (repeat src0 N))
  else Raise (RuntimeError
    "The expanded size of the tensor must match the existing size").

(** [expand_as_one_hot].  The labels are integers and are compared as
    such.  The result is a float tensor: its entries 0 and 1 are exact, and
    the ignore index written back into it is exact when float32 holds it
    exactly ([float32_exact] below); a larger one the library rounds, which
    is outside this model. *)
Definition expand_as_one_hot (input : tensor4 Z) (C : nat)
    (ignore_index : option Z) : result (tensor5 Q) :=
  let '(N, D, H, W) := size4 input in
  let shape := (N, C, D, H, W) in
  let src := unsqueeze0 input in
  match ignore_index with
  | Some ii =>
      let? expanded_src := expand src shape in
      let mask := map5 (Z.eqb ii) (data5 expanded_src) in
      let src := T5 (size5 src)
                    (map5 (fun v => if (v =? ii)%Z then 0%Z else v)
                          (data5 src)) in
      let? result := scatter_1 (zeros5 shape) src 1%Q in
      Ok (T5 shape
             (zip5 (fun (b : bool) r => if b then inject_Z ii else r)
                   mask (data5 result)))
  | None => scatter_1 (zeros5 shape) src 1%Q
  end.

(** [result.sum(dim=1)] and [result.argmax(dim=1)] of a 5-axis tensor, the
    two reductions along the channel axis; [argmax] returns the first
    index of a maximal entry. *)
Definition zip3 {A B C} (f : A -> B -> C) : nest3 A -> nest3 B -> nest3 C :=
  zipWith (zipWith (zipWith f)).

Definition sum_dim1 (t : tensor5 Q) : tensor4 Q :=
  let '(N, C, D, H, W) := size5 t in
  T4 (N, D, H, W)
     (map (fold_right (zip3 Qplus) (repeat (repeat (repeat 0%Q W) H) D))
          (data5 t)).

Definition argmax_step (c : nat) (x : Q) (best : option (nat * Q))
  : option (nat * Q) :=
  match best with
  | Some (i, y) => if Qlt_le_dec x y then Some (i, y) else Some (c, x)
  | None => Some (c, x)
  end.

Definition argmax_list (l : list Q) : Z :=
  match fold_right (fun '(c, x) best => argmax_step c x best) None (indexed l)
  with
  | Some (i, _) => Z.of_nat i
  | None => 0%Z
  end.

Definition argmax_dim1 (t : tensor5 Q) : tensor4 Z :=
  let '(N, C, D, H, W) := size5 t in
  T4 (N, D, H, W)
     (map (fun x : nest4 Q =>
             map (fun k =>
               map (fun l =>
                 map (fun m =>
                   argmax_list
                     (map (fun xc => nth m (nth l (nth k xc []) []) 0%Q) x))
                 (seq 0 W))
               (seq 0 H))
             (seq 0 D))
          (data5 t)).

(** ** losses.py: loss objects and the factory *)

(** Python values as far as the factory handles them: an object is its
    class name and its instance attributes, in the order [__init__] sets
    them.  The bookkeeping attributes of [nn.Module] are left out. *)
#[warnings="-register-all"]
Inductive pyval : Type :=
| VNone
| VInt (z : Z)
| VFloat (q : Q)
| VStr (s : string)
| VTensor (w : list Q)
| VObject (cls : string) (attrs : list (string * pyval)).

Definition getattr (o : pyval) (name : string) : option pyval :=
  match o with
  | VObject _ attrs =>
      option_map snd (find (fun kv => String.eqb (fst kv) name) attrs)
  | _ => None
  end.

Definition hasattr (o : pyval) (name : string) : bool :=
  match getattr o name with
  | Some _ => true
  | None => false
  end.

Definition of_weight (weight : option (list Q)) : pyval :=
  match weight with
  | Some w => VTensor w
  | None => VNone
  end.

Definition of_index (ignore_index : option Z) : pyval :=
  match ignore_index with
  | Some i => VInt i
  | None => VNone
  end.

Definition SUPPORTED_LOSSES : list string :=
  ["ce"; "bce"; "wce"; "pce"; "dice"; "gdl"; "EntropyLoss"; "focal"]%string.

Local Open Scope string_scope.

(** The three library losses the factory builds, with the attributes the
    library documents for them. *)
Definition BCEWithLogitsLoss : pyval :=
  VObject "BCEWithLogitsLoss"
    [("weight", VNone); ("pos_weight", VNone); ("reduction", VStr "mean")].

Definition CrossEntropyLoss (weight ignore_index : pyval) : pyval :=
  VObject "CrossEntropyLoss"
    [("weight", weight); ("ignore_index", ignore_index);
     ("reduction", VStr "mean")].

Definition NLLLoss (weight : pyval) : pyval :=
  VObject "NLLLoss"
    [("weight", weight); ("ignore_index", VInt (-100));
     ("reduction", VStr "mean")].

Definition Sigmoid : pyval := VObject "Sigmoid" [].

Definition WeightedCrossEntropyLoss (weight ignore_index : pyval) : pyval :=
  VObject "WeightedCrossEntropyLoss"
    [("weight", weight); ("ignore_index", ignore_index)].

Definition PixelWiseCrossEntropyLoss (class_weights ignore_index : pyval)
  : pyval :=
  VObject "PixelWiseCrossEntropyLoss"
    [("class_weights", class_weights); ("ignore_index", ignore_index);
     ("log_softmax", VObject "LogSoftmax" [("dim", VInt 1)]);
     ("sigmoid", VObject "LogSigmoid" [])].

Definition GeneralizedDiceLoss (weight ignore_index : pyval) : pyval :=
  VObject "GeneralizedDiceLoss"
    [("epsilon", VFloat (1 # 100000)); ("weight", weight);
     ("ignore_index", ignore_index); ("normalization", Sigmoid)].

Definition DiceLoss (weight ignore_index : pyval) : pyval :=
  VObject "DiceLoss"
    [("epsilon", VFloat (1 # 100000)); ("weight", weight);
     ("ignore_index", ignore_index); ("normalization", Sigmoid)].

(** [FocalLoss.__init__] accepts [ignore_index] and drops it. *)
Definition FocalLoss (weight ignore_index : pyval) : pyval :=
  VObject "FocalLoss"
    [("weight", weight); ("gamma", VInt 2); ("nll_loss", NLLLoss weight)].

Definition EntropyLoss (weight ignore_index : pyval) : pyval :=
  VObject "EntropyLoss"
    [("epsilon", VFloat (1 # 100000)); ("weight", weight);
     ("ignore_index", ignore_index); ("normalization", Sigmoid)].

Definition IgnoreIndexLossWrapper (loss_criterion ignore_index : pyval)
  : result pyval :=
  if hasattr loss_criterion "ignore_index"
  then Raise (RuntimeError
    "Cannot wrap {type(loss_criterion)}. Use 'ignore_index' attribute instead")
  else Ok (VObject "IgnoreIndexLossWrapper"
             [("loss_criterion", loss_criterion);
              ("ignore_index", ignore_index)]).

Definition get_loss_criterion (loss_str : string) (weight : option (list Q))
    (ignore_index : option Z) : result pyval :=
  if negb (existsb (String.eqb loss_str) SUPPORTED_LOSSES)
  then Raise (AssertionError ("Invalid loss string: " ++ loss_str))
  else if loss_str =? "bce" then
    match ignore_index with
    | None => Ok BCEWithLogitsLoss
    | Some i => IgnoreIndexLossWrapper BCEWithLogitsLoss (VInt i)
    end
  else if loss_str =? "ce" then
    let ignore_index :=
      match ignore_index with None => (-100)%Z | Some i => i end in
    Ok (CrossEntropyLoss (of_weight weight) (VInt ignore_index))
  else if loss_str =? "wce" then
    let ignore_index :=
      match ignore_index with None => (-100)%Z | Some i => i end in
    Ok (WeightedCrossEntropyLoss (of_weight weight) (VInt ignore_index))
  else if loss_str =? "pce" then
    Ok (PixelWiseCrossEntropyLoss (of_weight weight) (of_index ignore_index))
  else if loss_str =? "gdl" then
    Ok (GeneralizedDiceLoss (of_weight weight) (of_index ignore_index))
  else if loss_str =? "dice" then
    Ok (DiceLoss (of_weight weight) (of_index ignore_index))
  else if loss_str =? "focal" then
    Ok (FocalLoss (of_weight weight) (of_index ignore_index))
  else Ok (EntropyLoss (of_weight weight) (of_index ignore_index)).

Local Close Scope string_scope.

(** ** trainerunet3d.py: collaborators and trainer state *)

(** The objects the trainer is handed and does not implement: the network,
    the loss criterion, the optimizer, the accuracy criterion and the
    [utils.RunningAcc] accumulator.  Each call may raise and may change the
    collaborators' own state [world] (network parameters, optimizer
    buffers, counters). *)
Class Collaborators : Type :=
  { tensor : Type;
    stats : Type;
    world : Type;
    (** [self.model(input)] in the given mode: [(_, y, up)] *)
    model_call :
      bool -> tensor -> world -> result (tensor * list tensor) * world;
    (** [self.loss_criterion_1(output, target)] *)
    loss_criterion_1 : tensor -> tensor -> world -> result Q * world;
    (** [loss.backward()], [self.optimizer.zero_grad()],
        [self.optimizer.step()] *)
    backward : Q -> world -> result unit * world;
    zero_grad : world -> result unit * world;
    optimizer_step : world -> result unit * world;
    (** [self.accuracy_criterion(output, target)]: [(A, B, I)] *)
    accuracy_criterion : tensor -> tensor -> world -> result stats * world;
    (** [torch.cat([a, b], 0)] *)
    cat0 : tensor -> tensor -> result tensor;
    (** [utils.RunningAcc()], its [update(A, B, I)] and the quotient
        [mean_dice / count] *)
    acc : Type;
    RunningAcc : acc;
    acc_update : acc -> stats -> acc;
    mean_dice_over_count : acc -> result float }.

(** The dictionary handed to [utils.save_checkpoint]. *)
Record checkpoint `{Collaborators} : Type := Checkpoint
  { ck_epoch : Z;
    ck_num_iterations : Z;
    ck_model_state_dict : world;
    ck_best_val_accuracy : float;
    ck_optimizer_lrs : list float;
    ck_max_num_epochs : Z;
    ck_max_num_iterations : Z;
    ck_validate_after_iters : Z;
    ck_log_after_iters : Z;
    ck_max_patience : Z;
    ck_patience : Z }.

Arguments Checkpoint {_}.

Inductive log_msg : Type :=
| MsgSendingModel
| MsgLoadingCheckpoint
| MsgCheckpointLoaded (epoch : Z) (best : float) (iterations : Z)
| MsgTrainingStats
| MsgValidating (epoch : Z)
| MsgValidationFinished
| MsgBestAccuracy (best : float)
| MsgEarlyStopping (max_patience : Z)
| MsgMaxIterations (limit : Z)
| MsgChangingLR (old_lr new_lr : float)
| MsgNewBest (val_accuracy : float).

(** What the trainer does to the outside, in order: logger lines, prints,
    network calls (with the mode the network was in), optimizer calls and
    checkpoint writes. *)
Inductive event `{Collaborators} : Type :=
| LogInfo (m : log_msg)
| LogDebug
| Printed (z : Z)
| ModelForward (training : bool)
| ZeroGrad
| Backward
| OptimizerStep
| SaveCheckpoint (state : checkpoint) (is_best : bool).

Section Trainer.
Context `{Collaborators}.

Definition batch : Type := list tensor.

(** [self] of [UNet3DTrainer]: the network's mode, the learning rates of
    the optimizer's parameter groups, the two loaders (a loader is the list
    of batches one pass over it yields), the configuration and schedule
    fields, the collaborators' state and the trace so far.
    [max_num_iterations] is only ever compared with [num_iterations] and
    is an integer here; devices are not modelled, [.to(device)] is the
    identity. *)
Record trainer : Type := Trainer
  { model_training : bool;
    param_group_lrs : list float;
    train_loader : list batch;
    val_loader : list batch;
    max_num_epochs : Z;
    max_num_iterations : Z;
    validate_after_iters : Z;
    log_after_iters : Z;
    best_val_accuracy : float;
    num_iterations : Z;
    num_epoch : Z;
    max_patience : Z;
    patience : Z;
    the_world : world;
    trace : list event }.

Definition set_model_training (b : bool) (s : trainer) : trainer :=
  Trainer b (param_group_lrs s) (train_loader s) (val_loader s)
    (max_num_epochs s) (max_num_iterations s) (validate_after_iters s)
    (log_after_iters s) (best_val_accuracy s) (num_iterations s)
    (num_epoch s) (max_patience s) (patience s) (the_world s) (trace s).

Definition set_param_group_lrs (l : list float) (s : trainer) : trainer :=
  Trainer (model_training s) l (train_loader s) (val_loader s)
    (max_num_epochs s) (max_num_iterations s) (validate_after_iters s)
    (log_after_iters s) (best_val_accuracy s) (num_iterations s)
    (num_epoch s) (max_patience s) (patience s) (the_world s) (trace s).

Definition set_best_val_accuracy (b : float) (s : trainer) : trainer :=
  Trainer (model_training s) (param_group_lrs s) (train_loader s)
    (val_loader s) (max_num_epochs s) (max_num_iterations s)
    (validate_after_iters s) (log_after_iters s) b (num_iterations s)
    (num_epoch s) (max_patience s) (patience s) (the_world s) (trace s).

Definition set_num_iterations (n : Z) (s : trainer) : trainer :=
  Trainer (model_training s) (param_group_lrs s) (train_loader s)
    (val_loader s) (max_num_epochs s) (max_num_iterations s)
    (validate_after_iters s) (log_after_iters s) (best_val_accuracy s) n
    (num_epoch s) (max_patience s) (patience s) (the_world s) (trace s).

Definition set_num_epoch (n : Z) (s : trainer) : trainer :=
  Trainer (model_training s) (param_group_lrs s) (train_loader s)
    (val_loader s) (max_num_epochs s) (max_num_iterations s)
    (validate_after_iters s) (log_after_iters s) (best_val_accuracy s)
    (num_iterations s) n (max_patience s) (patience s) (the_world s)
    (trace s).

Definition set_patience (p : Z) (s : trainer) : trainer :=
  Trainer (model_training s) (param_group_lrs s) (train_loader s)
    (val_loader s) (max_num_epochs s) (max_num_iterations s)
    (validate_after_iters s) (log_after_iters s) (best_val_accuracy s)
    (num_iterations s) (num_epoch s) (max_patience s) p (the_world s)
    (trace s).

Definition set_world (w : world) (s : trainer) : trainer :=
  Trainer (model_training s) (param_group_lrs s) (train_loader s)
    (val_loader s) (max_num_epochs s) (max_num_iterations s)
    (validate_after_iters s) (log_after_iters s) (best_val_accuracy s)
    (num_iterations s) (num_epoch s) (max_patience s) (patience s) w
    (trace s).

Definition set_trace (t : list event) (s : trainer) : trainer :=
  Trainer (model_training s) (param_group_lrs s) (train_loader s)
    (val_loader s) (max_num_epochs s) (max_num_iterations s)
    (validate_after_iters s) (log_after_iters s) (best_val_accuracy s)
    (num_iterations s) (num_epoch s) (max_patience s) (patience s)
    (the_world s) t.

(** *** Methods as state transformers that may raise

    A method is a function from [self] before the call to its outcome and
    [self] after it; what a method did to [self] before raising stays
    done. *)
Definition M (A : Type) : Type := trainer -> result A * trainer.

Definition ret {A} (a : A) : M A := fun s => (Ok a, s).

Definition raise {A} (e : exn) : M A := fun s => (Raise e, s).

Definition bind {A B} (c : M A) (k : A -> M B) : M B :=
  fun s =>
    match c s with
    | (Ok a, s') => k a s'
    | (Raise e, s') => (Raise e, s')
    end.

Definition get : M trainer := fun s => (Ok s, s).

Definition modify (f : trainer -> trainer) : M unit := fun s => (Ok tt, f s).

Definition of_result {A} (r : result A) : M A := fun s => (r, s).

(** [try: body finally: fin] *)
Definition try_finally {A} (body : M A) (fin : M unit) : M A :=
  fun s =>
    let (r, s1) := body s in
    match fin s1 with
    | (Ok _, s2) => (r, s2)
    | (Raise e, s2) => (Raise e, s2)
    end.

(** A call into a collaborator. *)
Definition call {A} (f : world -> result A * world) : M A :=
  fun s => let (r, w) := f (the_world s) in (r, set_world w s).

Definition emit (e : event) : M unit :=
  modify (fun s => set_trace (trace s ++ [e]) s).

End Trainer.

Declare Scope M_scope.
Delimit Scope M_scope with M.
Notation "x <- c ;; k" := (bind c (fun x => k))
  (at level 61, c at next level, right associativity) : M_scope.
Notation "' pat <- c ;; k" := (bind c (fun x => match x with pat => k end))
  (at level 61, pat pattern, c at next level, right associativity) : M_scope.
Notation "c ;; k" := (bind c (fun _ => k))
  (at level 61, right associativity) : M_scope.

(** ** trainerunet3d.py: the methods *)

Section Methods.
Context `{Collaborators}.
Local Open Scope M_scope.
Local Open Scope Z_scope.

(** [for x in xs: body], where [body] either goes on with updated local
    variables ([inl]) or executes [return v] ([inr]). *)
Fixpoint for_loop {X L R} (body : X -> L -> M (L + R)) (xs : list X) (l : L)
  : M (L + R) :=
  match xs with
  | [] => ret (inl l)
  | x :: xs' =>
      r <- body x l ;;
      match r with
      | inl l' => for_loop body xs' l'
      | inr v => ret (inr v)
      end
  end.

(** [range(a, b)] *)
Definition py_range (a b : Z) : list Z :=
  map (fun i => a + Z.of_nat i) (seq 0 (Z.to_nat (b - a))).

(** [a % b] on integers *)
Definition py_mod (a b : Z) : M Z :=
  if b =? 0 then raise ZeroDivisionError else ret (a mod b).

(** [max(a, b)]: the first argument unless the second is greater. *)
Definition py_max (a b : float) : float :=
  if (a <? b)%float then b else a.

(** The local variables of [train] and [validate] that outlive one pass of
    the loop: a name is bound only once a branch has assigned it.  The
    [utils.RunningAverage] of the losses only feeds a log line and is left
    out. *)
Record locals : Type := Locals
  { l_input : option tensor;
    l_target : option tensor;
    l_target_ : option tensor;
    l_accuracy : acc }.

Definition local (name : string) (v : option tensor) : M tensor :=
  match v with
  | Some x => ret x
  | None => raise (UnboundLocalError name)
  end.

(** [UNet3DTrainer.__init__]: [model] is the network's mode and state,
    [optimizer] the learning rates of its parameter groups, and [logged]
    what the logger has been told before. *)
Definition UNet3DTrainer (model : bool * world) (optimizer : list float)
    (loaders : list batch * list batch)
    (max_num_epochs max_num_iterations max_patience patience
     validate_after_iters log_after_iters : Z)
    (best_val_accuracy : float) (num_iterations num_epoch : Z)
    (logged : list event) : trainer :=
  Trainer (fst model) optimizer (fst loaders) (snd loaders) max_num_epochs
    max_num_iterations validate_after_iters log_after_iters
    best_val_accuracy num_iterations num_epoch max_patience patience
    (snd model) (logged ++ [LogInfo MsgSendingModel; LogDebug]).

(** [from_checkpoint]: [state] is the dictionary [utils.load_checkpoint]
    returns, [model] and [optimizer] are the two objects as it leaves them;
    [logger] tells whether a logger was passed. *)
Definition from_checkpoint (state : checkpoint) (model : bool * world)
    (optimizer : list float) (loaders : list batch * list batch)
    (validate_after_iters log_after_iters : Z) (logger : bool)
  : result trainer :=
  if negb logger
  then Raise (AttributeError "'NoneType' object has no attribute 'info'")
  else
    let patience := 100 in
    let max_patience := 100 in
    Ok (UNet3DTrainer model optimizer loaders
          (ck_max_num_epochs state) (ck_max_num_iterations state)
          max_patience patience validate_after_iters log_after_iters
          (ck_best_val_accuracy state) (ck_num_iterations state)
          (ck_epoch state)
          [LogInfo MsgLoadingCheckpoint;
           LogInfo (MsgCheckpointLoaded (ck_epoch state)
                      (ck_best_val_accuracy state)
                      (ck_num_iterations state))]).

Fixpoint aux_losses (up : list tensor) (target_ : tensor) (loss : Q) : M Q :=
  match up with
  | [] => ret loss
  | u :: up' =>
      l <- call (loss_criterion_1 u target_) ;;
      aux_losses up' target_ (loss + l * (4 # 10))%Q
  end.

Definition _forward_pass (input target target_ : tensor) : M (tensor * Q) :=
  s <- get ;;
  emit (ModelForward (model_training s)) ;;
  ' (y, up) <- call (model_call (model_training s) input) ;;
  loss <- aux_losses up target_ 0%Q ;;
  l <- call (loss_criterion_1 y target) ;;
  ret (y, (loss + l)%Q).

(** The default [decay_rate = 0.1], as the binary64 number the literal
    denotes, and [decay_rate * old_lr]. *)
Definition decay_rate : float := 0x1.999999999999ap-4%float.

Definition decayed (old_lr : float) : float := (decay_rate * old_lr)%float.

Definition _adjust_learning_rate : M unit :=
  s <- get ;;
  match param_group_lrs s with
  | [] =>
      raise (TypeError
        "'>' not supported between instances of 'NoneType' and 'int'")
  | old_lr :: _ =>
      if negb (0 <? old_lr)%float then raise (AssertionError "")
      else
        let new_lr := decayed old_lr in
        emit (LogInfo (MsgChangingLR old_lr new_lr)) ;;
        modify (fun s =>
          set_param_group_lrs (map (fun _ => new_lr) (param_group_lrs s)) s)
  end.

Definition _check_early_stopping (best_model_found : bool) : M bool :=
  if best_model_found then
    modify (fun s => set_patience (max_patience s) s) ;;
    s <- get ;;
    emit (Printed (patience s)) ;;
    ret false
  else
    modify (fun s => set_patience (patience s - 1) s) ;;
    s <- get ;;
    if patience s <=? 0 then ret true
    else
      (if patience s =? max_patience s / 2 then _adjust_learning_rate
       else ret tt) ;;
      emit (Printed (patience s)) ;;
      ret false.

Definition _is_best_val_accuracy (val_accuracy : float) : M bool :=
  s <- get ;;
  let is_best := (best_val_accuracy s <? val_accuracy)%float in
  (if is_best then emit (LogInfo (MsgNewBest val_accuracy)) else ret tt) ;;
  modify (fun s =>
    set_best_val_accuracy (py_max val_accuracy (best_val_accuracy s)) s) ;;
  ret is_best.

Definition _save_checkpoint (is_best : bool) : M unit :=
  s <- get ;;
  emit (SaveCheckpoint
          (Checkpoint (num_epoch s + 1) (num_iterations s) (the_world s)
             (best_val_accuracy s) (param_group_lrs s) (max_num_epochs s)
             (max_num_iterations s) (validate_after_iters s)
             (log_after_iters s) (max_patience s) (patience s))
          is_best).

Definition validate_unpack (t : batch) (l : locals) : locals :=
  let l :=
    match t with
    | [input; target] =>
        Locals (Some input) (Some target) (l_target_ l) (l_accuracy l)
    | _ => l
    end in
  let l :=
    match t with
    | [input; target; target_] =>
        Locals (Some input) (Some target) (Some target_) (l_accuracy l)
    | _ => l
    end in
  match t with
  | [input; target; target_; name] =>
      Locals (Some input) (Some target) (Some target_) (l_accuracy l)
  | _ => l
  end.

Definition validate_step (t : batch) (l : locals) : M (locals + unit) :=
  let l := validate_unpack t l in
  input <- local "input" (l_input l) ;;
  target <- local "target" (l_target l) ;;
  target_ <- local "target_" (l_target_ l) ;;
  ' (output, loss) <- _forward_pass input target target_ ;;
  abi <- call (accuracy_criterion output target) ;;
  ret (inl (Locals (l_input l) (l_target l) (l_target_ l)
              (acc_update (l_accuracy l) abi))).

Definition validate_body (val_loader : list batch) : M float :=
  r <- for_loop validate_step val_loader (Locals None None None RunningAcc) ;;
  let val_accuracy :=
    match r with inl l => l_accuracy l | inr _ => RunningAcc end in
  mean_dice <- of_result (mean_dice_over_count val_accuracy) ;;
  emit (LogInfo MsgValidationFinished) ;;
  s <- get ;;
  emit (LogInfo (MsgBestAccuracy (best_val_accuracy s))) ;;
  ret mean_dice.

Definition validate (val_loader : list batch) : M float :=
  s <- get ;;
  emit (LogInfo (MsgValidating (num_epoch s))) ;;
  modify (set_model_training false) ;;
  try_finally (validate_body val_loader) (modify (set_model_training true)).

Definition train_unpack (t : batch) (l : locals) : M locals :=
  let l :=
    match t with
    | [input; target] =>
        Locals (Some input) (Some target) (l_target_ l) (l_accuracy l)
    | _ => l
    end in
  let l :=
    match t with
    | [input; target; target_] =>
        Locals (Some input) (Some target) (Some target_) (l_accuracy l)
    | _ => l
    end in
  match t with
  | [input; target; aug1_in; aug1_ta; aug2_in; aug2_ta] =>
      input <- of_result (cat0 input aug1_in) ;;
      target <- of_result (cat0 target aug1_ta) ;;
      input <- of_result (cat0 input aug2_in) ;;
      target <- of_result (cat0 target aug2_ta) ;;
      ret (Locals (Some input) (Some target) (l_target_ l) (l_accuracy l))
  | _ => ret l
  end.

Definition train_step (t : batch) (l : locals) : M (locals + bool) :=
  l <- train_unpack t l ;;
  input <- local "input" (l_input l) ;;
  target <- local "target" (l_target l) ;;
  target_ <- local "target_" (l_target_ l) ;;
  ' (output, loss) <- _forward_pass input target target_ ;;
  emit ZeroGrad ;;
  call zero_grad ;;
  emit Backward ;;
  call (backward loss) ;;
  emit OptimizerStep ;;
  call optimizer_step ;;
  modify (fun s => set_num_iterations (num_iterations s + 1) s) ;;
  abi <- call (accuracy_criterion output target) ;;
  let l := Locals (l_input l) (l_target l) (l_target_ l)
             (acc_update (l_accuracy l) abi) in
  s <- get ;;
  r <- py_mod (num_iterations s) (log_after_iters s) ;;
  (if r =? 0 then
     _ <- of_result (mean_dice_over_count (l_accuracy l)) ;;
     emit (LogInfo MsgTrainingStats)
   else ret tt) ;;
  r <- py_mod (num_iterations s) (validate_after_iters s) ;;
  stop <-
    (if r =? 0 then
       val_accuracy <- validate (val_loader s) ;;
       is_best <- _is_best_val_accuracy val_accuracy ;;
       _save_checkpoint is_best ;;
       stop <- _check_early_stopping is_best ;;
       if stop : bool then
         s <- get ;;
         emit (LogInfo (MsgEarlyStopping (max_patience s))) ;;
         ret true
       else ret false
     else ret false) ;;
  if stop : bool then ret (inr true)
  else
    s <- get ;;
    if max_num_iterations s <? num_iterations s then
      emit (LogInfo (MsgMaxIterations (max_num_iterations s))) ;;
      ret (inr true)
    else ret (inl l).

Definition train (train_loader : list batch) : M bool :=
  modify (set_model_training true) ;;
  r <- for_loop train_step train_loader (Locals None None None RunningAcc) ;;
  match r with
  | inl _ => ret false
  | inr b => ret b
  end.

Definition fit_step (_ : Z) (_ : unit) : M (unit + unit) :=
  s <- get ;;
  should_terminate <- train (train_loader s) ;;
  if should_terminate : bool then ret (inr tt)
  else
    modify (fun s => set_num_epoch (num_epoch s + 1) s) ;;
    ret (inl tt).

(** The epochs [fit] iterates over: [range(self.num_epoch,
    self.max_num_epochs)], evaluated once when the loop starts. *)
Definition fit_epochs (s : trainer) : list Z :=
  py_range (num_epoch s) (max_num_epochs s).

Definition fit : M unit :=
  s <- get ;;
  for_loop fit_step (fit_epochs s) tt ;;
  ret tt.

End Methods.

(** ** Runs of calls, and a concrete set of collaborators *)

Section Runs.
Context `{Collaborators}.

(** Successive [_check_early_stopping] calls on one trainer; the run ends
    at the first call that raises. *)
Fixpoint early_stopping_run (calls : list bool) (s : trainer)
  : list (result bool) * trainer :=
  match calls with
  | [] => ([], s)
  | b :: calls' =>
      match _check_early_stopping b s with
      | (Ok r, s') =>
          let (rs, s'') := early_stopping_run calls' s' in (Ok r :: rs, s'')
      | (Raise e, s') => ([Raise e], s')
      end
  end.

(** The binary64 numbers the literals [0.7] and [0.6] denote. *)
Definition f0_7 : float := 0x1.6666666666666p-1%float.
Definition f0_6 : float := 0x1.3333333333333p-1%float.

(** Successive [_is_best_val_accuracy] calls on one trainer. *)
Fixpoint best_run (accuracies : list float) (s : trainer)
  : list (result bool) * trainer :=
  match accuracies with
  | [] => ([], s)
  | v :: vs =>
      let (r, s') := _is_best_val_accuracy v s in
      let (rs, s'') := best_run vs s' in (r :: rs, s'')
  end.

Definition is_decay (e : event) : bool :=
  match e with
  | LogInfo (MsgChangingLR _ _) => true
  | _ => false
  end.

(** How many learning-rate decays a trace records. *)
Definition decays (tr : list event) : nat :=
  List.length (filter is_decay tr).

Definition is_forward_in (mode : bool) (e : event) : bool :=
  match e with
  | ModelForward m => Bool.eqb m mode
  | _ => false
  end.

(** An event that is not a network call in mode [negb mode]. *)
Definition in_mode (mode : bool) (e : event) : bool :=
  negb (is_forward_in (negb mode) e).

(** [steady_at c s]: run from [s], the computation [c] leaves the network's
    mode alone and calls the network in that mode only. *)
Definition steady_at {A} (c : M A) (s : trainer) : Prop :=
  model_training (snd (c s)) = model_training s
  /\ exists evs,
       trace (snd (c s)) = trace s ++ evs
       /\ forallb (in_mode (model_training s)) evs = true.

Definition steady {A} (c : M A) : Prop := forall s, steady_at c s.

End Runs.

(** Collaborators simple enough to compute with: a tensor is a list of
    rationals, the network returns its input as main output and as its one
    auxiliary output and raises on an empty input, the loss is the inner
    product, and the world counts optimizer steps. *)
Definition toy : Collaborators :=
  {| tensor := list Q;
     stats := Q;
     world := nat;
     model_call := fun _ x w =>
       match x with
       | [] => (Raise (CollaboratorError "model"), w)
       | _ => (Ok (x, [x]), w)
       end;
     loss_criterion_1 := fun o t w => (Ok (Qsum (zipWith Qmult o t)), w);
     backward := fun _ w => (Ok tt, w);
     zero_grad := fun w => (Ok tt, w);
     optimizer_step := fun w => (Ok tt, S w);
     accuracy_criterion := fun o t w => (Ok (Qsum (zipWith Qmult o t)), w);
     cat0 := fun a b => Ok (a ++ b);
     acc := list Q;
     RunningAcc := [];
     acc_update := fun a x => x :: a;
     mean_dice_over_count := fun a =>
       match a with
       | [] => Raise ZeroDivisionError
       | _ => Ok 0.5%float
       end |}.

(** A [toy] trainer with the given schedule, optimizer and loaders, as the
    constructor leaves it (no validation and no logging for a million
    iterations unless stated otherwise). *)
Definition toy_trainer (max_patience patience : Z) (lrs : list float)
    (train_loader val_loader : list (list (list Q))) : @trainer toy :=
  @UNet3DTrainer toy (true, 0%nat) lrs (train_loader, val_loader) 200 100000
    max_patience patience 1000000 1000000 neg_infinity 0 0 [].

(** A [toy] trainer that validates after every iteration, with
    [max_patience = patience = 3], one parameter group of rate 1, six
    3-tuple training batches and one validation batch.  The [toy]
    accumulator reports the accuracy 0.5 at every validation. *)
Definition toy_validating : @trainer toy :=
  @UNet3DTrainer toy (true, 0%nat) [1%float]
    (repeat [[1 # 2]; [1]; [1]]%Q 6, [[[1 # 2]; [1]; [1]]]%Q)
    200 100000 3 3 1 1000000 neg_infinity 0 0 [].

Definition is_save (e : @event toy) : bool :=
  match e with
  | SaveCheckpoint _ _ => true
  | _ => false
  end.

(** ** losses.py: Dice coefficient and Dice loss *)





(** ** losses.py: entries of a tensor *)

(** [x[j][k][l][m]] and [x[i][c][k][l][m]]; [d] stands for an entry out
    of range. *)
Definition get4 {A} (d : A) (x : nest4 A) (j k l m : nat) : A :=
  nth m (nth l (nth k (nth j x []) []) []) d.

Definition get5 {A} (d : A) (x : nest5 A) (i c k l m : nat) : A :=
  get4 d (nth i x []) c k l m.

(** A label that [scatter_] accepts as a channel index. *)
Definition label_in_range (C : nat) (v : Z) : bool :=
  (0 <=? v)%Z && (v <? Z.of_nat C)%Z.

(** The entry of [index] at which [scatter_1] writes position
    [(i, c, k, l, m)]. *)
Definition hits (i c k l m : nat) (p : nat * nat * nat * nat * nat * Z)
  : bool :=
  let '(i', _, k', l', m', v) := p in
  (i =? i')%nat && (c =? Z.to_nat v)%nat && (k =? k')%nat && (l =? l')%nat
  && (m =? m')%nat.

(** The entries of [x] form an [(N, C, D, H, W)] array. *)
Definition shaped {A} (N C D H W : nat) (x : nest5 A) : Prop :=
  rows (rows (rows (rows (rows any W) H) D) C) N x = true.

(** An integer that a float32 tensor holds exactly: every integer of
    magnitude up to [2 ^ 24] is a float32 number, and 16777217 is the first
    that is not.  Where the code writes an integer into a float tensor, or
    compares a float tensor with one, the exact rationals of this model
    are what the code computes for these integers. *)
Definition float32_exact (z : Z) : bool := (Z.abs z <=? 2 ^ 24)%Z.

(** ** losses.py: calling the ignore-index wrapper *)

(** [IgnoreIndexLossWrapper.__call__] for a wrapper around
    [loss_criterion] with the given [ignore_index]; the target is a 4-axis
    label image or a 5-axis tensor. *)
Definition IgnoreIndexLossWrapper_call {R}
    (loss_criterion : tensor5 Q -> tensor5 Q -> result R) (ignore_index : Z)
    (input : tensor5 Q) (target : tensor4 Z + tensor5 Q) : result R :=
  (let '(_, C, _, _, _) := size5 input in
   let? target :=
     match target with
     | inl labels => expand_as_one_hot labels C (Some ignore_index)
     | inr target => Ok target
     end in
   if negb (size_eqb5 (size5 input) (size5 target))
   then Raise (AssertionError "")
   else
     let mask := ne_mask (inject_Z ignore_index) target in
     let masked_input := tmul input mask in
     let masked_target := tmul target mask in
     loss_criterion masked_input masked_target)%result.

(** ** Invariants of the trainer's methods *)

Section Invariants.
Context `{Collaborators}.

(** What the loop of [train] does when a validation is due: validate,
    record the best accuracy, save the checkpoint, check for early
    stopping. *)
Definition validation (loader : list batch) : M bool :=
  (val_accuracy <- validate loader ;;
   is_best <- _is_best_val_accuracy val_accuracy ;;
   _save_checkpoint is_best ;;
   stop <- _check_early_stopping is_best ;;
   if stop : bool then
     s <- get ;;
     emit (LogInfo (MsgEarlyStopping (max_patience s))) ;;
     ret true
   else ret false)%M.

(** [preserves I c]: a state that satisfies [I] before [c] satisfies it
    after, whether [c] returns or raises. *)
Definition preserves {A} (I : trainer -> Prop) (c : M A) : Prop :=
  forall s, I s -> I (snd (c s)).

(** [wp c Q s]: run from [s], the outcome and the final state of [c]
    satisfy [Q]. *)
Definition wp {A} (c : M A) (Q : result A -> trainer -> Prop) (s : trainer)
  : Prop :=
  Q (fst (c s)) (snd (c s)).

(** How many network calls in evaluation mode a trace records. *)
Definition eval_calls (tr : list event) : nat :=
  List.length (filter (is_forward_in false) tr).

(** The network is in evaluation mode and has been called [k] times in
    that mode. *)
Definition evaluating (k : nat) (s : trainer) : Prop :=
  model_training s = false /\ eval_calls (trace s) = k.

Definition not_eval_call (e : event) : bool := negb (is_forward_in false e).

(** Everything of [self] but the network's mode, the collaborators' state
    and the trace. *)
Definition schedule (s : trainer) :=
  (param_group_lrs s, train_loader s, val_loader s, max_num_epochs s,
   max_num_iterations s, validate_after_iters s, log_after_iters s,
   best_val_accuracy s, num_iterations s, num_epoch s, max_patience s,
   patience s).

(** What the constructor is told and no method is meant to change: the
    loaders, the limits, the intervals and [max_patience]. *)
Definition configuration (s : trainer) :=
  (train_loader s, val_loader s, max_num_epochs s, max_num_iterations s,
   validate_after_iters s, log_after_iters s, max_patience s).

(** The learning rates are those of [lrs], or one rate for every group of
    [lrs]. *)
Definition uniform_or (lrs : list float) (s : trainer) : Prop :=
  param_group_lrs s = lrs
  \/ exists v, param_group_lrs s = map (fun _ => v) lrs.

(** The events that change parameters or files: optimizer calls, backward
    passes and checkpoint writes. *)
Definition is_update (e : event) : bool :=
  match e with
  | ZeroGrad | Backward | OptimizerStep | SaveCheckpoint _ _ => true
  | _ => false
  end.

Definition is_optimizer_step (e : event) : bool :=
  match e with
  | OptimizerStep => true
  | _ => false
  end.

(** How many optimizer steps a trace records. *)
Definition optimizer_steps (tr : list event) : Z :=
  Z.of_nat (List.length (filter is_optimizer_step tr)).

Local Open Scope Z_scope.

(** The iteration counter, its limit and the optimizer steps so far. *)
Definition counted (n M k : Z) (s : trainer) : Prop :=
  num_iterations s = n /\ max_num_iterations s = M
  /\ optimizer_steps (trace s) = k.

Definition no_step (e : event) : bool := negb (is_optimizer_step e).


Definition is_checkpoint (e : event) : bool :=
  match e with
  | SaveCheckpoint _ _ => true
  | _ => false
  end.

(** The last log line of a validation that returns. *)
Definition is_validated (e : event) : bool :=
  match e with
  | LogInfo (MsgBestAccuracy _) => true
  | _ => false
  end.

Definition count (p : event -> bool) (tr : list event) : Z :=
  Z.of_nat (List.length (filter p tr)).

(** [k] checkpoints written and [c] validations completed so far. *)
Definition tally (k c : Z) (s : trainer) : Prop :=
  count is_checkpoint (trace s) = k /\ count is_validated (trace s) = c.

(** [d] more checkpoints written than validations completed. *)
Definition balanced (d : Z) (s : trainer) : Prop :=
  count is_checkpoint (trace s) - count is_validated (trace s) = d.

Definition neither (e : event) : bool :=
  negb (is_checkpoint e) && negb (is_validated e).

(** The two states in which [train] asks to stop: patience used up, with
    the early-stopping line logged last, or the iteration limit exceeded,
    with its line logged last. *)
Definition out_of_patience (s : trainer) : Prop :=
  patience s <= 0
  /\ exists tr,
       trace s = tr ++ [LogInfo (MsgEarlyStopping (max_patience s))].

Definition over_the_limit (s : trainer) : Prop :=
  max_num_iterations s < num_iterations s
  /\ exists tr,
       trace s = tr ++ [LogInfo (MsgMaxIterations (max_num_iterations s))].

(** The two reporting intervals of [s'] are those of [s]. *)
Definition same_intervals (s s' : trainer) : Prop :=
  log_after_iters s' = log_after_iters s
  /\ validate_after_iters s' = validate_after_iters s.

End Invariants.

(** * Properties *)

Unset Implicit Arguments.

Ltac split_comparisons :=
  repeat match goal with
  | |- context [Z.ltb ?a ?b] => destruct (Z.ltb_spec a b)
  | |- context [Z.leb ?a ?b] => destruct (Z.leb_spec a b)
  | |- context [Z.eqb ?a ?b] => destruct (Z.eqb_spec a b)
  end; cbn [andb].

(** ** Order facts about binary64 comparison *)

Lemma SFcompare_antisym (x y : spec_float) :
  SFcompare y x = option_map CompOpp (SFcompare x y).
Proof.
  destruct x as [sx | sx | | sx mx ex], y as [sy | sy | | sy my ey];
    try destruct sx; try destruct sy; try reflexivity.
  - cbn. rewrite (Z.compare_antisym ey ex).
    destruct (ey ?= ex)%Z; cbn; try reflexivity.
    rewrite (Pos.compare_cont_antisym mx my Eq). reflexivity.
  - cbn. rewrite (Z.compare_antisym ey ex).
    destruct (ey ?= ex)%Z; cbn; try reflexivity.
    rewrite (Pos.compare_cont_antisym mx my Eq). reflexivity.
Qed.

Lemma is_nan_compare (x : float) :
  is_nan x = false -> SFcompare (Prim2SF x) (Prim2SF x) = Some Eq.
Proof.
  unfold is_nan. rewrite eqb_spec. unfold SFeqb.
  destruct (SFcompare (Prim2SF x) (Prim2SF x)) as [[] |]; cbn;
    congruence.
Qed.

Lemma compare_defined (x y : float) :
  is_nan x = false -> is_nan y = false ->
  exists c, SFcompare (Prim2SF x) (Prim2SF y) = Some c.
Proof.
  intros Hx Hy. apply is_nan_compare in Hx, Hy.
  destruct (Prim2SF x), (Prim2SF y); try discriminate; cbn; eauto.
Qed.

(** [x < y] implies [x <= y]. *)
Lemma ltb_leb (x y : float) : (x <? y)%float = true -> (x <=? y)%float = true.
Proof.
  rewrite ltb_spec, leb_spec. unfold SFltb, SFleb.
  destruct (SFcompare (Prim2SF x) (Prim2SF y)) as [[] |]; congruence.
Qed.

(** On numbers, [not (x < y)] implies [y <= x]. *)
Lemma nltb_leb (x y : float) :
  is_nan x = false -> is_nan y = false ->
  (x <? y)%float = false -> (y <=? x)%float = true.
Proof.
  intros Hx Hy. rewrite ltb_spec, leb_spec. unfold SFltb, SFleb.
  rewrite (SFcompare_antisym (Prim2SF x) (Prim2SF y)).
  destruct (compare_defined x y Hx Hy) as [c ->].
  destruct c; cbn; congruence.
Qed.

Lemma leb_refl (x : float) : is_nan x = false -> (x <=? x)%float = true.
Proof.
  intros Hx. rewrite leb_spec. unfold SFleb.
  rewrite (is_nan_compare x Hx). reflexivity.
Qed.

(** [x == y] excludes [y < x]. *)
Lemma eqb_not_ltb (x y : float) :
  (x =? y)%float = true -> (y <? x)%float = false.
Proof.
  rewrite eqb_spec, ltb_spec. unfold SFeqb, SFltb.
  rewrite (SFcompare_antisym (Prim2SF x) (Prim2SF y)).
  destruct (SFcompare (Prim2SF x) (Prim2SF y)) as [[] |]; cbn; congruence.
Qed.

(** ** Best-accuracy tracking *)

Section BestAccuracy.
Context `{Collaborators}.

Lemma is_best_val_accuracy_eq (s : trainer) (v : float) :
  _is_best_val_accuracy v s =
  (Ok (best_val_accuracy s <? v)%float,
   set_best_val_accuracy (py_max v (best_val_accuracy s))
     (if (best_val_accuracy s <? v)%float
      then set_trace (trace s ++ [LogInfo (MsgNewBest v)]) s
      else s)).
Proof.
  unfold _is_best_val_accuracy, bind, get, emit, modify, ret.
  destruct (best_val_accuracy s <? v)%float; reflexivity.
Qed.

(** C2: [_is_best_val_accuracy v] returns [v > best_val_accuracy], so a tie
    returns false, and leaves [best_val_accuracy = max(v, best)]: on
    numbers that is an upper bound of both and one of the two.  From
    [-inf], the accuracies 0.5, 0.7, 0.6 give true, true, false and leave
    0.7. *)
Theorem is_best_val_accuracy_spec (s : trainer) (v : float) :
  let b := best_val_accuracy s in
  let r := _is_best_val_accuracy v s in
  let b' := best_val_accuracy (snd r) in
  fst r = Ok (b <? v)%float
  /\ ((v =? b)%float = true -> fst r = Ok false)
  /\ b' = py_max v b
  /\ (is_nan v = false -> is_nan b = false ->
      (v <=? b')%float = true /\ (b <=? b')%float = true
      /\ (b' = v \/ b' = b)
      /\ ((b <? v)%float = true -> b' = v)
      /\ ((b <? v)%float = false -> (b' =? b)%float = true))
  /\ (b = neg_infinity ->
      let run := best_run [0.5%float; f0_7; f0_6] s in
      fst run = [Ok true; Ok true; Ok false]
      /\ best_val_accuracy (snd run) = f0_7).
Proof.
  cbv zeta. rewrite is_best_val_accuracy_eq. cbn [fst snd].
  assert (Hb' : forall t, best_val_accuracy
            (set_best_val_accuracy (py_max v (best_val_accuracy s)) t)
          = py_max v (best_val_accuracy s)) by reflexivity.
  rewrite Hb'. clear Hb'. set (b := best_val_accuracy s).
  split; [reflexivity |]. split.
  { intros E. rewrite (eqb_not_ltb _ _ E). reflexivity. }
  split; [reflexivity |]. split.
  { intros Hv Hb. unfold py_max.
    destruct (v <? b)%float eqn:E'.
    - split; [now apply ltb_leb |]. split; [now apply leb_refl |].
      split; [now right |]. split.
      + intros E. exfalso.
        apply ltb_leb in E'. rewrite leb_spec in E'. rewrite ltb_spec in E.
        unfold SFleb, SFltb in *.
        rewrite (SFcompare_antisym (Prim2SF v) (Prim2SF b)) in E.
        destruct (SFcompare (Prim2SF v) (Prim2SF b)) as [[] |];
          cbn in *; congruence.
      + intros _. rewrite eqb_spec. unfold SFeqb.
        rewrite (is_nan_compare _ Hb). reflexivity.
    - split; [now apply leb_refl |]. split; [now apply nltb_leb |].
      split; [now left |]. split; [reflexivity |].
      intros E. rewrite eqb_spec. rewrite ltb_spec in E, E'.
      unfold SFeqb, SFltb in *.
      rewrite (SFcompare_antisym (Prim2SF v) (Prim2SF b)) in E.
      destruct (compare_defined _ _ Hv Hb) as [c Hc].
      rewrite Hc in *. destruct c; cbn in *; congruence. }
  intros Hb. unfold best_run. rewrite !is_best_val_accuracy_eq.
  cbn [fst snd]. fold b. rewrite Hb. split; reflexivity.
Qed.

End BestAccuracy.

(** The theorem applied to a trainer whose best accuracy is 0.25. *)
Lemma is_best_val_accuracy_spec_witness :
  let s := set_best_val_accuracy 0.25%float (toy_trainer 3 3 [1%float] [] []) in
  let s' := snd (_is_best_val_accuracy 0.5%float s) in
  fst (_is_best_val_accuracy 0.5%float s) = Ok true
  /\ (0.5 <=? best_val_accuracy s')%float = true
  /\ (0.25 <=? best_val_accuracy s')%float = true.
Proof.
  intros s s'.
  destruct (is_best_val_accuracy_spec s 0.5%float) as (H1 & _ & _ & H4 & _).
  split; [exact H1 |].
  destruct (H4 eq_refl eq_refl) as (Ha & Hb & _).
  split; [exact Ha | exact Hb].
Defined.

(** ** The loss factory *)

Lemma supported_existsb (name : string) :
  existsb (String.eqb name) SUPPORTED_LOSSES = true <->
  In name SUPPORTED_LOSSES.
Proof.
  rewrite existsb_exists. split.
  - intros (x & Hin & Heq). apply String.eqb_eq in Heq. now subst.
  - intros Hin. exists name. split; [assumption | apply String.eqb_refl].
Qed.

(** C6: [get_loss_criterion] raises the invalid-loss error for every name
    outside [SUPPORTED_LOSSES] and returns a loss for every name inside;
    for ['ce'] and ['wce'] without an ignore index the loss it returns has
    [ignore_index = -100]. *)
Theorem get_loss_criterion_spec (name : string) (weight : option (list Q))
    (ignore_index : option Z) :
  (~ In name SUPPORTED_LOSSES ->
   get_loss_criterion name weight ignore_index
   = Raise (AssertionError ("Invalid loss string: " ++ name)))
  /\ (In name SUPPORTED_LOSSES ->
      exists loss, get_loss_criterion name weight ignore_index = Ok loss)
  /\ (name = "ce"%string \/ name = "wce"%string ->
      ignore_index = None ->
      exists loss,
        get_loss_criterion name weight ignore_index = Ok loss
        /\ getattr loss "ignore_index" = Some (VInt (-100))).
Proof.
  split; [| split].
  - intros Hout. unfold get_loss_criterion.
    destruct (existsb (String.eqb name) SUPPORTED_LOSSES) eqn:E.
    + apply supported_existsb in E. contradiction.
    + reflexivity.
  - intros Hin. cbn in Hin.
    repeat (destruct Hin as [<- | Hin]); try contradiction;
      destruct ignore_index; eexists; reflexivity.
  - intros [-> | ->] ->; eexists; split; reflexivity.
Qed.

(** The theorem applied to the unsupported name ['bogus'] and to ['ce']. *)
Lemma get_loss_criterion_spec_witness :
  get_loss_criterion "bogus" None None
  = Raise (AssertionError "Invalid loss string: bogus")
  /\ exists loss,
       get_loss_criterion "ce" None None = Ok loss
       /\ getattr loss "ignore_index" = Some (VInt (-100)).
Proof.
  split.
  - apply (proj1 (get_loss_criterion_spec "bogus" None None)).
    cbn. intuition discriminate.
  - apply (proj2 (proj2 (get_loss_criterion_spec "ce" None None)));
      [left |]; reflexivity.
Defined.

(** C7: with an ignore index, ['bce'] is the BCE loss inside an
    [IgnoreIndexLossWrapper]; constructing the wrapper raises exactly for
    the objects that have an [ignore_index] attribute. *)
Theorem ignore_index_wrapper_spec (loss : pyval) (k : Z)
    (weight : option (list Q)) :
  get_loss_criterion "bce" weight (Some k)
  = Ok (VObject "IgnoreIndexLossWrapper"
          [("loss_criterion"%string, BCEWithLogitsLoss);
           ("ignore_index"%string, VInt k)])
  /\ (hasattr loss "ignore_index" = true ->
      exists msg,
        IgnoreIndexLossWrapper loss (VInt k) = Raise (RuntimeError msg))
  /\ (hasattr loss "ignore_index" = false ->
      IgnoreIndexLossWrapper loss (VInt k)
      = Ok (VObject "IgnoreIndexLossWrapper"
              [("loss_criterion"%string, loss);
               ("ignore_index"%string, VInt k)])).
Proof.
  split; [reflexivity |]. unfold IgnoreIndexLossWrapper.
  split; intros ->; [eexists |]; reflexivity.
Qed.

(** The theorem applied to a Dice loss, which has the attribute, and to the
    BCE loss, which has not. *)
Lemma ignore_index_wrapper_spec_witness :
  (exists msg,
     IgnoreIndexLossWrapper (DiceLoss VNone VNone) (VInt 5)
     = Raise (RuntimeError msg))
  /\ IgnoreIndexLossWrapper BCEWithLogitsLoss (VInt 5)
     = Ok (VObject "IgnoreIndexLossWrapper"
             [("loss_criterion"%string, BCEWithLogitsLoss);
              ("ignore_index"%string, VInt 5)]).
Proof.
  split.
  - apply (proj1 (proj2 (ignore_index_wrapper_spec
                           (DiceLoss VNone VNone) 5 None))).
    reflexivity.
  - apply (proj2 (proj2 (ignore_index_wrapper_spec
                           BCEWithLogitsLoss 5 None))).
    reflexivity.
Defined.

(** ** Early stopping and learning-rate decay *)

Section EarlyStopping.
Context `{Collaborators}.
Local Open Scope Z_scope.

Lemma decays_app (tr1 tr2 : list event) :
  decays (tr1 ++ tr2) = (decays tr1 + decays tr2)%nat.
Proof. unfold decays. now rewrite filter_app, length_app. Qed.

Lemma check_early_stopping_best (s : trainer) :
  _check_early_stopping true s =
  (Ok false,
   set_trace (trace s ++ [Printed (max_patience s)])
     (set_patience (max_patience s) s)).
Proof. reflexivity. Qed.

Lemma check_early_stopping_stop (s : trainer) :
  patience s - 1 <= 0 ->
  _check_early_stopping false s = (Ok true, set_patience (patience s - 1) s).
Proof.
  intros Hp. unfold _check_early_stopping, bind, modify, get, ret.
  cbn. destruct (Z.leb_spec (patience s - 1) 0); [reflexivity | lia].
Qed.

Lemma check_early_stopping_continue (s : trainer) :
  0 < patience s - 1 -> patience s - 1 <> max_patience s / 2 ->
  _check_early_stopping false s =
  (Ok false,
   set_trace (trace s ++ [Printed (patience s - 1)])
     (set_patience (patience s - 1) s)).
Proof.
  intros Hp Hne. unfold _check_early_stopping, bind, modify, get, ret, emit.
  cbn. destruct (Z.leb_spec (patience s - 1) 0); [lia |].
  destruct (Z.eqb_spec (patience s - 1) (max_patience s / 2)); [lia |].
  reflexivity.
Qed.

Lemma check_early_stopping_decay (s : trainer) (lr0 : float)
    (rest : list float) :
  0 < patience s - 1 -> patience s - 1 = max_patience s / 2 ->
  param_group_lrs s = lr0 :: rest -> (0 <? lr0)%float = true ->
  _check_early_stopping false s =
  (Ok false,
   set_trace (trace s ++ [LogInfo (MsgChangingLR lr0 (decayed lr0));
                          Printed (patience s - 1)])
     (set_param_group_lrs (map (fun _ => decayed lr0) (lr0 :: rest))
        (set_patience (patience s - 1) s))).
Proof.
  intros Hp He Hl Hpos.
  unfold _check_early_stopping, _adjust_learning_rate, bind, modify, get,
    ret, emit.
  cbn. destruct (Z.leb_spec (patience s - 1) 0); [lia |].
  destruct (Z.eqb_spec (patience s - 1) (max_patience s / 2)); [| lia].
  change (param_group_lrs (set_patience (patience s - 1) s))
    with (param_group_lrs s).
  rewrite Hl, Hpos. cbn. unfold set_trace, set_param_group_lrs. cbn.
  rewrite Hl, <- app_assoc. reflexivity.
Qed.

(** One non-improving call, all cases at once. *)
Lemma check_early_stopping_nonbest (s : trainer) :
  (patience s <= max_patience s / 2 \/
   exists lr0 rest,
     param_group_lrs s = lr0 :: rest /\ (0 <? lr0)%float = true) ->
  let p := patience s - 1 in
  let fires := (0 <? p) && (p =? max_patience s / 2) in
  exists s',
    _check_early_stopping false s = (Ok (p <=? 0), s')
    /\ patience s' = p
    /\ max_patience s' = max_patience s
    /\ decays (trace s') = (decays (trace s) + if fires then 1 else 0)%nat
    /\ param_group_lrs s' =
       if fires
       then map (fun _ => decayed (hd 0%float (param_group_lrs s)))
                (param_group_lrs s)
       else param_group_lrs s.
Proof.
  intros Hl p fires. subst p fires.
  destruct (Z.leb_spec (patience s - 1) 0) as [Hle | Hgt].
  - rewrite check_early_stopping_stop by assumption.
    destruct (Z.ltb_spec 0 (patience s - 1)); [lia |]. cbn [andb].
    eexists. split; [reflexivity |]. cbn.
    repeat split; try reflexivity; unfold decays; lia.
  - destruct (Z.ltb_spec 0 (patience s - 1)); [| lia]. cbn [andb].
    destruct (Z.eqb_spec (patience s - 1) (max_patience s / 2)) as [He | Hne].
    + destruct Hl as [Hl | (lr0 & rest & Hl & Hpos)]; [lia |].
      rewrite (check_early_stopping_decay s lr0 rest) by assumption.
      eexists. split; [reflexivity |].
      unfold set_trace, set_param_group_lrs, set_patience.
      cbn [patience max_patience trace param_group_lrs].
      rewrite decays_app, Hl. repeat split.
    + rewrite check_early_stopping_continue by assumption.
      eexists. split; [reflexivity |].
      unfold set_trace, set_patience.
      cbn [patience max_patience trace param_group_lrs].
      rewrite decays_app. repeat split.
Qed.

(** A stretch of [n] non-improving calls. *)
Lemma nonbest_stretch (n : nat) :
  forall s : trainer,
    (patience s <= max_patience s / 2 \/
     exists lr0 rest,
       param_group_lrs s = lr0 :: rest /\ (0 <? lr0)%float = true) ->
    let fires :=
      (0 <? max_patience s / 2) && (max_patience s / 2 <? patience s)
      && (patience s - Z.of_nat n <=? max_patience s / 2) in
    exists s',
      early_stopping_run (repeat false n) s
      = (map (fun i => Ok (patience s - Z.of_nat i <=? 0)) (seq 1 n), s')
      /\ patience s' = patience s - Z.of_nat n
      /\ max_patience s' = max_patience s
      /\ decays (trace s') = (decays (trace s) + if fires then 1 else 0)%nat
      /\ param_group_lrs s' =
         if fires
         then map (fun _ => decayed (hd 0%float (param_group_lrs s)))
                  (param_group_lrs s)
         else param_group_lrs s.
Proof.
  induction n as [| n IH]; intros s Hl fires; subst fires.
  - exists s. cbn [repeat early_stopping_run seq map].
    split; [reflexivity |]. split; [cbn; lia |]. split; [reflexivity |].
    split_comparisons; split; try reflexivity; lia.
  - destruct (check_early_stopping_nonbest s Hl)
      as (s1 & Hcall & Hp1 & Hmp1 & Hd1 & Hl1).
    assert (Hl' : patience s1 <= max_patience s1 / 2 \/
                  exists lr0 rest,
                    param_group_lrs s1 = lr0 :: rest
                    /\ (0 <? lr0)%float = true).
    { rewrite Hp1, Hmp1.
      destruct ((0 <? patience s - 1)
                && (patience s - 1 =? max_patience s / 2)) eqn:E.
      - left. apply andb_prop in E. destruct E as [_ E].
        apply Z.eqb_eq in E. lia.
      - rewrite Hl1. destruct Hl as [Hl | Hl]; [left; lia | now right]. }
    destruct (IH s1 Hl') as (s' & Hrun & Hp' & Hmp' & Hd' & Hl'').
    exists s'. cbn [repeat early_stopping_run]. rewrite Hcall, Hrun.
    split.
    { rewrite <- cons_seq, <- (seq_shift n 1). cbn [map]. rewrite map_map.
      f_equal. f_equal. apply map_ext. intros i.
      rewrite Hp1. do 2 f_equal. lia. }
    split; [lia |]. split; [congruence |].
    rewrite Hd', Hd1, Hl'', Hl1, Hp1, Hmp1.
    replace (patience s - 1 - Z.of_nat n) with (patience s - Z.of_nat (S n))
      by lia.
    split_comparisons; split; try reflexivity; try lia.
Qed.


(** C1, as the code has it: a call with [is_best = true] resets [patience]
    to [max_patience] and returns false.  A call with [is_best = false]
    decrements [patience] by 1 and returns true exactly when the
    decremented patience is [<= 0]; it decays the learning rate exactly
    when the decremented patience is positive and equals
    [max_patience // 2], and the decay sets every parameter group's rate to
    0.1 times the rate of the first group.  In a stretch of [n] consecutive
    non-improving calls from [patience = max_patience] the decay fires once
    if [max_patience >= 2] and [n >= max_patience - max_patience // 2], and
    not at all otherwise.  With [max_patience = patience = 3], three such
    calls return false, false, true and the one decay happens at the second
    call, when patience reaches 1. *)
Theorem check_early_stopping_amended (s : trainer) (lr0 : float)
    (rest : list float) :
  param_group_lrs s = lr0 :: rest -> (0 <? lr0)%float = true ->
  let mp := max_patience s in
  let p := patience s - 1 in
  let fires := (0 <? p) && (p =? mp / 2) in
  (exists s',
     _check_early_stopping true s = (Ok false, s')
     /\ patience s' = mp
     /\ param_group_lrs s' = lr0 :: rest
     /\ decays (trace s') = decays (trace s))
  /\ (exists s',
        _check_early_stopping false s = (Ok (p <=? 0), s')
        /\ patience s' = p
        /\ decays (trace s') = (decays (trace s) + if fires then 1 else 0)%nat
        /\ param_group_lrs s' =
           if fires then map (fun _ => decayed lr0) (lr0 :: rest)
           else lr0 :: rest)
  /\ (patience s = mp ->
      forall n : nat,
      exists s',
        early_stopping_run (repeat false n) s
        = (map (fun i => Ok (mp - Z.of_nat i <=? 0)) (seq 1 n), s')
        /\ decays (trace s') =
           (decays (trace s)
            + if ((2 <=? mp) && (mp - mp / 2 <=? Z.of_nat n))%Z then 1
              else 0)%nat)
  /\ (mp = 3 -> patience s = 3 ->
      let after calls := snd (early_stopping_run calls s) in
      fst (early_stopping_run [false; false; false] s)
      = [Ok false; Ok false; Ok true]
      /\ decays (trace (after [false])) = decays (trace s)
      /\ patience (after [false; false]) = 1
      /\ decays (trace (after [false; false])) = S (decays (trace s))
      /\ decays (trace (after [false; false; false])) = S (decays (trace s))).
Proof.
  intros Hl Hpos mp p fires.
  assert (Hl' : patience s <= max_patience s / 2 \/
                exists lr0 rest,
                  param_group_lrs s = lr0 :: rest
                  /\ (0 <? lr0)%float = true)
    by (right; eauto).
  assert (Hstretch : patience s = mp ->
      forall n : nat,
      exists s',
        early_stopping_run (repeat false n) s
        = (map (fun i => Ok (mp - Z.of_nat i <=? 0)) (seq 1 n), s')
        /\ patience s' = mp - Z.of_nat n
        /\ decays (trace s') =
           (decays (trace s)
            + if ((2 <=? mp) && (mp - mp / 2 <=? Z.of_nat n))%Z then 1
              else 0)%nat).
  { intros Hp n.
    destruct (nonbest_stretch n s Hl') as (s' & Hrun & Hp' & _ & Hd & _).
    exists s'. rewrite Hrun, Hd, Hp', Hp. unfold mp. clear.
    split; [reflexivity |]. split; [reflexivity |]. f_equal.
    generalize (max_patience s). intros m.
    assert (Hdiv : 2 * (m / 2) <= m < 2 * (m / 2) + 2)
      by (pose proof (Z.mod_pos_bound m 2); pose proof (Z.div_mod m 2); lia).
    split_comparisons; try reflexivity; lia. }
  split; [| split; [| split]].
  - rewrite check_early_stopping_best. eexists. split; [reflexivity |].
    unfold set_trace, set_patience. cbn [patience param_group_lrs trace].
    rewrite decays_app. repeat split; [assumption | cbn; lia].
  - destruct (check_early_stopping_nonbest s Hl')
      as (s' & Hcall & Hp' & _ & Hd & Hlrs).
    exists s'. rewrite Hlrs, Hl. auto.
  - intros Hp n. destruct (Hstretch Hp n) as (s' & Hrun & _ & Hd). eauto.
  - intros Hmp Hp after. subst after.
    assert (Hp' : patience s = mp) by lia.
    destruct (Hstretch Hp' 1%nat) as (s1 & Hrun1 & _ & Hd1).
    destruct (Hstretch Hp' 2%nat) as (s2 & Hrun2 & Hp2 & Hd2).
    destruct (Hstretch Hp' 3%nat) as (s3 & Hrun3 & _ & Hd3).
    cbn [repeat] in Hrun1, Hrun2, Hrun3.
    rewrite Hrun1, Hrun2, Hrun3. cbn [fst snd].
    rewrite Hd1, Hd2, Hd3, Hp2, Hmp. cbn. repeat split; lia.
Qed.

End EarlyStopping.

(** The theorem applied to a trainer with [max_patience = patience = 3] and
    one parameter group of rate 1. *)
Lemma check_early_stopping_amended_witness :
  fst (early_stopping_run [false; false; false]
         (toy_trainer 3 3 [1%float] [] []))
  = [Ok false; Ok false; Ok true].
Proof.
  destruct (check_early_stopping_amended
              (toy_trainer 3 3 [1%float] [] []) 1%float []
              eq_refl eq_refl) as (_ & _ & _ & Hscenario).
  exact (proj1 (Hscenario eq_refl eq_refl)).
Defined.

(** C1 as stated fails in three ways.  A run with an improvement in it
    decays twice; with two parameter groups of rates 1 and 2 the decay
    leaves both at 0.1, not at 0.1 and 0.2; and with [max_patience = 1] the
    call that brings patience to [1 // 2 = 0] returns true without a
    decay. *)
Lemma check_early_stopping_counterexample :
  decays (trace (snd (early_stopping_run [false; false; true; false; false]
                        (toy_trainer 3 3 [1%float] [] []))))
  = 2%nat
  /\ param_group_lrs
       (snd (early_stopping_run [false; false]
               (toy_trainer 3 3 [1%float; 2%float] [] [])))
     = [decayed 1; decayed 1]
  /\ (decayed 1 =? decayed 2)%float = false
  /\ (let s := toy_trainer 1 1 [1%float] [] [] in
      let r := _check_early_stopping false s in
      patience (snd r) = (max_patience s / 2)%Z
      /\ fst r = Ok true
      /\ decays (trace (snd r)) = 0%nat
      /\ param_group_lrs (snd r) = [1%float]).
Proof. vm_compute. repeat split. Qed.

(** ** Checkpoints *)

Section Checkpoints.
Context `{Collaborators}.
Local Open Scope Z_scope.

Lemma py_range_cons (a b : Z) :
  a < b -> py_range a b = a :: py_range (a + 1) b.
Proof.
  intros Hab. unfold py_range.
  replace (Z.to_nat (b - a)) with (S (Z.to_nat (b - (a + 1)))) by lia.
  cbn [seq map]. f_equal; [lia |].
  rewrite <- seq_shift, map_map. apply map_ext. intros i. lia.
Qed.

Lemma py_range_nil (a b : Z) : b <= a -> py_range a b = [].
Proof.
  intros Hab. unfold py_range.
  replace (Z.to_nat (b - a)) with 0%nat by lia. reflexivity.
Qed.

(** C10: the checkpoint [_save_checkpoint] writes has [epoch = num_epoch + 1]
    and the live [num_iterations], [best_val_accuracy], [patience] and
    [max_patience]; [from_checkpoint] makes that epoch the new trainer's
    [num_epoch] (and sets both patience fields to 100), so the epochs its
    [fit] runs are those of the saving trainer without the epoch the
    checkpoint was written in. *)
Theorem checkpoint_resume (s : trainer) (is_best : bool)
    (model : bool * world)
    (optimizer : list float) (loaders : list batch * list batch)
    (validate_after log_after : Z) :
  exists ck r,
    _save_checkpoint is_best s
    = (Ok tt, set_trace (trace s ++ [SaveCheckpoint ck is_best]) s)
    /\ ck_epoch ck = num_epoch s + 1
    /\ ck_num_iterations ck = num_iterations s
    /\ ck_best_val_accuracy ck = best_val_accuracy s
    /\ ck_patience ck = patience s
    /\ ck_max_patience ck = max_patience s
    /\ from_checkpoint ck model optimizer loaders validate_after log_after true
       = Ok r
    /\ num_epoch r = num_epoch s + 1
    /\ num_iterations r = num_iterations s
    /\ best_val_accuracy r = best_val_accuracy s
    /\ patience r = 100 /\ max_patience r = 100
    /\ fit_epochs r = py_range (num_epoch s + 1) (max_num_epochs s)
    /\ fit r
       = bind (for_loop fit_step
                 (py_range (num_epoch s + 1) (max_num_epochs s)) tt)
              (fun _ => ret tt) r
    /\ fit_epochs s =
       if num_epoch s <? max_num_epochs s then num_epoch s :: fit_epochs r
       else [].
Proof.
  eexists. eexists. split; [reflexivity |].
  cbn [ck_epoch ck_num_iterations ck_best_val_accuracy ck_patience
       ck_max_patience].
  do 5 (split; [reflexivity |]).
  split; [reflexivity |].
  do 5 (split; [reflexivity |]).
  split; [reflexivity |].
  split; [reflexivity |].
  unfold fit_epochs. cbn [num_epoch max_num_epochs UNet3DTrainer
    ck_epoch ck_max_num_epochs].
  destruct (Z.ltb_spec (num_epoch s) (max_num_epochs s)).
  - now apply py_range_cons.
  - now apply py_range_nil.
Qed.

End Checkpoints.

(** ** Validation and the network's mode *)

Section Validation.
Context `{Collaborators}.

Lemma steady_ret {A} (a : A) : steady (ret a).
Proof. intros s. split; [reflexivity |]. exists []. now rewrite app_nil_r. Qed.

Lemma steady_raise {A} (e : exn) : steady (@raise _ A e).
Proof. intros s. split; [reflexivity |]. exists []. now rewrite app_nil_r. Qed.

Lemma steady_of_result {A} (r : result A) : steady (of_result r).
Proof. intros s. split; [reflexivity |]. exists []. now rewrite app_nil_r. Qed.

Lemma steady_call {A} (f : world -> result A * world) : steady (call f).
Proof.
  intros s. unfold steady_at, call. destruct (f (the_world s)) as [r w].
  split; [reflexivity |]. exists []. cbn. now rewrite app_nil_r.
Qed.

Lemma steady_emit (e : event) (s : trainer) :
  in_mode (model_training s) e = true -> steady_at (emit e) s.
Proof.
  intros He. split; [reflexivity |]. exists [e]. split; [reflexivity |].
  cbn. now rewrite He.
Qed.

Lemma steady_bind {A B} (c : M A) (k : A -> M B) (s : trainer) :
  steady_at c s ->
  (forall a s', c s = (Ok a, s') -> steady_at (k a) s') ->
  steady_at (bind c k) s.
Proof.
  intros [Hm (evs & Ht & Hevs)] Hk. unfold steady_at, bind.
  destruct (c s) as [[a | e] s'] eqn:E; cbn [snd] in *.
  - destruct (Hk a s' eq_refl) as [Hm' (evs' & Ht' & Hevs')].
    split; [congruence |]. exists (evs ++ evs').
    rewrite Ht', Ht, app_assoc. split; [reflexivity |].
    rewrite forallb_app, Hevs. rewrite Hm in Hevs'. now rewrite Hevs'.
  - split; [assumption |]. eauto.
Qed.

Lemma steady_get_bind {B} (k : trainer -> M B) (s : trainer) :
  steady_at (k s) s -> steady_at (bind get k) s.
Proof. intros Hk. exact Hk. Qed.

Lemma steady_local (name : string) (v : option tensor) :
  steady (local name v).
Proof. destruct v; [apply steady_ret | apply steady_raise]. Qed.

Lemma steady_aux_losses (up : list tensor) (target_ : tensor) :
  forall loss, steady (aux_losses up target_ loss).
Proof.
  induction up as [| u up IH]; intros loss s; cbn [aux_losses].
  - apply steady_ret.
  - apply steady_bind; [apply steady_call |]. intros l s' _. apply IH.
Qed.

Lemma steady_forward_pass (input target target_ : tensor) :
  steady (_forward_pass input target target_).
Proof.
  intros s. unfold _forward_pass. apply steady_get_bind.
  apply steady_bind.
  { apply steady_emit. unfold in_mode. cbn.
    now destruct (model_training s). }
  intros _ s1 _. apply steady_bind; [apply steady_call |].
  intros [y up] s2 _. apply steady_bind; [apply steady_aux_losses |].
  intros loss s3 _. apply steady_bind; [apply steady_call |].
  intros l s4 _. apply steady_ret.
Qed.

Lemma steady_validate_step (t : batch) (l : locals) :
  steady (validate_step t l).
Proof.
  intros s. unfold validate_step.
  apply steady_bind; [apply steady_local |]. intros input s1 _.
  apply steady_bind; [apply steady_local |]. intros target s2 _.
  apply steady_bind; [apply steady_local |]. intros target_ s3 _.
  apply steady_bind; [apply steady_forward_pass |]. intros [output loss] s4 _.
  apply steady_bind; [apply steady_call |]. intros abi s5 _.
  apply steady_ret.
Qed.

Lemma steady_for_loop {X L R} (body : X -> L -> M (L + R)) (xs : list X) :
  (forall x l, steady (body x l)) ->
  forall l, steady (for_loop body xs l).
Proof.
  intros Hbody. induction xs as [| x xs IH]; intros l s; cbn [for_loop].
  - apply steady_ret.
  - apply steady_bind; [apply Hbody |]. intros [l' | v] s' _.
    + apply IH.
    + apply steady_ret.
Qed.

Lemma steady_validate_body (loader : list batch) :
  steady (validate_body loader).
Proof.
  intros s. unfold validate_body.
  apply steady_bind.
  { apply steady_for_loop. apply steady_validate_step. }
  intros r s1 _. apply steady_bind; [apply steady_of_result |].
  intros mean_dice s2 _. apply steady_bind; [now apply steady_emit |].
  intros _ s3 _. apply steady_get_bind.
  apply steady_bind; [now apply steady_emit |].
  intros _ s4 _. apply steady_ret.
Qed.

End Validation.

(** Both ways out of [validate] happen: with the [toy] collaborators a
    loader of one 3-tuple batch is validated to the end, and a loader whose
    second batch makes the network raise ends by that exception; the
    network is in training mode after either. *)
Example validate_exits :
  let s := toy_trainer 3 3 [1%float] [] [] in
  let good := [[1 # 2]; [1]; [1]]%Q in
  let bad := [[]; [1]; [1]]%Q in
  fst (@validate toy [good] s) = Ok 0.5%float
  /\ model_training (snd (@validate toy [good] s)) = true
  /\ fst (@validate toy [good; bad] s) = Raise (CollaboratorError "model")
  /\ model_training (snd (@validate toy [good; bad] s)) = true.
Proof. vm_compute. repeat split. Qed.

(** ** One pass of the training loop *)

Section Training.
Context `{Collaborators}.

(** C9 fails on the code: a loader whose first batch is the 2-tuple
    [(input, target)] makes [train] raise [UnboundLocalError] for
    [target_] before the network is called, with [num_iterations] and the
    trace untouched; a first batch of 6 does no better. *)
Theorem train_two_tuple_unbound (input target : tensor) (rest : list batch)
    (s : trainer) :
  train ([input; target] :: rest) s
  = (Raise (UnboundLocalError "target_"), set_model_training true s)
  /\ forall a1 t1 a2 t2,
       exists e,
         train ([input; target; a1; t1; a2; t2] :: rest) s
         = (Raise e, set_model_training true s).
Proof.
  split; [reflexivity |]. intros a1 t1 a2 t2.
  unfold train, bind, modify. cbn [for_loop]. unfold bind at 1.
  unfold train_step, bind at 1. unfold train_unpack, bind, of_result.
  destruct (cat0 input a1) as [i1 | e1]; [| eexists; reflexivity].
  destruct (cat0 target t1) as [u1 | e2]; [| eexists; reflexivity].
  destruct (cat0 i1 a2) as [i2 | e3]; [| eexists; reflexivity].
  destruct (cat0 u1 t2) as [u2 | e4]; eexists; reflexivity.
Qed.

End Training.

(** With the [toy] collaborators: a 3-tuple batch is one iteration, with
    the loss [0.4 * criterion(up[0], target_) + criterion(y, target)]
    handed to the backward pass, and a 2-tuple batch is accepted only after
    a 3-tuple one has bound [target_], whose stale value it then uses. *)
Example train_three_tuple :
  let s := toy_trainer 3 3 [1%float] [] [] in
  let three := [[1 # 2]; [1]; [1]]%Q in
  let two := [[1 # 2]; [1]]%Q in
  fst (@train toy [three] s) = Ok false
  /\ num_iterations (snd (@train toy [three] s)) = 1%Z
  /\ trace (snd (@train toy [three] s))
     = trace s ++ [ModelForward true; ZeroGrad; Backward; OptimizerStep]
  /\ fst (@_forward_pass toy [1 # 2] [1] [1] s)%Q
     = Ok ([1 # 2], (0 + (1 # 2) * 1 * (4 # 10) + (1 # 2) * 1))%Q
  /\ fst (@train toy [three; two] s) = Ok false
  /\ num_iterations (snd (@train toy [three; two] s)) = 2%Z
  /\ fst (@train toy [two; three] s) = Raise (UnboundLocalError "target_")
  /\ num_iterations (snd (@train toy [two; three] s)) = 0%Z.
Proof. vm_compute. repeat split. Qed.

(** One epoch of [toy_validating]: the first validation is the best so
    far, the next three are not, so the fourth iteration stops the
    training; the rate has been decayed once, four checkpoints have been
    written, each with [epoch = 1], the network is left in training mode,
    and [fit] ends without counting the epoch. *)
Example train_stops_early :
  let r := @train toy (train_loader toy_validating) toy_validating in
  fst r = Ok true
  /\ num_iterations (snd r) = 4%Z
  /\ patience (snd r) = 0%Z
  /\ decays (trace (snd r)) = 1%nat
  /\ param_group_lrs (snd r) = [decayed 1]
  /\ model_training (snd r) = true
  /\ map (fun e => match e with
                   | SaveCheckpoint ck b => (ck_epoch ck, ck_patience ck, b)
                   | _ => (0, 0, false)%Z
                   end)
         (filter is_save (trace (snd r)))
     = [(1, 3, true); (1, 3, false); (1, 2, false); (1, 1, false)]%Z
  /\ fst (@fit toy toy_validating) = Ok tt
  /\ num_epoch (snd (@fit toy toy_validating)) = 0%Z.
Proof. vm_compute. repeat split. Qed.

(** ** Lists of rows *)

Lemma rows_inv {A} (p : A -> bool) (n : nat) (l : list A) :
  rows p n l = true -> List.length l = n /\ forallb p l = true.
Proof.
  unfold rows. intros Hr. apply andb_prop in Hr. destruct Hr as [Hn Hp].
  apply Nat.eqb_eq in Hn. now split.
Qed.

Lemma forallb_nth {A} (p : A -> bool) (l : list A) (n : nat) (d : A) :
  forallb p l = true -> (n < List.length l)%nat -> p (nth n l d) = true.
Proof.
  intros Hp Hn. rewrite forallb_forall in Hp. apply Hp. now apply nth_In.
Qed.


Lemma zipWith_length {A B C} (f : A -> B -> C) (l1 : list A) :
  forall l2 : list B,
    List.length (zipWith f l1 l2) = Nat.min (List.length l1) (List.length l2).
Proof.
  induction l1 as [| a l1 IH]; intros [| b l2]; cbn; try reflexivity.
  now rewrite IH.
Qed.


Lemma nth_zipWith {A B C} (f : A -> B -> C) (l1 : list A) :
  forall (l2 : list B) (n : nat) (da : A) (db : B) (dc : C),
    (n < List.length l1)%nat -> (n < List.length l2)%nat ->
    nth n (zipWith f l1 l2) dc = f (nth n l1 da) (nth n l2 db).
Proof.
  induction l1 as [| a l1 IH]; intros [| b l2] [| n] da db dc H1 H2;
    cbn in *; try lia; [reflexivity |].
  apply IH; lia.
Qed.

(** Zipping two images of one list. *)
Lemma zipWith_map_same {X A B C} (f : A -> B -> C) (g : X -> A) (h : X -> B)
    (l : list X) :
  zipWith f (map g l) (map h l) = map (fun x => f (g x) (h x)) l.
Proof. induction l as [| x l IH]; cbn; [reflexivity | now rewrite IH]. Qed.



Lemma forallb_impl {A} (p q : A -> bool) (l : list A) :
  (forall a, p a = true -> q a = true) ->
  forallb p l = true -> forallb q l = true.
Proof.
  intros Hpq. rewrite !forallb_forall. auto.
Qed.

Lemma forallb_map_comp {A B} (p : B -> bool) (g : A -> B) (l : list A) :
  forallb p (map g l) = forallb (fun x => p (g x)) l.
Proof. induction l as [| a l IH]; cbn; [reflexivity | now rewrite IH]. Qed.

Lemma rows_length {A} (p : A -> bool) (n : nat) (l : list A) :
  rows p n l = true -> (List.length l =? n)%nat = true.
Proof. intros Hr. apply Nat.eqb_eq. now apply rows_inv in Hr. Qed.

Lemma length_concat_rows {A} (n : nat) (X : list (list A)) :
  forallb (fun a => (List.length a =? n)%nat) X = true ->
  List.length (concat X) = (List.length X * n)%nat.
Proof.
  induction X as [| a X IH]; cbn; [reflexivity |]. intros HX.
  apply andb_prop in HX. destruct HX as [Ha HX]. apply Nat.eqb_eq in Ha.
  rewrite length_app, IH by assumption. lia.
Qed.

Section Flattening.
Context {A B C : Type} (f : A -> B -> C) (D H W : nat).


Lemma length_flat2 {T} (a : nest2 T) :
  rows (rows any W) H a = true ->
  (List.length (concat a) =? H * W)%nat = true.
Proof.
  intros Ha. apply rows_inv in Ha. destruct Ha as [Hn Hr].
  apply Nat.eqb_eq. rewrite (length_concat_rows W), Hn; [reflexivity |].
  apply (forallb_impl (rows any W)); [| assumption].
  intros x. apply rows_length.
Qed.


Lemma length_flat3 {T} (x : nest3 T) :
  rows (rows (rows any W) H) D x = true ->
  (List.length (flat3 x) =? D * (H * W))%nat = true.
Proof.
  intros Hx. apply rows_inv in Hx. destruct Hx as [Hn Hr].
  apply Nat.eqb_eq. unfold flat3.
  rewrite (length_concat_rows (H * W)), length_map, Hn; [reflexivity |].
  rewrite forallb_map_comp. apply (forallb_impl (rows (rows any W) H));
    [| assumption]. intros a. apply length_flat2.
Qed.


End Flattening.

(** ** Per-channel Dice *)

Lemma flatten_rows {A} (t : tensor5 A) (N C D H W : nat) :
  size5 t = (N, C, D, H, W) -> view_compatible (N, C, D, H, W) = true ->
  flatten t = Ok (map (fun c => flat4 (channel c t)) (seq 0 C)).
Proof.
  intros Hs Hv. unfold flatten, permute10. rewrite Hs, Hv. cbn [data5].
  now rewrite map_map.
Qed.

Lemma flatten_raises {A} (t : tensor5 A) :
  view_compatible (size5 t) = false ->
  flatten t = Raise (RuntimeError
    "view size is not compatible with input tensor's size and stride").
Proof. intros Hv. unfold flatten. now rewrite Hv. Qed.

Lemma channel_rows {A} (t : tensor5 A) (N C D H W c : nat) :
  size5 t = (N, C, D, H, W) -> wf5 t = true -> (c < C)%nat ->
  forallb (rows (rows (rows any W) H) D) (channel c t) = true.
Proof.
  intros Hs Hwf Hc. unfold wf5 in Hwf. rewrite Hs in Hwf.
  apply rows_inv in Hwf. destruct Hwf as [_ Hwf]. unfold channel.
  rewrite forallb_map_comp.
  apply (forallb_impl (rows (rows (rows (rows any W) H) D) C));
    [| assumption].
  intros tn Htn. apply rows_inv in Htn. destruct Htn as [Hlen Htn].
  apply (forallb_nth (rows (rows (rows any W) H) D) tn c []);
    [assumption | lia].
Qed.

Lemma map_nth_seq {A} (l : list A) (d : A) :
  map (fun i => nth i l d) (seq 0 (List.length l)) = l.
Proof.
  induction l as [| a l IH]; [reflexivity |]. cbn [List.length seq map nth].
  f_equal. rewrite <- seq_shift, map_map. exact IH.
Qed.

Lemma size_eqb5_refl (s : nat * nat * nat * nat * nat) : size_eqb5 s s = true.
Proof.
  destruct s as [[[[N C] D] H] W]. cbn. now rewrite !Nat.eqb_refl.
Qed.


(** C4 fails on the code for batches of several channels: whenever the
    common shape is one [view] rejects after the permutation ([N > 1],
    [C > 1] and [D * H * W > 1]), [compute_per_channel_dice] raises
    instead of returning the scores.  ([dice_formula] above is the claim
    on the shapes [flatten] accepts.) *)
Theorem dice_flatten_raises (input target : tensor5 Q) (epsilon : Q)
    (weight : option (list Q)) :
  size5 input = size5 target ->
  view_compatible (size5 input) = false ->
  compute_per_channel_dice input target epsilon None weight
  = Raise (RuntimeError
      "view size is not compatible with input tensor's size and stride").
Proof.
  intros Hs Hv. unfold compute_per_channel_dice.
  rewrite <- Hs, size_eqb5_refl. cbn [negb].
  now rewrite (flatten_raises input Hv).
Qed.

(** The theorem applied to two well-formed tensors of shape
    [(2, 2, 1, 1, 2)]. *)
Lemma dice_flatten_raises_witness :
  let pred := T5 (2, 2, 1, 1, 2)%nat
                [[[[[1; 0]]]; [[[0; 1]]]]; [[[[1; 1]]]; [[[0; 0]]]]]%Q in
  wf5 pred = true
  /\ compute_per_channel_dice pred pred (1 # 100000) None None
     = Raise (RuntimeError
         "view size is not compatible with input tensor's size and stride").
Proof.
  intros pred. split; [reflexivity |].
  apply (dice_flatten_raises pred pred (1 # 100000) None); reflexivity.
Defined.

(** ** Dice of identical tensors *)


Lemma nth_map_seq {A} (f : nat -> A) (n c : nat) (d : A) :
  (c < n)%nat -> nth c (map f (seq 0 n)) d = f c.
Proof.
  intros Hc. rewrite (nth_indep _ d (f 0%nat))
    by now rewrite length_map, length_seq.
  rewrite (map_nth f). now rewrite seq_nth.
Qed.


Lemma Qsum_cons (a : Q) (l : list Q) : Qsum (a :: l) = a + Qsum l.
Proof. reflexivity. Qed.









(** ** One-hot expansion *)

(** C3 fails on the code for a batch of two: [src = input.unsqueeze(0)]
    has size [(1, N, D, H, W)], so [scatter_] writes the labels of every
    batch entry into batch entry 0 and leaves the others zero.  For the
    labels 0 and 1 of two one-voxel images and [C = 2], the channels sum to
    2 at the first image and to 0 at the second, and [argmax] gives label 0
    for both. *)
Theorem expand_as_one_hot_batch_of_two :
  let labels := T4 (2, 1, 1, 1)%nat [[[[0%Z]]]; [[[1%Z]]]] in
  wf4 labels = true
  /\ exists r,
       expand_as_one_hot labels 2 None = Ok r
       /\ r = T5 (2, 2, 1, 1, 1)%nat
                [[[[[1]]]; [[[1]]]]; [[[[0]]]; [[[0]]]]]
       /\ sum_dim1 r = T4 (2, 1, 1, 1)%nat [[[[2]]]; [[[0]]]]
       /\ argmax_dim1 r = T4 (2, 1, 1, 1)%nat [[[[0%Z]]]; [[[0%Z]]]].
Proof.
  split; [reflexivity |]. eexists.
  split; [reflexivity |]. repeat split.
Qed.

(** On a batch of one the same call is a one-hot encoding. *)
Example expand_as_one_hot_batch_of_one :
  let labels := T4 (1, 1, 2, 2)%nat [[[[0%Z; 1%Z]; [2%Z; 1%Z]]]] in
  exists r,
    expand_as_one_hot labels 3 None = Ok r
    /\ sum_dim1 r = T4 (1, 1, 2, 2)%nat [[[[1; 1]; [1; 1]]]]
    /\ argmax_dim1 r = labels.
Proof. eexists. repeat split. Qed.

(** * Further properties *)

(** ** Invariants through the monad *)

Section PreservesBasic.
Context `{Collaborators}.
Variable I : trainer -> Prop.
Variable allowed : event -> bool.
Hypothesis I_world : forall w s, I s -> I (set_world w s).
Hypothesis I_emit :
  forall e s, allowed e = true -> I s -> I (set_trace (trace s ++ [e]) s).

Lemma preserves_ret {A} (a : A) : preserves I (ret a).
Proof. intros s Hs. exact Hs. Qed.

Lemma preserves_raise {A} (e : exn) : preserves I (@raise _ A e).
Proof. intros s Hs. exact Hs. Qed.

Lemma preserves_of_result {A} (r : result A) : preserves I (of_result r).
Proof. intros s Hs. exact Hs. Qed.

Lemma preserves_get : preserves I get.
Proof. intros s Hs. exact Hs. Qed.

Lemma preserves_call {A} (f : world -> result A * world) :
  preserves I (call f).
Proof.
  intros s Hs. unfold call. destruct (f (the_world s)) as [r w].
  now apply I_world.
Qed.

Lemma preserves_emit (e : event) : allowed e = true -> preserves I (emit e).
Proof. intros He s Hs. now apply I_emit. Qed.

Lemma preserves_bind {A B} (c : M A) (k : A -> M B) :
  preserves I c -> (forall a, preserves I (k a)) -> preserves I (bind c k).
Proof.
  intros Hc Hk s Hs. unfold bind. specialize (Hc s Hs).
  destruct (c s) as [[a | e] s']; cbn [snd] in *; [now apply Hk | exact Hc].
Qed.

Lemma preserves_for_loop {X L R} (body : X -> L -> M (L + R)) (xs : list X) :
  (forall x l, preserves I (body x l)) ->
  forall l, preserves I (for_loop body xs l).
Proof.
  intros Hbody. induction xs as [| x xs IH]; intros l; cbn [for_loop].
  - apply preserves_ret.
  - apply preserves_bind; [apply Hbody |].
    intros [l' | v]; [apply IH | apply preserves_ret].
Qed.

Lemma preserves_local (name : string) (v : option tensor) :
  preserves I (local name v).
Proof. destruct v; [apply preserves_ret | apply preserves_raise]. Qed.

Lemma preserves_py_mod (a b : Z) : preserves I (py_mod a b).
Proof.
  unfold py_mod. destruct (b =? 0)%Z;
    [apply preserves_raise | apply preserves_ret].
Qed.

Lemma preserves_aux_losses (up : list tensor) (target_ : tensor) :
  forall loss, preserves I (aux_losses up target_ loss).
Proof.
  induction up as [| u up IH]; intros loss; cbn [aux_losses].
  - apply preserves_ret.
  - apply preserves_bind; [apply preserves_call | intros l; apply IH].
Qed.

Lemma preserves_forward_pass (input target target_ : tensor) :
  (forall m, allowed (ModelForward m) = true) ->
  preserves I (_forward_pass input target target_).
Proof.
  intros Hf. unfold _forward_pass.
  apply preserves_bind; [apply preserves_get | intros s0].
  apply preserves_bind; [now apply preserves_emit | intros _].
  apply preserves_bind; [apply preserves_call | intros [y up]].
  apply preserves_bind; [apply preserves_aux_losses | intros loss].
  apply preserves_bind; [apply preserves_call | intros l].
  apply preserves_ret.
Qed.

Lemma preserves_train_unpack (t : batch) (l : locals) :
  preserves I (train_unpack t l).
Proof.
  unfold train_unpack.
  destruct t as [| a [| b [| c [| d [| e [| f [| g t]]]]]]];
    try apply preserves_ret.
  repeat (apply preserves_bind; [apply preserves_of_result | intros ?]).
  apply preserves_ret.
Qed.

Lemma preserves_validate_step (t : batch) (l : locals) :
  (forall m, allowed (ModelForward m) = true) ->
  preserves I (validate_step t l).
Proof.
  intros Hf. unfold validate_step.
  apply preserves_bind; [apply preserves_local | intros input].
  apply preserves_bind; [apply preserves_local | intros target].
  apply preserves_bind; [apply preserves_local | intros target_].
  apply preserves_bind; [now apply preserves_forward_pass | intros [o loss]].
  apply preserves_bind; [apply preserves_call | intros abi].
  apply preserves_ret.
Qed.

Lemma preserves_validate_body (loader : list batch) :
  (forall m, allowed (ModelForward m) = true) ->
  (forall m, allowed (LogInfo m) = true) ->
  preserves I (validate_body loader).
Proof.
  intros Hf Hlog. unfold validate_body.
  apply preserves_bind.
  { apply preserves_for_loop. intros t l. now apply preserves_validate_step. }
  intros r. apply preserves_bind; [apply preserves_of_result | intros d].
  apply preserves_bind; [now apply preserves_emit | intros _].
  apply preserves_bind; [apply preserves_get | intros s0].
  apply preserves_bind; [now apply preserves_emit | intros _].
  apply preserves_ret.
Qed.

(** [validate], for an invariant that does not look at the network's
    mode. *)
Lemma preserves_validate (loader : list batch) :
  (forall b s, I s -> I (set_model_training b s)) ->
  (forall m, allowed (ModelForward m) = true) ->
  (forall m, allowed (LogInfo m) = true) ->
  preserves I (validate loader).
Proof.
  intros Hmode Hf Hlog s Hs.
  unfold validate, bind, get, emit, modify, try_finally. cbn [fst snd].
  set (s0 := set_model_training false _).
  assert (H0 : I s0) by (apply Hmode, I_emit; [apply Hlog | exact Hs]).
  pose proof (preserves_validate_body loader Hf Hlog s0 H0) as Hb.
  destruct (validate_body loader s0) as [r s1]. cbn [snd] in *.
  now apply Hmode.
Qed.

End PreservesBasic.

Section WeakestPre.
Context `{Collaborators}.

Lemma wp_bind {A B} (c : M A) (k : A -> M B) (Q : result B -> trainer -> Prop)
    (s : trainer) :
  wp c (fun r s' =>
          match r with
          | Ok a => wp (k a) Q s'
          | Raise e => Q (Raise e) s'
          end) s ->
  wp (bind c k) Q s.
Proof.
  unfold wp, bind. destruct (c s) as [[a | e] s']; cbn [fst snd]; auto.
Qed.

Lemma wp_bind_inv {A B} (I : trainer -> Prop) (c : M A) (k : A -> M B)
    (Q : result B -> trainer -> Prop) (s : trainer) :
  preserves I c -> I s ->
  (forall a s', I s' -> wp (k a) Q s') ->
  (forall e s', I s' -> Q (Raise e) s') ->
  wp (bind c k) Q s.
Proof.
  intros Hc Hs Hk He. apply wp_bind. unfold wp. specialize (Hc s Hs).
  destruct (c s) as [[a | e] s']; cbn [fst snd] in *; auto.
  now apply Hk.
Qed.

Lemma wp_bind_get {B} (k : trainer -> M B) (Q : result B -> trainer -> Prop)
    (s : trainer) :
  wp (k s) Q s -> wp (bind get k) Q s.
Proof. intros Hk. exact Hk. Qed.

Lemma wp_bind_modify {B} (f : trainer -> trainer) (k : unit -> M B)
    (Q : result B -> trainer -> Prop) (s : trainer) :
  wp (k tt) Q (f s) -> wp (bind (modify f) k) Q s.
Proof. intros Hk. exact Hk. Qed.

Lemma wp_bind_emit {B} (e : event) (k : unit -> M B)
    (Q : result B -> trainer -> Prop) (s : trainer) :
  wp (k tt) Q (set_trace (trace s ++ [e]) s) -> wp (bind (emit e) k) Q s.
Proof. intros Hk. exact Hk. Qed.

Lemma wp_ret {A} (a : A) (Q : result A -> trainer -> Prop) (s : trainer) :
  Q (Ok a) s -> wp (ret a) Q s.
Proof. intros HQ. exact HQ. Qed.

End WeakestPre.

Section PreservesValidation.
Context `{Collaborators}.
Variable I : trainer -> Prop.
Variable allowed : event -> bool.
Hypothesis I_emit :
  forall e s, allowed e = true -> I s -> I (set_trace (trace s ++ [e]) s).
Hypothesis I_validate : forall loader, preserves I (validate loader).
Hypothesis I_best : forall b s, I s -> I (set_best_val_accuracy b s).
Hypothesis I_reset : forall s, I s -> I (set_patience (max_patience s) s).
Hypothesis I_decrement :
  forall s, I s -> I (set_patience (patience s - 1) s).
Hypothesis I_decay :
  forall v s,
    I s -> I (set_param_group_lrs (map (fun _ => v) (param_group_lrs s)) s).
Hypothesis allowed_new_best :
  forall v, allowed (LogInfo (MsgNewBest v)) = true.
Hypothesis allowed_changing :
  forall a b, allowed (LogInfo (MsgChangingLR a b)) = true.
Hypothesis allowed_stopping :
  forall z, allowed (LogInfo (MsgEarlyStopping z)) = true.
Hypothesis allowed_print : forall z, allowed (Printed z) = true.
Hypothesis allowed_save : forall ck b, allowed (SaveCheckpoint ck b) = true.

Lemma preserves_modify (f : trainer -> trainer) :
  (forall s, I s -> I (f s)) -> preserves I (modify f).
Proof. intros Hf s Hs. now apply Hf. Qed.

Lemma preserves_is_best (v : float) : preserves I (_is_best_val_accuracy v).
Proof.
  unfold _is_best_val_accuracy.
  apply (preserves_bind I); [apply preserves_get | intros s0].
  apply (preserves_bind I).
  { destruct (best_val_accuracy s0 <? v)%float;
      [apply (preserves_emit I allowed I_emit), allowed_new_best
      | apply preserves_ret]. }
  intros _. apply (preserves_bind I).
  { apply preserves_modify. intros s. apply I_best. }
  intros _. apply preserves_ret.
Qed.

Lemma preserves_save_checkpoint (b : bool) : preserves I (_save_checkpoint b).
Proof.
  unfold _save_checkpoint.
  apply (preserves_bind I); [apply preserves_get | intros s0].
  apply (preserves_emit I allowed I_emit), allowed_save.
Qed.

Lemma preserves_adjust : preserves I _adjust_learning_rate.
Proof.
  unfold _adjust_learning_rate.
  apply (preserves_bind I); [apply preserves_get | intros s0].
  destruct (param_group_lrs s0) as [| lr0 rest]; [apply preserves_raise |].
  destruct (negb (0 <? lr0)%float); [apply preserves_raise |].
  apply (preserves_bind I);
    [apply (preserves_emit I allowed I_emit), allowed_changing | intros _].
  apply preserves_modify. intros s. apply I_decay.
Qed.

Lemma preserves_check_early_stopping (b : bool) :
  preserves I (_check_early_stopping b).
Proof.
  unfold _check_early_stopping. destruct b.
  - apply (preserves_bind I).
    { apply preserves_modify. intros s. apply I_reset. }
    intros _. apply (preserves_bind I); [apply preserves_get | intros s0].
    apply (preserves_bind I);
      [apply (preserves_emit I allowed I_emit), allowed_print | intros _].
    apply preserves_ret.
  - apply (preserves_bind I).
    { apply preserves_modify. intros s. apply I_decrement. }
    intros _. apply (preserves_bind I); [apply preserves_get | intros s0].
    destruct (patience s0 <=? 0)%Z; [apply preserves_ret |].
    apply (preserves_bind I).
    { destruct (patience s0 =? max_patience s0 / 2)%Z;
        [apply preserves_adjust | apply preserves_ret]. }
    intros _. apply (preserves_bind I);
      [apply (preserves_emit I allowed I_emit), allowed_print | intros _].
    apply preserves_ret.
Qed.

Lemma preserves_validation (loader : list batch) :
  preserves I (validation loader).
Proof.
  unfold validation.
  apply (preserves_bind I).
  { apply I_validate. }
  intros v. apply (preserves_bind I); [apply preserves_is_best | intros b].
  apply (preserves_bind I); [apply preserves_save_checkpoint | intros _].
  apply (preserves_bind I);
    [apply preserves_check_early_stopping | intros stop].
  destruct stop; [| apply preserves_ret].
  apply (preserves_bind I); [apply preserves_get | intros s0].
  apply (preserves_bind I);
    [apply (preserves_emit I allowed I_emit), allowed_stopping | intros _].
  apply preserves_ret.
Qed.

End PreservesValidation.

Section PreservesTrain.
Context `{Collaborators}.
Variable I : trainer -> Prop.
Variable allowed : event -> bool.
Hypothesis I_world : forall w s, I s -> I (set_world w s).
Hypothesis I_emit :
  forall e s, allowed e = true -> I s -> I (set_trace (trace s ++ [e]) s).
Hypothesis I_validation : forall loader, preserves I (validation loader).
Hypothesis I_iter :
  forall s, I s -> I (set_num_iterations (num_iterations s + 1) s).
Hypothesis allowed_stats : allowed (LogInfo MsgTrainingStats) = true.
Hypothesis allowed_limit :
  forall z, allowed (LogInfo (MsgMaxIterations z)) = true.
Hypothesis allowed_forward : forall m, allowed (ModelForward m) = true.
Hypothesis allowed_zero_grad : allowed ZeroGrad = true.
Hypothesis allowed_backward : allowed Backward = true.
Hypothesis allowed_step : allowed OptimizerStep = true.

(** What follows the iteration counter's increment in [train_step], up to
    the decision to stop. *)
Lemma preserves_after_step (output target : tensor) (l : locals)
    (k : locals -> bool -> M (locals + bool)) :
  (forall l' stop, preserves I (k l' stop)) ->
  preserves I
    (bind (call (accuracy_criterion output target)) (fun abi =>
     let l' := Locals (l_input l) (l_target l) (l_target_ l)
                 (acc_update (l_accuracy l) abi) in
     bind get (fun s =>
     bind (py_mod (num_iterations s) (log_after_iters s)) (fun r =>
     bind (if (r =? 0)%Z
           then bind (of_result (mean_dice_over_count (l_accuracy l')))
                     (fun _ => emit (LogInfo MsgTrainingStats))
           else ret tt) (fun _ =>
     bind (py_mod (num_iterations s) (validate_after_iters s)) (fun r =>
     bind (if (r =? 0)%Z
           then validation (val_loader s)
           else ret false) (fun stop => k l' stop))))))).
Proof.
  intros Hk.
  apply (preserves_bind I);
    [apply (preserves_call I I_world) | intros abi]. cbv zeta.
  apply (preserves_bind I); [apply preserves_get | intros s0].
  apply (preserves_bind I); [apply preserves_py_mod | intros r].
  apply (preserves_bind I).
  { destruct (r =? 0)%Z; [| apply preserves_ret].
    apply (preserves_bind I); [apply preserves_of_result | intros _].
    apply (preserves_emit I allowed I_emit), allowed_stats. }
  intros _. apply (preserves_bind I); [apply preserves_py_mod | intros r'].
  apply (preserves_bind I).
  { destruct (r' =? 0)%Z; [apply I_validation | apply preserves_ret]. }
  intros stop. apply Hk.
Qed.

Lemma preserves_train_step (t : batch) (l : locals) :
  preserves I (train_step t l).
Proof.
  unfold train_step.
  apply (preserves_bind I);
    [apply (preserves_train_unpack I) | intros l1].
  apply (preserves_bind I); [apply preserves_local | intros input].
  apply (preserves_bind I); [apply preserves_local | intros target].
  apply (preserves_bind I); [apply preserves_local | intros target_].
  apply (preserves_bind I).
  { now apply (preserves_forward_pass I allowed I_world I_emit). }
  intros [output loss].
  do 3 (apply (preserves_bind I);
          [now apply (preserves_emit I allowed I_emit) | intros _];
        apply (preserves_bind I);
          [apply (preserves_call I I_world) | intros _]).
  apply (preserves_bind I).
  { apply preserves_modify. intros s. apply I_iter. }
  intros _.
  apply (preserves_after_step output target l1
           (fun l' stop =>
              if stop : bool then ret (inr true)
              else bind get (fun s =>
                   if (max_num_iterations s <? num_iterations s)%Z
                   then bind (emit (LogInfo (MsgMaxIterations
                                                (max_num_iterations s))))
                             (fun _ => ret (inr true))
                   else ret (inl l')))).
  intros l' stop. destruct stop; [apply preserves_ret |].
  apply (preserves_bind I); [apply preserves_get | intros s0].
  destruct (max_num_iterations s0 <? num_iterations s0)%Z;
    [| apply preserves_ret].
  apply (preserves_bind I);
    [apply (preserves_emit I allowed I_emit), allowed_limit | intros _].
  apply preserves_ret.
Qed.

Lemma preserves_train_loop (loader : list batch) (l : locals) :
  preserves I (for_loop train_step loader l).
Proof. apply (preserves_for_loop I). apply preserves_train_step. Qed.

Lemma preserves_train (loader : list batch) :
  (forall s, I s -> I (set_model_training true s)) ->
  preserves I (train loader).
Proof.
  intros Hmode. unfold train.
  apply (preserves_bind I); [intros s Hs; now apply Hmode | intros _].
  apply (preserves_bind I); [apply preserves_train_loop | intros r].
  destruct r; apply preserves_ret.
Qed.

End PreservesTrain.

(** Invariants that every write of [train] and [fit] respects. *)
Section Frames.
Context `{Collaborators}.
Variable I : trainer -> Prop.
Hypothesis I_world : forall w s, I s -> I (set_world w s).
Hypothesis I_trace : forall e s, I s -> I (set_trace (trace s ++ [e]) s).
Hypothesis I_mode : forall b s, I s -> I (set_model_training b s).
Hypothesis I_best : forall b s, I s -> I (set_best_val_accuracy b s).
Hypothesis I_reset : forall s, I s -> I (set_patience (max_patience s) s).
Hypothesis I_decrement :
  forall s, I s -> I (set_patience (patience s - 1) s).
Hypothesis I_decay :
  forall v s,
    I s -> I (set_param_group_lrs (map (fun _ => v) (param_group_lrs s)) s).

Lemma frame_validate (loader : list batch) : preserves I (validate loader).
Proof. apply (preserves_validate I (fun _ => true)); auto. Qed.

Lemma frame_validation (loader : list batch) :
  preserves I (validation loader).
Proof.
  apply (preserves_validation I (fun _ => true)); auto.
  exact frame_validate.
Qed.

Hypothesis I_iter :
  forall s, I s -> I (set_num_iterations (num_iterations s + 1) s).

Lemma frame_train (loader : list batch) : preserves I (train loader).
Proof.
  apply (preserves_train I (fun _ => true)); auto.
  exact frame_validation.
Qed.

Hypothesis I_epoch : forall s, I s -> I (set_num_epoch (num_epoch s + 1) s).

Lemma frame_fit : preserves I fit.
Proof.
  unfold fit. apply (preserves_bind I); [apply preserves_get | intros s0].
  apply (preserves_bind I); [| intros; apply preserves_ret].
  apply (preserves_for_loop I). intros x u. unfold fit_step.
  apply (preserves_bind I); [apply preserves_get | intros s1].
  apply (preserves_bind I); [apply frame_train | intros stop].
  destruct stop; [apply preserves_ret |].
  apply (preserves_bind I); [| intros; apply preserves_ret].
  intros s2 Hs2. now apply I_epoch.
Qed.

End Frames.

(** ** Validation runs in evaluation mode *)

Section EvaluationMode.
Context `{Collaborators}.

Lemma eval_calls_app (tr evs : list event) :
  eval_calls (tr ++ evs) = (eval_calls tr + eval_calls evs)%nat.
Proof. unfold eval_calls. now rewrite filter_app, length_app. Qed.

Lemma evaluating_world (k : nat) (w : world) (s : trainer) :
  evaluating k s -> evaluating k (set_world w s).
Proof. exact (fun Hs => Hs). Qed.

Lemma evaluating_emit (k : nat) (e : event) (s : trainer) :
  not_eval_call e = true -> evaluating k s ->
  evaluating k (set_trace (trace s ++ [e]) s).
Proof.
  unfold not_eval_call, evaluating. intros He [Hm Hk].
  split; [exact Hm |]. cbn [trace set_trace]. rewrite eval_calls_app.
  unfold eval_calls at 2. cbn [filter].
  destruct (is_forward_in false e); [discriminate |]. cbn [List.length].
  lia.
Qed.

(** A forward pass in evaluation mode is one more network call in that
    mode, whether the call returns or raises. *)
Lemma forward_pass_evaluating (input target target_ : tensor) (k : nat) :
  forall s, evaluating k s ->
            evaluating (S k) (snd (_forward_pass input target target_ s)).
Proof.
  intros s [Hm Hk].
  change (wp (_forward_pass input target target_)
            (fun _ s' => evaluating (S k) s') s).
  unfold _forward_pass. apply wp_bind_get. apply wp_bind_emit.
  rewrite Hm.
  assert (Hs1 : evaluating (S k)
                  (set_trace (trace s ++ [ModelForward false]) s)).
  { split; [exact Hm |]. cbn [trace set_trace]. rewrite eval_calls_app, Hk.
    unfold eval_calls. cbn. lia. }
  revert Hs1. generalize (set_trace (trace s ++ [ModelForward false]) s).
  intros s1 Hs1.
  apply (preserves_bind (evaluating (S k))); [| | exact Hs1].
  - apply preserves_call. apply evaluating_world.
  - intros [y up]. apply (preserves_bind (evaluating (S k))).
    + apply (preserves_aux_losses _ (evaluating_world (S k))).
    + intros loss. apply (preserves_bind (evaluating (S k)));
        [| intros; apply preserves_ret].
      apply preserves_call. apply evaluating_world.
Qed.

Lemma validate_step_evaluating (t : batch) (l : locals) (k : nat)
    (s : trainer) :
  evaluating k s ->
  wp (validate_step t l)
     (fun r s' =>
        match r with
        | Ok (inl _) => evaluating (S k) s'
        | Ok (inr _) => False
        | Raise _ => evaluating k s' \/ evaluating (S k) s'
        end) s.
Proof.
  intros Hs. unfold validate_step. cbv zeta.
  do 3 (apply (wp_bind_inv (evaluating k));
        [apply preserves_local | assumption | intros ? ? ? | auto]).
  apply wp_bind.
  match goal with
  | Hs' : evaluating k ?s0
    |- wp (_forward_pass ?i ?tg ?tg_) _ ?s0 =>
      pose proof (forward_pass_evaluating i tg tg_ k s0 Hs') as Hf
  end.
  unfold wp at 1.
  destruct (_forward_pass _ _ _ _) as [[[output loss] | e] s4];
    cbn [fst snd] in *; [| now right].
  apply (wp_bind_inv (evaluating (S k)));
    [apply preserves_call; apply evaluating_world | exact Hf | | auto].
  intros abi s5 Hs5. apply wp_ret. exact Hs5.
Qed.

Lemma validate_loop_evaluating (loader : list batch) :
  forall (l : locals) (k : nat) (s : trainer),
    evaluating k s ->
    wp (for_loop validate_step loader l)
       (fun r s' =>
          match r with
          | Ok _ => evaluating (k + List.length loader) s'
          | Raise _ =>
              exists j, (j <= List.length loader)%nat
                        /\ evaluating (k + j) s'
          end) s.
Proof.
  induction loader as [| t loader IH]; intros l k s Hs;
    cbn [for_loop List.length].
  - apply wp_ret. now rewrite Nat.add_0_r.
  - apply wp_bind. pose proof (validate_step_evaluating t l k s Hs) as Hstep.
    unfold wp in *.
    destruct (validate_step t l s) as [[[l' | []] | e] s1];
      cbn [fst snd] in *.
    + specialize (IH l' (S k) s1 Hstep).
      destruct (for_loop validate_step loader l' s1) as [[r | e] s2];
        cbn [fst snd] in *.
      * now rewrite Nat.add_succ_r.
      * destruct IH as (j & Hj & Hs2). exists (S j).
        split; [lia |]. now rewrite Nat.add_succ_r.
    + contradiction.
    + destruct Hstep as [Hs1 | Hs1].
      * exists 0%nat. split; [lia |]. now rewrite Nat.add_0_r.
      * exists 1%nat. split; [lia |]. now rewrite Nat.add_1_r.
Qed.

Lemma validate_body_evaluating (loader : list batch) (k : nat)
    (s : trainer) :
  evaluating k s ->
  wp (validate_body loader)
     (fun r s' =>
        match r with
        | Ok _ => evaluating (k + List.length loader) s'
        | Raise _ =>
            exists j, (j <= List.length loader)%nat /\ evaluating (k + j) s'
        end) s.
Proof.
  intros Hs. unfold validate_body. apply wp_bind.
  pose proof (validate_loop_evaluating loader
                (Locals None None None RunningAcc) k s Hs) as Hloop.
  unfold wp in Hloop. unfold wp at 1.
  destruct (for_loop validate_step loader _ s) as [[r | e] s1];
    cbn [fst snd] in *; [| exact Hloop].
  cbv zeta.
  apply (wp_bind_inv (evaluating (k + List.length loader)));
    [apply preserves_of_result | exact Hloop | | eauto].
  intros mean_dice s2 Hs2. apply wp_bind_emit. apply wp_bind_get.
  apply wp_bind_emit. apply wp_ret.
  apply evaluating_emit; [reflexivity |].
  apply evaluating_emit; [reflexivity | exact Hs2].
Qed.

(** C8: [validate] puts the network in evaluation mode before anything
    else but its first log line, runs the validation there, and puts it
    back in training mode on the way out, whether the validation returned
    the accuracy or raised.  Every network call it made ran in evaluation
    mode; when it returns it has called the network once per batch, and
    when it raises at most once per batch. *)
Theorem validate_restores_training_mode (loader : list batch) (s : trainer) :
  let entered :=
    set_model_training false
      (set_trace (trace s ++ [LogInfo (MsgValidating (num_epoch s))]) s) in
  model_training entered = false
  /\ validate loader s
     = (fst (validate_body loader entered),
        set_model_training true (snd (validate_body loader entered)))
  /\ model_training (snd (validate loader s)) = true
  /\ exists evs,
       trace (snd (validate loader s))
       = trace s ++ LogInfo (MsgValidating (num_epoch s)) :: evs
       /\ forallb (in_mode false) evs = true
       /\ match fst (validate loader s) with
          | Ok _ => eval_calls evs = List.length loader
          | Raise _ => (eval_calls evs <= List.length loader)%nat
          end.
Proof.
  cbv zeta.
  set (s0 := set_model_training false
               (set_trace (trace s ++ [LogInfo (MsgValidating (num_epoch s))])
                  s)).
  assert (Hv : validate loader s
               = (fst (validate_body loader s0),
                  set_model_training true (snd (validate_body loader s0)))).
  { unfold validate, bind, get, emit, modify, try_finally. cbn [fst snd].
    fold s0. now destruct (validate_body loader s0). }
  split; [reflexivity |]. split; [exact Hv |]. rewrite Hv. cbn [fst snd].
  split; [reflexivity |].
  destruct (steady_validate_body loader s0) as [_ (evs & Ht & Hevs)].
  assert (Hs0 : evaluating (eval_calls (trace s)) s0).
  { split; [reflexivity |]. unfold s0. cbn [trace set_trace
      set_model_training]. rewrite eval_calls_app. unfold eval_calls at 2.
    cbn. lia. }
  pose proof (validate_body_evaluating loader _ s0 Hs0) as Hcount.
  unfold wp in Hcount.
  exists evs. split.
  { cbn [trace set_model_training]. rewrite Ht. unfold s0.
    cbn [trace set_trace set_model_training]. now rewrite <- app_assoc. }
  split; [exact Hevs |].
  assert (Hsplit : eval_calls (trace (snd (validate_body loader s0)))
                   = (eval_calls (trace s) + eval_calls evs)%nat).
  { rewrite Ht, eval_calls_app. f_equal. unfold s0.
    cbn [trace set_trace set_model_training]. rewrite eval_calls_app.
    unfold eval_calls at 2. cbn. lia. }
  destruct (fst (validate_body loader s0)) as [v | e].
  - destruct Hcount as [_ Hk]. lia.
  - destruct Hcount as (j & Hj & _ & Hk). lia.
Qed.

End EvaluationMode.

Section TrainStep.
Context `{Collaborators}.
Local Open Scope Z_scope.

Lemma optimizer_steps_app (tr : list event) (e : event) :
  optimizer_steps (tr ++ [e])
  = optimizer_steps tr + if is_optimizer_step e then 1 else 0.
Proof.
  unfold optimizer_steps. rewrite filter_app, length_app. cbn [filter].
  destruct (is_optimizer_step e); cbn [List.length]; lia.
Qed.

Lemma counted_world n M k w s :
  counted n M k s -> counted n M k (set_world w s).
Proof. exact (fun H => H). Qed.

Lemma counted_emit n M k e s :
  no_step e = true -> counted n M k s ->
  counted n M k (set_trace (trace s ++ [e]) s).
Proof.
  unfold no_step, counted. intros He (Hn & HM & Hk). cbn [num_iterations
    max_num_iterations trace set_trace]. rewrite optimizer_steps_app.
  destruct (is_optimizer_step e); [discriminate |]. repeat split; lia.
Qed.

(** What one pass of the training loop does to the counters: a pass that
    ends normally has made one optimizer step and counted one iteration,
    and goes on to the next batch only below the iteration limit; a pass
    that raises has counted at most one iteration, and never more
    iterations than optimizer steps. *)
Lemma train_step_counts (t : batch) (l : locals) (s : trainer) (n M k : Z) :
  counted n M k s ->
  wp (train_step t l)
     (fun r s' =>
        match r with
        | Ok (inl _) => counted (n + 1) M (k + 1) s' /\ n + 1 <= M
        | Ok (inr b) => counted (n + 1) M (k + 1) s' /\ b = true
        | Raise _ =>
            counted n M k s' \/ counted n M (k + 1) s'
            \/ counted (n + 1) M (k + 1) s'
        end) s.
Proof.
  intros Hs. unfold train_step.
  pose proof (counted_world n M k) as Hw.
  pose proof (counted_emit n M k) as He.
  apply (wp_bind_inv (counted n M k)); auto using preserves_train_unpack.
  intros l1 s1 Hs1.
  do 3 (apply (wp_bind_inv (counted n M k));
        [apply preserves_local | assumption | intros ? ? ? | auto]).
  apply (wp_bind_inv (counted n M k)); auto.
  { now apply (preserves_forward_pass _ no_step). }
  intros [output loss] s5 Hs5.
  apply wp_bind_emit.
  apply (wp_bind_inv (counted n M k));
    [apply preserves_call; auto | now apply He | | auto].
  intros _ s6 Hs6. apply wp_bind_emit.
  apply (wp_bind_inv (counted n M k));
    [apply preserves_call; auto | now apply He | | auto].
  intros _ s7 Hs7. apply wp_bind_emit.
  assert (Hs8 : counted n M (k + 1)
                  (set_trace (trace s7 ++ [OptimizerStep]) s7)).
  { destruct Hs7 as (Hn & HM & Hk). unfold counted.
    cbn [num_iterations max_num_iterations trace set_trace].
    rewrite optimizer_steps_app. cbn. repeat split; lia. }
  apply (wp_bind_inv (counted n M (k + 1)));
    [apply preserves_call; apply counted_world | exact Hs8 | | auto].
  intros _ s9 Hs9. apply wp_bind_modify.
  assert (Hs10 : counted (n + 1) M (k + 1)
                   (set_num_iterations (num_iterations s9 + 1) s9)).
  { destruct Hs9 as (Hn & HM & Hk). unfold counted.
    cbn [num_iterations max_num_iterations trace set_num_iterations].
    repeat split; lia. }
  clear Hw He.
  pose proof (counted_world (n + 1) M (k + 1)) as Hw.
  pose proof (counted_emit (n + 1) M (k + 1)) as He.
  apply (wp_bind_inv (counted (n + 1) M (k + 1)));
    [apply preserves_call; auto | exact Hs10 | | auto].
  intros abi s11 Hs11. cbv zeta. apply wp_bind_get.
  apply (wp_bind_inv (counted (n + 1) M (k + 1)));
    [apply preserves_py_mod | assumption | | auto].
  intros r s12 Hs12.
  apply (wp_bind_inv (counted (n + 1) M (k + 1))); [| assumption | | auto].
  { destruct (r =? 0); [| apply preserves_ret].
    apply preserves_bind; [apply preserves_of_result | intros _].
    now apply (preserves_emit _ no_step). }
  intros _ s13 Hs13.
  apply (wp_bind_inv (counted (n + 1) M (k + 1)));
    [apply preserves_py_mod | assumption | | auto].
  intros r' s14 Hs14.
  apply (wp_bind_inv (counted (n + 1) M (k + 1))); [| assumption | | auto].
  { destruct (r' =? 0); [| apply preserves_ret].
    apply (preserves_validation _ no_step); auto.
    intros loader. apply (preserves_validate _ no_step); auto. }
  intros stop s15 Hs15. destruct stop.
  - apply wp_ret. auto.
  - apply wp_bind_get.
    destruct Hs15 as (Hn & HM & Hk). rewrite Hn, HM.
    destruct (Z.ltb_spec M (n + 1)).
    + apply wp_bind_emit. apply wp_ret. split; [| reflexivity].
      apply counted_emit; [reflexivity | now repeat split].
    + apply wp_ret. split; [now repeat split | assumption].
Qed.

End TrainStep.

Section TrainerFacts.
Context `{Collaborators}.
Local Open Scope Z_scope.

Lemma train_loop_counts (loader : list batch) :
  forall (l : locals) (s : trainer) (n M k : Z),
    counted n M k s ->
    wp (for_loop train_step loader l)
       (fun r s' =>
          max_num_iterations s' = M
          /\ n <= num_iterations s' <= n + Z.of_nat (List.length loader)
          /\ num_iterations s' <= Z.max n M + 1
          /\ match r with
             | Ok (inl _) =>
                 counted (n + Z.of_nat (List.length loader)) M
                   (k + Z.of_nat (List.length loader)) s'
                 /\ num_iterations s' <= Z.max n M
             | Ok (inr b) =>
                 b = true /\ n + 1 <= num_iterations s'
                 /\ optimizer_steps (trace s') - k = num_iterations s' - n
             | Raise _ =>
                 num_iterations s' - n <= optimizer_steps (trace s') - k
                 <= num_iterations s' - n + 1
             end) s.
Proof.
  induction loader as [| t loader IH]; intros l s n M k Hs.
  - cbn [for_loop List.length]. apply wp_ret.
    destruct Hs as (Hn & HM & Hk). unfold counted.
    repeat split; lia.
  - cbn [for_loop]. apply wp_bind.
    pose proof (train_step_counts t l s n M k Hs) as Hstep.
    unfold wp in *.
    destruct (train_step t l s) as [[[l' | b] | e] s1]; cbn [fst snd] in *.
    + destruct Hstep as [Hs1 Hle].
      specialize (IH l' s1 (n + 1) M (k + 1) Hs1).
      destruct (for_loop train_step loader l' s1) as [[[l2 | b] | e] s2];
        cbn [fst snd List.length] in *; unfold counted in *;
        repeat split; try lia; tauto.
    + destruct Hstep as [(Hn & HM & Hk) ->].
      cbn [List.length fst snd ret]. repeat split; lia.
    + unfold counted in Hstep. cbn [List.length fst snd].
      repeat split; lia.
Qed.

Lemma train_eq (loader : list batch) (s : trainer) :
  train loader s =
  match for_loop train_step loader (Locals None None None RunningAcc)
          (set_model_training true s) with
  | (Ok (inl _), s') => (Ok false, s')
  | (Ok (inr b), s') => (Ok b, s')
  | (Raise e, s') => (Raise e, s')
  end.
Proof.
  unfold train, bind, modify.
  destruct (for_loop train_step loader _ _) as [[[l' | b] | e] s'];
    reflexivity.
Qed.

(** [train] on its own, from the loop. *)
Lemma train_counts (loader : list batch) (s : trainer) :
  let n := num_iterations s in
  let M := max_num_iterations s in
  let k := optimizer_steps (trace s) in
  let s' := snd (train loader s) in
  max_num_iterations s' = M
  /\ n <= num_iterations s' <= n + Z.of_nat (List.length loader)
  /\ num_iterations s' <= Z.max n M + 1
  /\ match fst (train loader s) with
     | Ok false =>
         num_iterations s' = n + Z.of_nat (List.length loader)
         /\ optimizer_steps (trace s') = k + Z.of_nat (List.length loader)
         /\ num_iterations s' <= Z.max n M
     | Ok true =>
         n + 1 <= num_iterations s'
         /\ optimizer_steps (trace s') - k = num_iterations s' - n
     | Raise _ =>
         num_iterations s' - n <= optimizer_steps (trace s') - k
         <= num_iterations s' - n + 1
     end.
Proof.
  cbv zeta. rewrite train_eq.
  assert (Hs0 : counted (num_iterations s) (max_num_iterations s)
                  (optimizer_steps (trace s)) (set_model_training true s))
    by now repeat split.
  pose proof (train_loop_counts loader (Locals None None None RunningAcc)
                _ _ _ _ Hs0) as Hloop.
  unfold wp in Hloop.
  destruct (for_loop train_step loader _ _) as [[[l' | b] | e] s1];
    cbn [fst snd] in *; unfold counted in *.
  - repeat split; lia.
  - destruct Hloop as (? & ? & ? & -> & ? & ?). repeat split; lia.
  - repeat split; lia.
Qed.

(** X1: [validate] changes none of the trainer's schedule and
    configuration fields (patience, best accuracy, counters, learning
    rates, loaders) and makes no backward pass, optimizer call or
    checkpoint write, whether it returns or raises. *)
Theorem validate_updates_nothing (loader : list batch) (s : trainer) :
  schedule (snd (validate loader s)) = schedule s
  /\ filter is_update (trace (snd (validate loader s)))
     = filter is_update (trace s).
Proof.
  apply (preserves_validate
           (fun s' => schedule s' = schedule s
                      /\ filter is_update (trace s')
                         = filter is_update (trace s))
           (fun e => negb (is_update e))); auto.
  - intros e s' He [Hsch Htr]. split; [exact Hsch |].
    cbn [trace set_trace]. rewrite filter_app. cbn [filter].
    destruct (is_update e); [discriminate |]. now rewrite app_nil_r.
Qed.

(** X2: one call of [train] counts at most one iteration per batch, and
    exactly one per batch when it returns false; it returns true only
    after at least one iteration; and whenever it returns, the optimizer
    steps it made are as many as the iterations it counted (when it
    raises, at most one more). *)
Theorem train_counts_iterations (loader : list batch) (s : trainer) :
  let n := num_iterations s in
  let k := optimizer_steps (trace s) in
  let s' := snd (train loader s) in
  n <= num_iterations s' <= n + Z.of_nat (List.length loader)
  /\ match fst (train loader s) with
     | Ok false =>
         num_iterations s' = n + Z.of_nat (List.length loader)
         /\ optimizer_steps (trace s') = k + Z.of_nat (List.length loader)
     | Ok true =>
         n + 1 <= num_iterations s'
         /\ optimizer_steps (trace s') - k = num_iterations s' - n
     | Raise _ =>
         num_iterations s' - n <= optimizer_steps (trace s') - k
         <= num_iterations s' - n + 1
     end.
Proof.
  cbv zeta. pose proof (train_counts loader s) as Ht. cbv zeta in Ht.
  destruct (fst (train loader s)) as [[|] | e]; intuition lia.
Qed.

End TrainerFacts.

Section FitFacts.
Context `{Collaborators}.
Local Open Scope Z_scope.

Lemma validate_ends_training (loader : list batch) (s : trainer) :
  model_training (snd (validate loader s)) = true.
Proof.
  unfold validate, bind, get, emit, modify, try_finally. cbn [fst snd].
  destruct (validate_body loader _) as [r s1]. reflexivity.
Qed.

Lemma train_ends_training (loader : list batch) (s : trainer) :
  model_training (snd (train loader s)) = true.
Proof.
  rewrite train_eq.
  assert (Hloop : preserves (fun s' => model_training s' = true)
                    (for_loop train_step loader
                       (Locals None None None RunningAcc))).
  { apply preserves_train_loop with (allowed := fun _ => true); auto.
    intros l. apply preserves_validation with (allowed := fun _ => true);
      auto.
    intros l' s' _. apply validate_ends_training. }
  specialize (Hloop (set_model_training true s) eq_refl).
  destruct (for_loop train_step loader _ _) as [[[l' | b] | e] s'];
    exact Hloop.
Qed.

(** [train] leaves the epoch counter and its limit alone. *)
Lemma train_keeps_epochs (loader : list batch) (s : trainer) :
  num_epoch (snd (train loader s)) = num_epoch s
  /\ max_num_epochs (snd (train loader s)) = max_num_epochs s.
Proof.
  apply (frame_train
           (fun s' => num_epoch s' = num_epoch s
                      /\ max_num_epochs s' = max_num_epochs s)); auto.
Qed.

Lemma fit_step_spec (x : Z) (u : unit) (s : trainer) :
  let n := num_iterations s in
  let M := max_num_iterations s in
  wp (fit_step x u)
     (fun r s' =>
        max_num_epochs s' = max_num_epochs s
        /\ max_num_iterations s' = M
        /\ model_training s' = true
        /\ n <= num_iterations s' <= Z.max n M + 1
        /\ match r with
           | Ok (inl _) =>
               num_epoch s' = num_epoch s + 1
               /\ num_iterations s' <= Z.max n M
           | _ => num_epoch s' = num_epoch s
           end) s.
Proof.
  cbv zeta. unfold fit_step. apply wp_bind_get. apply wp_bind.
  pose proof (train_counts (train_loader s) s) as Hc. cbv zeta in Hc.
  pose proof (train_keeps_epochs (train_loader s) s) as He.
  pose proof (train_ends_training (train_loader s) s) as Hm.
  unfold wp.
  destruct (train (train_loader s) s) as [[[|] | e] s1];
    cbn [fst snd ret bind modify num_epoch max_num_epochs
         max_num_iterations model_training num_iterations set_num_epoch]
      in *;
    repeat split; try tauto; lia.
Qed.

Lemma fit_loop_spec (xs : list Z) :
  forall (s : trainer),
    let n := num_iterations s in
    let M := max_num_iterations s in
    wp (for_loop fit_step xs tt)
       (fun r s' =>
          max_num_epochs s' = max_num_epochs s
          /\ max_num_iterations s' = M
          /\ n <= num_iterations s' <= Z.max n M + 1
          /\ num_epoch s <= num_epoch s'
             <= num_epoch s + Z.of_nat (List.length xs)
          /\ match xs with
             | [] => r = Ok (inl tt) /\ s' = s
             | _ :: _ => model_training s' = true
             end) s.
Proof.
  induction xs as [| x xs IH]; intros s; cbv zeta.
  - cbn [for_loop List.length]. apply wp_ret. repeat split; lia.
  - cbn [for_loop]. apply wp_bind.
    pose proof (fit_step_spec x tt s) as Hstep. cbv zeta in Hstep.
    unfold wp in *.
    destruct (fit_step x tt s) as [[[[] | []] | e] s1]; cbn [fst snd] in *.
    + specialize (IH s1). cbv zeta in IH.
      destruct Hstep as (HE & HM & Hmode & Hn & Hep & Hn').
      destruct (for_loop fit_step xs tt s1) as [r2 s2]; cbn [fst snd] in *.
      destruct IH as (HE2 & HM2 & Hn2 & Hep2 & Hlast).
      rewrite HM in *. cbn [List.length].
      repeat split; try lia.
      destruct xs; [destruct Hlast as [_ ->]; exact Hmode | exact Hlast].
    + cbn [ret fst snd List.length]. repeat split; try tauto; lia.
    + cbn [List.length]. repeat split; try tauto; lia.
Qed.

Lemma fit_eq (s : trainer) :
  fit s = bind (for_loop fit_step (fit_epochs s) tt) (fun _ => ret tt) s.
Proof. reflexivity. Qed.

Lemma length_py_range (a b : Z) :
  a + Z.of_nat (List.length (py_range a b)) = Z.max a b.
Proof. unfold py_range. rewrite length_map, length_seq. lia. Qed.

(** X3: the iteration limit holds with an overshoot of at most one: after
    [train], and after the whole of [fit], [num_iterations] is at most one
    more than the larger of its starting value and [max_num_iterations];
    and when [train] returns false, it is at most that larger value. *)
Theorem iterations_stay_within_limit (loader : list batch) (s : trainer) :
  let n := num_iterations s in
  let M := max_num_iterations s in
  num_iterations (snd (train loader s)) <= Z.max n M + 1
  /\ match fst (train loader s) with
     | Ok false => num_iterations (snd (train loader s)) <= Z.max n M
     | _ => True
     end
  /\ max_num_iterations (snd (train loader s)) = M
  /\ num_iterations (snd (fit s)) <= Z.max n M + 1
  /\ max_num_iterations (snd (fit s)) = M.
Proof.
  cbv zeta. pose proof (train_counts loader s) as Ht. cbv zeta in Ht.
  pose proof (fit_loop_spec (fit_epochs s) s) as Hf. cbv zeta in Hf.
  rewrite fit_eq. unfold wp, bind in *.
  destruct (for_loop fit_step (fit_epochs s) tt s) as [[u | e] s1];
    cbn [fst snd ret] in *;
    destruct (fst (train loader s)) as [[|] | e']; repeat split; lia.
Qed.

(** X4: [train] leaves the network in training mode however it ends, also
    when a validation inside it raised; so does [fit] whenever it has an
    epoch to run, and with no epoch to run [fit] does nothing at all. *)
Theorem training_mode_after_train (loader : list batch) (s : trainer) :
  model_training (snd (train loader s)) = true
  /\ match fit_epochs s with
     | [] => fit s = (Ok tt, s)
     | _ :: _ => model_training (snd (fit s)) = true
     end.
Proof.
  split; [apply train_ends_training |].
  pose proof (fit_loop_spec (fit_epochs s) s) as Hf. cbv zeta in Hf.
  rewrite fit_eq. unfold wp, bind in *.
  destruct (for_loop fit_step (fit_epochs s) tt s) as [[u | e] s1];
    cbn [fst snd ret] in *; destruct (fit_epochs s).
  - destruct Hf as (_ & _ & _ & _ & _ & ->). reflexivity.
  - tauto.
  - destruct Hf as (_ & _ & _ & _ & Hr & _). discriminate.
  - tauto.
Qed.

(** X5: [fit] never moves [num_epoch] backwards nor past
    [max_num_epochs]: afterwards it lies between its starting value and
    the larger of that value and [max_num_epochs], and [max_num_epochs]
    itself is unchanged. *)
Theorem fit_epochs_stay_within_limit (s : trainer) :
  num_epoch s <= num_epoch (snd (fit s))
  <= Z.max (num_epoch s) (max_num_epochs s)
  /\ max_num_epochs (snd (fit s)) = max_num_epochs s.
Proof.
  pose proof (fit_loop_spec (fit_epochs s) s) as Hf. cbv zeta in Hf.
  pose proof (length_py_range (num_epoch s) (max_num_epochs s)) as Hlen.
  fold (fit_epochs s) in Hlen.
  rewrite fit_eq. unfold wp, bind in *.
  destruct (for_loop fit_step (fit_epochs s) tt s) as [[u | e] s1];
    cbn [fst snd ret] in *; repeat split; lia.
Qed.

End FitFacts.

Section StepFacts.
Context `{Collaborators}.
Local Open Scope Z_scope.

Lemma train_step_zero_interval (t : batch) (l : locals) (s : trainer) :
  log_after_iters s = 0 \/ validate_after_iters s = 0 ->
  wp (train_step t l) (fun r _ => exists e, r = Raise e) s.
Proof.
  intros Hzero. unfold train_step.
  set (I := same_intervals s).
  assert (Hw : forall w s', I s' -> I (set_world w s'))
    by (intros w s' Hs'; exact Hs').
  assert (He : forall e s', (fun _ : event => true) e = true -> I s' ->
                 I (set_trace (trace s' ++ [e]) s'))
    by (intros e s' _ Hs'; exact Hs').
  assert (Hs : I s) by (split; reflexivity).
  assert (Hr : forall e (s' : trainer), I s' ->
                 exists e', @Raise (locals + bool) e = Raise e') by eauto.
  apply (wp_bind_inv I); auto using preserves_train_unpack.
  intros l1 s1 Hs1.
  do 3 (apply (wp_bind_inv I);
        [apply preserves_local | assumption | intros ? ? ? | auto]).
  apply (wp_bind_inv I); auto.
  { now apply (preserves_forward_pass _ (fun _ => true)). }
  intros [output loss] s5 Hs5.
  apply (wp_bind_inv I);
    [now apply (preserves_emit _ (fun _ => true)) | assumption | | auto].
  intros _ s6 Hs6.
  apply (wp_bind_inv I); [now apply preserves_call | assumption | | auto].
  intros _ s7 Hs7.
  apply (wp_bind_inv I);
    [now apply (preserves_emit _ (fun _ => true)) | assumption | | auto].
  intros _ s8 Hs8.
  apply (wp_bind_inv I); [now apply preserves_call | assumption | | auto].
  intros _ s9 Hs9.
  apply (wp_bind_inv I);
    [now apply (preserves_emit _ (fun _ => true)) | assumption | | auto].
  intros _ s10 Hs10.
  apply (wp_bind_inv I); [now apply preserves_call | assumption | | auto].
  intros _ s11 Hs11. apply wp_bind_modify.
  apply (wp_bind_inv I); [now apply preserves_call | exact Hs11 | | auto].
  intros abi s12 Hs12. cbv zeta. apply wp_bind_get.
  destruct Hs12 as [Hlog Hval].
  cbn [log_after_iters validate_after_iters set_num_iterations] in Hlog, Hval.
  unfold py_mod at 1.
  destruct (Z.eqb_spec (log_after_iters s12) 0) as [Hl0 | Hl0].
  { unfold wp, bind, raise. cbn [fst snd]. eauto. }
  apply (wp_bind_inv (fun s' => True)); [easy | exact Logic.I | | eauto].
  intros r s13 _.
  apply (wp_bind_inv (fun s' => True)); [easy | exact Logic.I | | eauto].
  intros _ s14 _.
  assert (Hv0 : validate_after_iters s12 = 0) by lia.
  unfold py_mod. rewrite Hv0. cbn [Z.eqb].
  unfold wp, bind, raise. cbn [fst snd]. eauto.
Qed.

(** X6: with [log_after_iters = 0] or [validate_after_iters = 0] no pass
    of the training loop completes: [train] on a loader that yields a
    batch raises (at the latest with the division by zero in the
    interval test, after the first optimizer step). *)
Theorem train_needs_positive_intervals (loader : list batch) (s : trainer) :
  log_after_iters s = 0 \/ validate_after_iters s = 0 ->
  loader <> [] ->
  exists e, fst (train loader s) = Raise e.
Proof.
  intros Hzero Hne. destruct loader as [| t rest]; [congruence |].
  rewrite train_eq. cbn [for_loop].
  pose proof (train_step_zero_interval t (Locals None None None RunningAcc)
                (set_model_training true s) Hzero) as Hstep.
  unfold wp in Hstep. unfold bind.
  destruct (train_step t _ _) as [[r | e] s1]; cbn [fst] in *.
  - destruct Hstep as [e He]. discriminate.
  - eauto.
Qed.

End StepFacts.

Lemma train_needs_positive_intervals_witness :
  exists e,
    fst (@train toy [[[1 # 2]; [1]; [1]]]%Q
           (@UNet3DTrainer toy (true, 0%nat) [1%float] ([], []) 200 100000
              3 3 100 0 neg_infinity 0 0 []))
    = Raise e.
Proof.
  apply (@train_needs_positive_intervals toy);
    [left; reflexivity | discriminate].
Defined.

Section BatchShapes.
Context `{Collaborators}.

(** X7: the names [input], [target] and [target_] of the two loops keep
    the values of the previous pass.  In [train] a 2-tuple whose pass finds
    [target_] bound runs as the 3-tuple with that [target_], and a batch
    of a length other than 2, 3 and 6 runs as the previous batch again;
    in [validate] the fourth element of a 4-tuple plays no role, and a
    2-tuple runs with the previous [target_]. *)
Theorem batch_names_carry_over (t : batch) (l : locals)
    (i tg tg_ : tensor) :
  l_input l = Some i -> l_target l = Some tg -> l_target_ l = Some tg_ ->
  (forall a b, train_step [a; b] l = train_step [a; b; tg_] l)
  /\ (List.length t <> 2%nat -> List.length t <> 3%nat ->
      List.length t <> 6%nat ->
      train_step t l = train_step [i; tg; tg_] l)
  /\ (forall a b c name,
        validate_step [a; b; c; name] l = validate_step [a; b; c] l)
  /\ (forall a b, validate_step [a; b] l = validate_step [a; b; tg_] l).
Proof.
  intros Hi Ht Ht_. destruct l as [li lt lt_ la]. cbn in Hi, Ht, Ht_.
  subst li lt lt_.
  split; [reflexivity |].
  split; [| split; reflexivity].
  intros H2 H3 H6.
  destruct t as [| a [| b [| c [| d [| e [| f [| g t]]]]]]];
    cbn [List.length] in *; try congruence; reflexivity.
Qed.

End BatchShapes.

Lemma batch_names_carry_over_witness :
  let l := @Locals toy (Some [1]%Q) (Some [2]%Q) (Some [3]%Q) [] in
  @train_step toy [[5]; [6]]%Q l = @train_step toy [[5]; [6]; [3]]%Q l
  /\ @train_step toy [[7]]%Q l = @train_step toy [[1]; [2]; [3]]%Q l.
Proof.
  intros l.
  destruct (@batch_names_carry_over toy [[7]]%Q l [1]%Q [2]%Q [3]%Q
              eq_refl eq_refl eq_refl) as (H2 & Hother & _).
  split; [apply H2 |].
  apply Hother; cbn; lia.
Defined.

Section NotANumber.
Context `{Collaborators}.

Lemma nan_spec (v : float) : is_nan v = true -> Prim2SF v = S754_nan.
Proof.
  unfold is_nan. rewrite eqb_spec. unfold SFeqb.
  destruct (Prim2SF v) as [sg | sg | | sg m e]; try reflexivity;
    destruct sg; cbn; try discriminate;
    rewrite Z.compare_refl, Pos.compare_cont_refl; discriminate.
Qed.

Lemma nan_ltb (v x : float) :
  is_nan v = true -> (v <? x)%float = false /\ (x <? v)%float = false.
Proof.
  intros Hv. apply nan_spec in Hv. rewrite !ltb_spec. unfold SFltb.
  rewrite Hv. split; [reflexivity |].
  destruct (Prim2SF x) as [sg | sg | | sg m e]; try destruct sg; reflexivity.
Qed.

(** X8: a validation accuracy that is not a number erases the best
    accuracy: [_is_best_val_accuracy] stores it without reporting a new
    best, and then stores the next accuracy, whatever it is, again without
    reporting a new best and without the log line. *)
Theorem nan_accuracy_erases_best (v w : float) (s : trainer) :
  is_nan v = true ->
  let r1 := _is_best_val_accuracy v s in
  let r2 := _is_best_val_accuracy w (snd r1) in
  fst r1 = Ok false /\ best_val_accuracy (snd r1) = v
  /\ fst r2 = Ok false /\ best_val_accuracy (snd r2) = w
  /\ trace (snd r2) = trace s.
Proof.
  intros Hv. cbv zeta.
  destruct (nan_ltb v (best_val_accuracy s) Hv) as [Hvb Hbv].
  destruct (nan_ltb v w Hv) as [Hvw Hwv].
  rewrite !(is_best_val_accuracy_eq s v), Hbv. cbn [fst snd].
  unfold py_max. rewrite Hvb.
  rewrite !is_best_val_accuracy_eq.
  cbn [best_val_accuracy set_best_val_accuracy fst snd].
  unfold py_max. rewrite Hvw, Hwv. repeat split; reflexivity.
Qed.

End NotANumber.

Lemma nan_accuracy_erases_best_witness :
  let s := toy_trainer 3 3 [1%float] [] [] in
  let r1 := _is_best_val_accuracy nan (set_best_val_accuracy f0_7 s) in
  let r2 := _is_best_val_accuracy f0_6 (snd r1) in
  fst r2 = Ok false /\ best_val_accuracy (snd r2) = f0_6.
Proof.
  intros s r1 r2.
  destruct (@nan_accuracy_erases_best toy nan f0_6
              (set_best_val_accuracy f0_7 s) eq_refl)
    as (_ & _ & H3 & H4 & _).
  split; [exact H3 | exact H4].
Defined.

Section FailedDecay.
Context `{Collaborators}.
Local Open Scope Z_scope.

(** X9: when the decay is due (the decremented patience is positive and
    equals [max_patience // 2]) and the first parameter group's rate is not
    positive, [_check_early_stopping] raises the assertion of
    [_adjust_learning_rate], and with no parameter group at all the
    [TypeError] of comparing [None] with 0; the decrement of [patience]
    stays, and neither the rates nor the trace change. *)
Theorem decay_needs_positive_rate (s : trainer) :
  let p := patience s - 1 in
  0 < p -> p = max_patience s / 2 ->
  match param_group_lrs s with
  | [] => True
  | lr :: _ => (0 <? lr)%float = false
  end ->
  _check_early_stopping false s
  = (Raise match param_group_lrs s with
           | [] => TypeError
               "'>' not supported between instances of 'NoneType' and 'int'"
           | _ :: _ => AssertionError ""
           end,
     set_patience p s).
Proof.
  cbv zeta. intros Hp Hhalf Hlr.
  unfold _check_early_stopping, bind, modify, get. cbn [fst snd patience
    set_patience max_patience].
  destruct (Z.leb_spec (patience s - 1) 0); [lia |].
  rewrite <- Hhalf, Z.eqb_refl.
  unfold _adjust_learning_rate, bind, get. cbn [param_group_lrs set_patience].
  destruct (param_group_lrs s) as [| lr rest]; [reflexivity |].
  rewrite Hlr. reflexivity.
Qed.

End FailedDecay.

Lemma decay_needs_positive_rate_witness :
  _check_early_stopping false (toy_trainer 4 3 [0%float] [] [])
  = (Raise (AssertionError ""),
     set_patience 2 (toy_trainer 4 3 [0%float] [] [])).
Proof.
  apply (@decay_needs_positive_rate toy (toy_trainer 4 3 [0%float] [] []));
    reflexivity.
Defined.

Section ForwardPass.
Context `{Collaborators}.
Variable crit : tensor -> tensor -> Q.
Hypothesis criterion_pure :
  forall o t w, loss_criterion_1 o t w = (Ok (crit o t), w).

Lemma set_world_same (s : trainer) : set_world (the_world s) s = s.
Proof. destruct s; reflexivity. Qed.

Lemma call_criterion (o t : tensor) (s : trainer) :
  call (loss_criterion_1 o t) s = (Ok (crit o t), s).
Proof.
  unfold call. rewrite criterion_pure. now rewrite set_world_same.
Qed.

Lemma aux_losses_sum (up : list tensor) (target_ : tensor) :
  forall (loss : Q) (s : trainer),
  exists q,
    aux_losses up target_ loss s = (Ok q, s)
    /\ q == loss + (4 # 10) * Qsum (map (fun u => crit u target_) up).
Proof.
  induction up as [| u up IH]; intros loss s.
  - exists loss. split; [reflexivity |]. cbn [map]. unfold Qsum.
    cbn [fold_right]. ring.
  - cbn [aux_losses]. unfold bind. rewrite call_criterion.
    destruct (IH (loss + crit u target_ * (4 # 10)) s) as (q & Hq & Heq).
    exists q. split; [exact Hq |]. rewrite Heq. cbn [map]. rewrite Qsum_cons.
    ring.
Qed.

(** X10: with a loss criterion that is a function of its two arguments,
    and a network call that returns the main output [y] and the auxiliary
    outputs [up], [_forward_pass] returns [y] and the loss
    [criterion(y, target) + 0.4 * sum_i criterion(up_i, target_)]: the
    auxiliary outputs are scored against [target_] and the main output
    against [target].  It calls the network once, in the current mode. *)
Theorem forward_pass_loss (input target target_ y : tensor)
    (up : list tensor) (w' : world) (s : trainer) :
  model_call (model_training s) input (the_world s) = (Ok (y, up), w') ->
  exists q,
    _forward_pass input target target_ s
    = (Ok (y, q),
       set_world w'
         (set_trace (trace s ++ [ModelForward (model_training s)]) s))
    /\ q == crit y target
            + (4 # 10) * Qsum (map (fun u => crit u target_) up).
Proof.
  intros Hmodel. unfold _forward_pass, bind, get, emit, modify.
  cbn [fst snd]. unfold call at 1. cbn [the_world set_trace]. rewrite Hmodel.
  destruct (aux_losses_sum up target_ 0
              (set_world w'
                 (set_trace (trace s ++ [ModelForward (model_training s)]) s)))
    as (q & Hq & Heq).
  rewrite Hq, call_criterion. unfold ret.
  exists (q + crit y target). split; [reflexivity |]. rewrite Heq. ring.
Qed.

End ForwardPass.

Lemma forward_pass_loss_witness :
  exists q,
    fst (@_forward_pass toy [1 # 2] [1] [2] (toy_trainer 3 3 [1%float] [] []))
    = Ok ([1 # 2], q)
    /\ q == 9 # 10.
Proof.
  destruct (@forward_pass_loss toy (fun o t => Qsum (zipWith Qmult o t))
              (fun o t w => eq_refl) [1 # 2] [1] [2] [1 # 2] [[1 # 2]] 0%nat
              (toy_trainer 3 3 [1%float] [] []) eq_refl) as (q & Hq & Heq).
  exists q. split; [now rewrite Hq |]. rewrite Heq. reflexivity.
Defined.

Section Checkpointing.
Context `{Collaborators}.
Local Open Scope Z_scope.

Lemma count_app (p : event -> bool) (tr : list event) (e : event) :
  count p (tr ++ [e]) = count p tr + if p e then 1 else 0.
Proof.
  unfold count. rewrite filter_app, length_app. cbn [filter].
  destruct (p e); cbn [List.length]; lia.
Qed.

Lemma tally_emit (k c : Z) (e : event) (s : trainer) :
  neither e = true -> tally k c s ->
  tally k c (set_trace (trace s ++ [e]) s).
Proof.
  unfold neither, tally. intros He [Hk Hc]. cbn [trace set_trace].
  rewrite !count_app. apply andb_prop in He. destruct He as [He1 He2].
  destruct (is_checkpoint e), (is_validated e); try discriminate. lia.
Qed.

Lemma balanced_emit (d : Z) (e : event) (s : trainer) :
  neither e = true -> balanced d s ->
  balanced d (set_trace (trace s ++ [e]) s).
Proof.
  unfold neither, balanced. intros He Hd. cbn [trace set_trace].
  rewrite !count_app. apply andb_prop in He. destruct He as [He1 He2].
  destruct (is_checkpoint e), (is_validated e); try discriminate. lia.
Qed.

(** [validate] writes no checkpoint, and logs its last line exactly when
    it returns. *)
Lemma validate_tally (loader : list batch) (k c : Z) (s : trainer) :
  tally k c s ->
  wp (validate loader)
     (fun r s' =>
        match r with
        | Ok _ => tally k (c + 1) s'
        | Raise _ => tally k c s'
        end) s.
Proof.
  intros Hs.
  pose proof (tally_emit k c) as He.
  assert (Hw : forall w s', tally k c s' -> tally k c (set_world w s'))
    by (intros w s' Hs'; exact Hs').
  unfold wp, validate, bind, get, emit, modify, try_finally. cbn [fst snd].
  set (s0 := set_model_training false _).
  assert (H0 : tally k c s0) by (apply (He _ s); [reflexivity | exact Hs]).
  clearbody s0. unfold validate_body.
  assert (Hloop : preserves (tally k c)
            (for_loop validate_step loader (Locals None None None RunningAcc))).
  { apply (preserves_for_loop (tally k c)). intros t l.
    now apply (preserves_validate_step (tally k c) neither). }
  specialize (Hloop s0 H0). unfold bind.
  destruct (for_loop validate_step loader _ s0) as [[r | e] s1];
    cbn [fst snd] in *; [| exact Hloop].
  unfold of_result.
  destruct (mean_dice_over_count _) as [md | e]; [| exact Hloop].
  unfold emit, modify, get, ret. cbn [fst snd].
  destruct Hloop as [Hk Hc]. unfold tally.
  cbn [trace set_trace set_model_training]. rewrite !count_app.
  cbn [is_checkpoint is_validated]. lia.
Qed.

Lemma validation_balanced (d : Z) (loader : list batch) :
  preserves (balanced d) (validation loader).
Proof.
  intros s Hs. change (wp (validation loader) (fun _ s' => balanced d s') s).
  unfold validation. apply wp_bind.
  pose proof (validate_tally loader _ _ s (conj eq_refl eq_refl)) as Hv.
  unfold wp in Hv. unfold wp at 1.
  destruct (validate loader s) as [[v | e] s1]; cbn [fst snd] in *;
    [| unfold balanced in *; destruct Hv as [-> ->]; exact Hs].
  set (k := count is_checkpoint (trace s)) in *.
  set (c := count is_validated (trace s)) in *.
  apply wp_bind. unfold wp at 1. rewrite is_best_val_accuracy_eq.
  cbn [fst snd].
  assert (Hs2 : tally k (c + 1)
            (set_best_val_accuracy (py_max v (best_val_accuracy s1))
               (if (best_val_accuracy s1 <? v)%float
                then set_trace (trace s1 ++ [LogInfo (MsgNewBest v)]) s1
                else s1))).
  { destruct (best_val_accuracy s1 <? v)%float; [| exact Hv].
    apply (tally_emit k (c + 1) _ s1); [reflexivity | exact Hv]. }
  revert Hs2.
  generalize (set_best_val_accuracy (py_max v (best_val_accuracy s1))
               (if (best_val_accuracy s1 <? v)%float
                then set_trace (trace s1 ++ [LogInfo (MsgNewBest v)]) s1
                else s1)).
  generalize (best_val_accuracy s1 <? v)%float.
  intros is_best s2 Hs2. unfold _save_checkpoint.
  apply wp_bind. apply wp_bind_get. unfold wp, emit, modify. cbn [fst snd].
  assert (Hs3 : balanced d
            (set_trace
               (trace s2 ++
                [SaveCheckpoint
                   (Checkpoint (num_epoch s2 + 1) (num_iterations s2)
                      (the_world s2) (best_val_accuracy s2)
                      (param_group_lrs s2) (max_num_epochs s2)
                      (max_num_iterations s2) (validate_after_iters s2)
                      (log_after_iters s2) (max_patience s2) (patience s2))
                   is_best]) s2)).
  { destruct Hs2 as [Hk Hc]. unfold balanced in *. cbn [trace set_trace].
    rewrite !count_app. cbn [is_checkpoint is_validated]. lia. }
  revert Hs3. generalize (set_trace
               (trace s2 ++
                [SaveCheckpoint
                   (Checkpoint (num_epoch s2 + 1) (num_iterations s2)
                      (the_world s2) (best_val_accuracy s2)
                      (param_group_lrs s2) (max_num_epochs s2)
                      (max_num_iterations s2) (validate_after_iters s2)
                      (log_after_iters s2) (max_patience s2) (patience s2))
                   is_best]) s2).
  intros s3 Hs3.
  change (wp (bind (_check_early_stopping is_best)
                (fun stop : bool =>
                   if stop
                   then bind get (fun s4 =>
                        bind (emit (LogInfo
                                      (MsgEarlyStopping (max_patience s4))))
                             (fun _ => ret true))
                   else ret false))
            (fun _ s' => balanced d s') s3).
  apply (wp_bind_inv (balanced d)); [| exact Hs3 | | auto].
  { apply (preserves_check_early_stopping (balanced d) neither);
      try reflexivity; try (intros ? s' Hs'; exact Hs');
      try (intros s' Hs'; exact Hs').
    apply balanced_emit. }
  intros stop s4 Hs4. destruct stop; [| exact Hs4].
  apply wp_bind_get. apply wp_bind_emit. apply wp_ret.
  now apply balanced_emit.
Qed.

Lemma train_balanced (d : Z) (loader : list batch) :
  preserves (balanced d) (train loader).
Proof.
  apply (preserves_train (balanced d) neither);
    try reflexivity; try (intros ? s Hs; exact Hs);
    try (intros s Hs; exact Hs);
    [apply balanced_emit | apply validation_balanced].
Qed.

Lemma fit_balanced (d : Z) : preserves (balanced d) fit.
Proof.
  intros s Hs. rewrite fit_eq.
  apply (preserves_bind (balanced d));
    [| intros; apply preserves_ret | exact Hs].
  apply (preserves_for_loop (balanced d)). intros x u. unfold fit_step.
  apply (preserves_bind (balanced d)); [apply preserves_get | intros s0].
  apply (preserves_bind (balanced d)); [apply train_balanced | intros stop].
  destruct stop; [apply preserves_ret |].
  apply (preserves_bind (balanced d)); [| intros; apply preserves_ret].
  intros s1 Hs1. exact Hs1.
Qed.

(** X11: [train], and so [fit], writes one checkpoint for every
    validation that returns and none otherwise: however the call ends, it
    has added as many checkpoint writes to the trace as last lines of a
    validation. *)
Theorem checkpoint_after_each_validation (loader : list batch)
    (s : trainer) :
  let saved s' := count is_checkpoint (trace s') in
  let validated s' := count is_validated (trace s') in
  saved (snd (train loader s)) - saved s
  = validated (snd (train loader s)) - validated s
  /\ saved (snd (fit s)) - saved s = validated (snd (fit s)) - validated s.
Proof.
  cbv zeta.
  pose proof (train_balanced _ loader s eq_refl) as Ht.
  pose proof (fit_balanced _ s eq_refl) as Hf.
  unfold balanced in *. lia.
Qed.

End Checkpointing.

(** ** Further properties of the Dice score *)

Lemma Qmult_sym (a b : Q) : (a * b = b * a)%Q.
Proof. unfold Qmult. f_equal; [apply Z.mul_comm | apply Pos.mul_comm]. Qed.

Lemma Qplus_sym (a b : Q) : (a + b = b + a)%Q.
Proof.
  unfold Qplus. f_equal; [apply Z.add_comm | apply Pos.mul_comm].
Qed.

Lemma zipWith_sym {A B} (f : A -> A -> B) (l1 l2 : list A) :
  (forall x y, f x y = f y x) -> zipWith f l1 l2 = zipWith f l2 l1.
Proof.
  intros Hf. revert l2.
  induction l1 as [| a l1 IH]; intros [| b l2]; cbn; try reflexivity.
  now rewrite Hf, IH.
Qed.

(** X12: the Dice score does not tell prediction from target: without an
    ignore index, [compute_per_channel_dice] returns, or raises, the same
    for [(input, target)] and for [(target, input)]. *)
Theorem dice_symmetric (input target : tensor5 Q) (epsilon : Q)
    (weight : option (list Q)) :
  compute_per_channel_dice input target epsilon None weight
  = compute_per_channel_dice target input epsilon None weight.
Proof.
  unfold compute_per_channel_dice.
  assert (Hsz : size_eqb5 (size5 input) (size5 target)
                = size_eqb5 (size5 target) (size5 input)).
  { destruct (size5 input) as [[[[N1 C1] D1] H1] W1].
    destruct (size5 target) as [[[[N2 C2] D2] H2] W2]. cbn.
    now rewrite (Nat.eqb_sym N1), (Nat.eqb_sym C1), (Nat.eqb_sym D1),
      (Nat.eqb_sym H1), (Nat.eqb_sym W1). }
  rewrite <- Hsz.
  destruct (size_eqb5 (size5 input) (size5 target)) eqn:Heq;
    [| reflexivity]. cbn [negb].
  assert (Hv : view_compatible (size5 input)
               = view_compatible (size5 target)).
  { destruct (size5 input) as [[[[N1 C1] D1] H1] W1].
    destruct (size5 target) as [[[[N2 C2] D2] H2] W2]. cbn in Heq.
    repeat (apply andb_prop in Heq; destruct Heq as [Heq ?]).
    repeat match goal with
           | E : (_ =? _)%nat = true |- _ => apply Nat.eqb_eq in E
           end.
    now subst. }
  unfold flatten. rewrite <- Hv.
  destruct (view_compatible (size5 input)); [| reflexivity]. cbn [rbind].
  set (a := map (fun tc => concat (map (@flat3 Q) tc))
              (data5 (permute10 input))).
  set (b := map (fun tc => concat (map (@flat3 Q) tc))
              (data5 (permute10 target))).
  rewrite (zipWith_sym (zipWith Qmult) a b)
    by (intros x y; apply zipWith_sym, Qmult_sym).
  rewrite (zipWith_sym (zipWith Qplus) a b)
    by (intros x y; apply zipWith_sym, Qplus_sym).
  reflexivity.
Qed.










(** ** Shapes *)

(** X15: on a well-formed [(N, C, D, H, W)] tensor [flatten] either
    returns [C] rows of [N * D * H * W] entries each, or raises because
    [view] rejects the shape. *)
Theorem flatten_shape {A} (t : tensor5 A) (N C D H W : nat) :
  size5 t = (N, C, D, H, W) -> wf5 t = true ->
  match flatten t with
  | Ok r =>
      List.length r = C
      /\ forall c, (c < C)%nat ->
           List.length (nth c r []) = (N * D * H * W)%nat
  | Raise _ => view_compatible (N, C, D, H, W) = false
  end.
Proof.
  intros Hs Hwf.
  destruct (view_compatible (N, C, D, H, W)) eqn:Hv.
  - rewrite (flatten_rows t N C D H W Hs Hv).
    split; [now rewrite length_map, length_seq |].
    intros c Hc. rewrite nth_map_seq by assumption.
    pose proof (channel_rows t N C D H W c Hs Hwf Hc) as Hrows.
    unfold flat4.
    rewrite (length_concat_rows (D * (H * W))).
    + rewrite length_map. unfold channel. rewrite length_map.
      unfold wf5 in Hwf. rewrite Hs in Hwf. apply rows_inv in Hwf.
      destruct Hwf as [Hlen _].
      transitivity (N * (D * (H * W)))%nat; [f_equal; exact Hlen | lia].
    + rewrite forallb_map_comp.
      apply (forallb_impl (rows (rows (rows any W) H) D)); [| assumption].
      intros x. apply length_flat3.
  - rewrite flatten_raises by now rewrite Hs. reflexivity.
Qed.

Lemma flatten_shape_witness :
  match flatten (T5 (2, 1, 1, 1, 2)%nat [[[[[1; 2]]]]; [[[[3; 4]]]]]%Z) with
  | Ok r => List.length r = 1%nat
            /\ forall c, (c < 1)%nat -> List.length (nth c r []) = 4%nat
  | Raise _ => view_compatible (2, 1, 1, 1, 2)%nat = false
  end.
Proof.
  apply (flatten_shape
           (T5 (2, 1, 1, 1, 2)%nat [[[[[1; 2]]]]; [[[[3; 4]]]]]%Z)
           2 1 1 1 2); reflexivity.
Defined.

(** ** One-hot expansion with an ignore index *)

(** X16: with an ignore index, [expand_as_one_hot] raises for every batch
    size other than 1 and [C]: the source of the mask has size
    [(1, N, D, H, W)], which [expand] cannot bring to [(N, C, D, H, W)]. *)
Theorem expand_as_one_hot_ignore_index_raises (input : tensor4 Z)
    (N C D H W : nat) (ignore_index : Z) :
  size4 input = (N, D, H, W) -> N <> 1%nat -> N <> C ->
  expand_as_one_hot input C (Some ignore_index)
  = Raise (RuntimeError
      "The expanded size of the tensor must match the existing size").
Proof.
  intros Hs H1 HC. unfold expand_as_one_hot, expand, unsqueeze0.
  rewrite Hs. cbn [size5].
  destruct (Nat.eqb_spec N 1); [contradiction |].
  destruct (Nat.eqb_spec N C); [contradiction |]. reflexivity.
Qed.

Lemma expand_as_one_hot_ignore_index_raises_witness :
  expand_as_one_hot
    (T4 (2, 1, 1, 1)%nat [[[[0%Z]]]; [[[1%Z]]]]) 3 (Some (-1)%Z)
  = Raise (RuntimeError
      "The expanded size of the tensor must match the existing size").
Proof.
  apply (expand_as_one_hot_ignore_index_raises
           (T4 (2, 1, 1, 1)%nat [[[[0%Z]]]; [[[1%Z]]]]) 2 3 1 1 1 (-1));
    [reflexivity | lia | lia].
Defined.

(** ** The factory and [ignore_index] *)

(** X17: given an ignore index [k], the loss [get_loss_criterion] returns
    exposes it as its attribute [ignore_index] for every supported name
    but ['focal']: [FocalLoss] drops the argument, has no such attribute,
    and its inner [NLLLoss] keeps the library default -100. *)
Theorem factory_passes_ignore_index (weight : option (list Q)) (k : Z) :
  Forall (fun name =>
            exists loss,
              get_loss_criterion name weight (Some k) = Ok loss
              /\ if (name =? "focal")%string
                 then hasattr loss "ignore_index" = false
                      /\ exists nll,
                           getattr loss "nll_loss" = Some nll
                           /\ getattr nll "ignore_index"
                              = Some (VInt (-100))
                 else getattr loss "ignore_index" = Some (VInt k))
         SUPPORTED_LOSSES.
Proof.
  unfold SUPPORTED_LOSSES.
  repeat (apply Forall_cons;
          [eexists; split; [reflexivity |]; cbn;
           try reflexivity; try (split; [reflexivity |]; eexists;
                                 split; reflexivity) |]).
  apply Forall_nil.
Qed.

(** ** One-hot expansion, entry by entry *)

Lemma In_combine_seq {A} (l : list A) (d : A) :
  forall (s n : nat) (a : A),
    In (n, a) (combine (seq s (List.length l)) l)
    <-> (s <= n < s + List.length l)%nat /\ nth (n - s) l d = a.
Proof.
  induction l as [| x l IH]; intros s n a; cbn [List.length seq combine In].
  - split; [tauto | lia].
  - rewrite IH. split.
    + intros [Heq | [Hn Ha]].
      * injection Heq as <- <-. rewrite Nat.sub_diag. split; [lia | easy].
      * split; [lia |]. replace (n - s)%nat with (S (n - S s)) by lia.
        exact Ha.
    + intros [Hn Ha]. destruct (Nat.eq_dec n s) as [-> | Hne].
      * left. rewrite Nat.sub_diag in Ha. cbn in Ha. now subst.
      * right. split; [lia |].
        replace (n - s)%nat with (S (n - S s)) in Ha by lia. exact Ha.
Qed.

Lemma In_indexed {A} (l : list A) (d : A) (n : nat) (a : A) :
  In (n, a) (indexed l) <-> (n < List.length l)%nat /\ nth n l d = a.
Proof.
  unfold indexed. rewrite (In_combine_seq l d 0 n a), Nat.sub_0_r.
  split; intros [Hn Ha]; (split; [lia | exact Ha]).
Qed.

Lemma map_flat_map_indexed {A B C} (g : B -> C) (f : nat * A -> list B)
    (h : A -> list C) (l : list A) :
  (forall i a, map g (f (i, a)) = h a) ->
  map g (flat_map f (indexed l)) = concat (map h l).
Proof.
  intros Hf. unfold indexed. generalize 0%nat as s.
  induction l as [| a l IH]; intros s; [reflexivity |].
  cbn [List.length seq combine flat_map map concat].
  now rewrite map_app, Hf, IH.
Qed.

Lemma map_snd_indexed {A B} (g : nat * A -> B) (h : A -> B) (l : list A) :
  (forall i a, g (i, a) = h a) -> map g (indexed l) = map h l.
Proof.
  intros Hg. unfold indexed. generalize 0%nat as s.
  induction l as [| a l IH]; intros s; [reflexivity |].
  cbn [List.length seq combine map]. now rewrite Hg, IH.
Qed.

(** The values [positions5] lists are the entries in row-major order. *)
Lemma positions5_values {A} (d : nest5 A) :
  map (fun p : nat * nat * nat * nat * nat * A => snd p) (positions5 d)
  = concat (map (@flat4 A) d).
Proof.
  unfold positions5. apply map_flat_map_indexed. intros i x.
  unfold flat4. apply map_flat_map_indexed. intros j y.
  unfold flat3. apply map_flat_map_indexed. intros k z.
  rewrite <- (map_id z) at 2. apply map_flat_map_indexed. intros l u.
  rewrite map_map.
  rewrite (map_snd_indexed _ (fun v : A => v)) by (intros; reflexivity).
  apply map_id.
Qed.

Lemma forallb_ext_eq {A} (p q : A -> bool) (l : list A) :
  (forall a, p a = q a) -> forallb p l = forallb q l.
Proof.
  intros Hpq. induction l as [| a l IH]; cbn; [reflexivity |].
  now rewrite Hpq, IH.
Qed.

Lemma positions5_in_range {C : nat} (x : nest4 Z) :
  forallb (fun '(_, _, _, _, _, v) => (0 <=? v)%Z && (v <? Z.of_nat C)%Z)
          (positions5 [x])
  = forallb (label_in_range C) (flat4 x).
Proof.
  rewrite (forallb_ext_eq _ (fun p => label_in_range C (snd p)))
    by (intros [[[[[i j] k] l] m] v]; reflexivity).
  rewrite <- forallb_map_comp, positions5_values. cbn [map concat].
  now rewrite app_nil_r.
Qed.

Lemma In_positions5 {A} (dflt : A) (d : nest5 A) (i j k l m : nat) (v : A) :
  In (i, j, k, l, m, v) (positions5 d)
  <-> (i < List.length d)%nat
      /\ (j < List.length (nth i d []))%nat
      /\ (k < List.length (nth j (nth i d []) []))%nat
      /\ (l < List.length (nth k (nth j (nth i d []) []) []))%nat
      /\ (m < List.length (nth l (nth k (nth j (nth i d []) []) []) []))%nat
      /\ get5 dflt d i j k l m = v.
Proof.
  unfold positions5, get5, get4. rewrite in_flat_map. split.
  - intros [[i' x] [Hi Hx]]. apply (In_indexed d []) in Hi.
    destruct Hi as [Hi <-]. rewrite in_flat_map in Hx.
    destruct Hx as [[j' y] [Hj Hy]]. apply (In_indexed _ []) in Hj.
    destruct Hj as [Hj <-]. rewrite in_flat_map in Hy.
    destruct Hy as [[k' z] [Hk Hz]]. apply (In_indexed _ []) in Hk.
    destruct Hk as [Hk <-]. rewrite in_flat_map in Hz.
    destruct Hz as [[l' u] [Hl Hu]]. apply (In_indexed _ []) in Hl.
    destruct Hl as [Hl <-]. rewrite in_map_iff in Hu.
    destruct Hu as [[m' v'] [Heq Hm]]. apply (In_indexed _ dflt) in Hm.
    destruct Hm as [Hm <-]. injection Heq as <- <- <- <- <-.
    repeat split; assumption.
  - intros (Hi & Hj & Hk & Hl & Hm & Hv).
    exists (i, nth i d []). split; [now apply (In_indexed d []) |].
    rewrite in_flat_map. exists (j, nth j (nth i d []) []).
    split; [now apply (In_indexed _ []) |].
    rewrite in_flat_map. exists (k, nth k (nth j (nth i d []) []) []).
    split; [now apply (In_indexed _ []) |].
    rewrite in_flat_map.
    exists (l, nth l (nth k (nth j (nth i d []) []) []) []).
    split; [now apply (In_indexed _ []) |].
    rewrite in_map_iff. exists (m, v). split; [reflexivity |].
    now apply (In_indexed _ dflt).
Qed.

(** *** Writing one entry *)

Lemma length_alter {A} (f : A -> A) (l : list A) :
  forall n, List.length (alter f n l) = List.length l.
Proof.
  induction l as [| a l IH]; intros [| n]; cbn; try reflexivity.
  now rewrite IH.
Qed.

Lemma forallb_alter {A} (p : A -> bool) (f : A -> A) (l : list A) :
  (forall a, p a = true -> p (f a) = true) ->
  forall n, forallb p l = true -> forallb p (alter f n l) = true.
Proof.
  intros Hf. induction l as [| a l IH]; intros [| n] Hl; cbn in *;
    try reflexivity; apply andb_prop in Hl; destruct Hl as [Ha Hl];
    apply andb_true_intro; auto.
Qed.

Lemma rows_alter {A} (p : A -> bool) (n0 : nat) (f : A -> A) (n : nat)
    (l : list A) :
  (forall a, p a = true -> p (f a) = true) ->
  rows p n0 l = true -> rows p n0 (alter f n l) = true.
Proof.
  intros Hf Hl. apply rows_inv in Hl. destruct Hl as [Hlen Hp].
  unfold rows. rewrite length_alter, Hlen, Nat.eqb_refl.
  now apply forallb_alter.
Qed.

Lemma nth_alter {A} (f : A -> A) (d : A) (l : list A) :
  forall n n', (n < List.length l)%nat ->
    nth n (alter f n' l) d = if (n =? n')%nat then f (nth n l d)
                             else nth n l d.
Proof.
  induction l as [| a l IH]; intros n n' Hn; cbn [List.length] in Hn;
    [lia |].
  destruct n as [| n], n' as [| n']; cbn [alter nth Nat.eqb];
    try reflexivity.
  apply IH. lia.
Qed.

(** Reading entry [n] of a list of [n0] rows after a write to entry
    [n']. *)
Lemma nth_alter_rows {A} (p : A -> bool) (n0 : nat) (f : A -> A)
    (n n' : nat) (l : list A) (d : A) :
  rows p n0 l = true -> (n < n0)%nat ->
  nth n (alter f n' l) d
  = (if (n =? n')%nat then f (nth n l d) else nth n l d)
  /\ p (nth n l d) = true.
Proof.
  intros Hl Hn. apply rows_inv in Hl. destruct Hl as [Hlen Hp].
  split; [apply nth_alter; lia | apply forallb_nth; [assumption | lia]].
Qed.

Section Writes.
Context {A : Type} (N C D H W : nat) (dflt : A).

Lemma set5_shaped (i c k l m : nat) (v : A) (x : nest5 A) :
  shaped N C D H W x -> shaped N C D H W (set5 i c k l m v x).
Proof.
  unfold shaped, set5. intros Hx.
  apply rows_alter; [| exact Hx]. intros x4.
  apply rows_alter. intros x3. apply rows_alter. intros x2.
  apply rows_alter. intros x1. apply rows_alter. reflexivity.
Qed.

Lemma get5_set5 (i' c' k' l' m' : nat) (v : A) (x : nest5 A)
    (i c k l m : nat) :
  shaped N C D H W x ->
  (i < N)%nat -> (c < C)%nat -> (k < D)%nat -> (l < H)%nat -> (m < W)%nat ->
  get5 dflt (set5 i' c' k' l' m' v x) i c k l m
  = if (i =? i')%nat && (c =? c')%nat && (k =? k')%nat && (l =? l')%nat
       && (m =? m')%nat
    then v else get5 dflt x i c k l m.
Proof.
  unfold shaped, get5, get4, set5. unfold nest5, nest4, nest3, nest2.
  intros Hx Hi Hc Hk Hl Hm.
  destruct (nth_alter_rows _ N
              (alter (alter (alter (alter (fun _ => v) m') l') k') c')
              i i' x [] Hx Hi) as [-> H4].
  destruct (i =? i')%nat; [| reflexivity]. cbn [andb].
  set (x4 := @nth (list (list (list (list A)))) i x []) in *.
  destruct (nth_alter_rows _ C (alter (alter (alter (fun _ => v) m') l') k')
              c c' x4 [] H4 Hc) as [-> H3].
  destruct (c =? c')%nat; [| reflexivity]. cbn [andb].
  set (x3 := @nth (list (list (list A))) c x4 []) in *.
  destruct (nth_alter_rows _ D (alter (alter (fun _ => v) m') l')
              k k' x3 [] H3 Hk) as [-> H2].
  destruct (k =? k')%nat; [| reflexivity]. cbn [andb].
  set (x2 := @nth (list (list A)) k x3 []) in *.
  destruct (nth_alter_rows _ H (alter (fun _ => v) m')
              l l' x2 [] H2 Hl) as [-> H1].
  destruct (l =? l')%nat; [| reflexivity]. cbn [andb].
  set (x1 := @nth (list A) l x2 []) in *.
  destruct (nth_alter_rows _ W (fun _ => v) m m' x1 dflt H1 Hm) as [-> _].
  reflexivity.
Qed.

End Writes.

(** What the writes of [scatter_1] leave at an entry in range: the value
    written if some entry of the index hits it, the old entry otherwise. *)
Lemma scatter_fold (N C D H W : nat) (value : Q)
    (ps : list (nat * nat * nat * nat * nat * Z)) :
  forall (x : nest5 Q),
    shaped N C D H W x ->
    shaped N C D H W
      (fold_left (fun acc '(i, _, k, l, m, v) =>
                    set5 i (Z.to_nat v) k l m value acc) ps x)
    /\ forall i c k l m,
         (i < N)%nat -> (c < C)%nat -> (k < D)%nat -> (l < H)%nat ->
         (m < W)%nat ->
         get5 0 (fold_left (fun acc '(i, _, k, l, m, v) =>
                              set5 i (Z.to_nat v) k l m value acc) ps x)
              i c k l m
         = if existsb (hits i c k l m) ps then value
           else get5 0 x i c k l m.
Proof.
  induction ps as [| [[[[[i' j'] k'] l'] m'] v'] ps IH]; intros x Hx.
  - split; [exact Hx | reflexivity].
  - cbn [fold_left].
    pose proof (set5_shaped N C D H W i' (Z.to_nat v') k' l' m' value x Hx)
      as Hx'.
    destruct (IH _ Hx') as [Hshape Hget]. split; [exact Hshape |].
    intros i c k l m Hi Hc Hk Hl Hm. rewrite (Hget i c k l m) by assumption.
    cbn [existsb]. unfold hits at 2.
    rewrite (get5_set5 N C D H W 0) by assumption.
    destruct (existsb (hits i c k l m) ps); [now rewrite orb_true_r |].
    now rewrite orb_false_r.
Qed.

Lemma nth_repeat_lt {A} (a d : A) (n m : nat) :
  (n < m)%nat -> nth n (repeat a m) d = a.
Proof.
  revert n. induction m as [| m IH]; intros [| n] Hn; cbn; try lia;
    [reflexivity | apply IH; lia].
Qed.

Lemma rows_repeat {A} (p : A -> bool) (a : A) (n : nat) :
  p a = true -> rows p n (repeat a n) = true.
Proof.
  intros Ha. unfold rows. rewrite repeat_length, Nat.eqb_refl.
  cbn [andb]. induction n as [| n IH]; cbn; [reflexivity |].
  now rewrite Ha.
Qed.

Lemma zeros5_shaped (N C D H W : nat) :
  shaped N C D H W (data5 (zeros5 (N, C, D, H, W))).
Proof.
  unfold shaped, zeros5. cbn [data5].
  repeat apply rows_repeat. reflexivity.
Qed.

Lemma zeros5_get (N C D H W i c k l m : nat) :
  (i < N)%nat -> (c < C)%nat -> (k < D)%nat -> (l < H)%nat -> (m < W)%nat ->
  get5 0 (data5 (zeros5 (N, C, D, H, W))) i c k l m = 0.
Proof.
  intros Hi Hc Hk Hl Hm. unfold get5, get4, zeros5. cbn [data5].
  now rewrite !nth_repeat_lt by assumption.
Qed.

Lemma rows_nth {A} (p : A -> bool) (n0 : nat) (l : list A) (n : nat) (d : A) :
  rows p n0 l = true -> (n < n0)%nat ->
  (n < List.length l)%nat /\ p (nth n l d) = true.
Proof.
  intros Hl Hn. apply rows_inv in Hl. destruct Hl as [Hlen Hp].
  split; [lia | apply forallb_nth; [assumption | lia]].
Qed.

(** Which entries of the index [input.unsqueeze(0)] hit a position: those
    of any image of the batch that carry the label, and only at image 0
    of the result. *)
Lemma hits_unsqueezed (x : nest4 Z) (N C D H W i c k l m : nat) :
  rows (rows (rows (rows any W) H) D) N x = true ->
  forallb (label_in_range C) (flat4 x) = true ->
  (k < D)%nat -> (l < H)%nat -> (m < W)%nat ->
  existsb (hits i c k l m) (positions5 [x])
  = (i =? 0)%nat
    && existsb (fun j => (get4 0 x j k l m =? Z.of_nat c)%Z) (seq 0 N).
Proof.
  intros Hx Hrange Hk Hl Hm. apply Bool.eq_iff_eq_true.
  rewrite andb_true_iff, !existsb_exists. split.
  - intros [[[[[[i' j] k'] l'] m'] v] [Hin Hhit]].
    assert (Hv : label_in_range C v = true).
    { rewrite <- (positions5_in_range (C := C)) in Hrange.
      rewrite forallb_forall in Hrange. exact (Hrange _ Hin). }
    unfold hits in Hhit.
    repeat (apply andb_prop in Hhit; destruct Hhit as [Hhit ?]).
    repeat match goal with
           | E : (_ =? _)%nat = true |- _ => apply Nat.eqb_eq in E
           end.
    subst i' k' l' m'.
    apply (In_positions5 0%Z) in Hin.
    destruct Hin as (Hi & Hj & _ & _ & _ & Hget). cbn [List.length] in Hi.
    assert (i = 0)%nat by lia. subst i. cbn [nth] in Hj.
    unfold get5 in Hget. cbn [nth] in Hget.
    split; [reflexivity |]. exists j. split.
    + apply in_seq. apply rows_inv in Hx. destruct Hx as [Hlen _].
      split; [lia |]. cbn [plus]. rewrite <- Hlen. exact Hj.
    + apply Z.eqb_eq. rewrite Hget. unfold label_in_range in Hv.
      apply andb_prop in Hv. destruct Hv as [Hv _]. apply Z.leb_le in Hv.
      subst c. now rewrite Z2Nat.id.
  - intros [Hi [j [Hj Heq]]]. apply Nat.eqb_eq in Hi. subst i.
    apply in_seq in Hj. apply Z.eqb_eq in Heq.
    exists (0%nat, j, k, l, m, Z.of_nat c). split.
    + apply (In_positions5 0%Z). cbn [List.length nth].
      destruct (rows_nth _ N x j [] Hx) as [Hj' H3]; [lia |].
      destruct (rows_nth _ D (nth j x []) k [] H3 Hk) as [Hk' H2].
      destruct (rows_nth _ H (nth k (nth j x []) []) l [] H2 Hl)
        as [Hl' H1].
      destruct (rows_nth _ W (nth l (nth k (nth j x []) []) []) m 0%Z H1 Hm)
        as [Hm' _].
      repeat split; try assumption; lia.
    + unfold hits. rewrite Nat2Z.id, !Nat.eqb_refl. reflexivity.
Qed.

(** The entries of the one-hot expansion, as the code computes them. *)
Lemma expand_as_one_hot_entries_eq (input : tensor4 Z) (N C D H W : nat) :
  size4 input = (N, D, H, W) -> wf4 input = true ->
  forallb (label_in_range C) (flat4 (data4 input)) = true ->
  exists r,
    expand_as_one_hot input C None = Ok r
    /\ size5 r = (N, C, D, H, W) /\ wf5 r = true
    /\ forall i c k l m,
         (i < N)%nat -> (c < C)%nat -> (k < D)%nat -> (l < H)%nat ->
         (m < W)%nat ->
         get5 0 (data5 r) i c k l m
         = if (i =? 0)%nat
              && existsb (fun j =>
                            (get4 0 (data4 input) j k l m =? Z.of_nat c)%Z)
                         (seq 0 N)
           then 1 else 0.
Proof.
  intros Hs Hwf Hrange. unfold wf4 in Hwf. rewrite Hs in Hwf.
  unfold expand_as_one_hot, unsqueeze0. rewrite Hs. unfold scatter_1.
  cbn [size5 data5 zeros5 numel5].
  destruct (Nat.eqb_spec (1 * N * D * H * W) 0) as [Hz | Hnz].
  - eexists. split; [reflexivity |]. cbn [size5].
    split; [reflexivity |]. split; [apply zeros5_shaped |].
    intros i c k l m Hi Hc Hk Hl Hm. exfalso.
    assert (0 < N * D * H * W)%nat by (repeat apply Nat.mul_pos_pos; lia).
    lia.
  - assert (HN : (1 <=? N)%nat = true).
    { apply Nat.leb_le. destruct N; [cbn in Hnz; lia | lia]. }
    rewrite HN, !Nat.leb_refl. cbn [andb negb].
    rewrite (positions5_in_range (C := C)), Hrange. cbn [negb].
    destruct (scatter_fold N C D H W 1 (positions5 [data4 input])
                _ (zeros5_shaped N C D H W)) as [Hshape Hget].
    eexists. split; [reflexivity |]. cbn [size5 data5].
    split; [reflexivity |]. split; [exact Hshape |].
    intros i c k l m Hi Hc Hk Hl Hm.
    etransitivity; [exact (Hget i c k l m Hi Hc Hk Hl Hm) |].
    rewrite (zeros5_get N C D H W) by assumption.
    now rewrite (hits_unsqueezed (data4 input) N C D H W).
Qed.

(** X18: what [expand_as_one_hot] computes, without an ignore index, on a
    well-formed [(N, D, H, W)] label image with labels in [[0, C)]: an
    [(N, C, D, H, W)] tensor which, at batch entry 0, has a 1 in channel
    [c] at voxel [(k, l, m)] when some image [j] of the batch has label
    [c] there, and a 0 otherwise; and which is 0 at every other batch
    entry.  For a batch of one image that is the one-hot encoding of the
    labels. *)
Theorem expand_as_one_hot_entries (input : tensor4 Z) (N C D H W : nat) :
  size4 input = (N, D, H, W) -> wf4 input = true ->
  forallb (label_in_range C) (flat4 (data4 input)) = true ->
  exists r,
    expand_as_one_hot input C None = Ok r
    /\ size5 r = (N, C, D, H, W) /\ wf5 r = true
    /\ forall c k l m,
         (c < C)%nat -> (k < D)%nat -> (l < H)%nat -> (m < W)%nat ->
         (0 < N)%nat ->
         get5 0 (data5 r) 0 c k l m
         = (if existsb (fun j =>
                          (get4 0 (data4 input) j k l m =? Z.of_nat c)%Z)
                       (seq 0 N)
            then 1 else 0)
         /\ forall i, (0 < i < N)%nat -> get5 0 (data5 r) i c k l m = 0.
Proof.
  intros Hs Hwf Hrange.
  destruct (expand_as_one_hot_entries_eq input N C D H W Hs Hwf Hrange)
    as (r & Hr & Hsize & Hshape & Hget).
  exists r. split; [exact Hr |]. split; [exact Hsize |].
  split; [exact Hshape |].
  intros c k l m Hc Hk Hl Hm HN. split.
  - now rewrite (Hget 0%nat c k l m) by assumption.
  - intros i Hi. rewrite (Hget i c k l m) by (assumption || lia).
    destruct i; [lia | reflexivity].
Qed.

Lemma expand_as_one_hot_entries_witness :
  exists r,
    expand_as_one_hot (T4 (1, 1, 1, 2)%nat [[[[1%Z; 0%Z]]]]) 2 None = Ok r
    /\ get5 0 (data5 r) 0 1 0 0 0 = 1
    /\ get5 0 (data5 r) 0 0 0 0 0 = 0.
Proof.
  destruct (expand_as_one_hot_entries
              (T4 (1, 1, 1, 2)%nat [[[[1%Z; 0%Z]]]]) 1 2 1 1 2
              eq_refl eq_refl eq_refl) as (r & Hr & _ & _ & Hget).
  exists r. split; [exact Hr |].
  destruct (Hget 1%nat 0%nat 0%nat 0%nat) as [H1 _]; try lia.
  destruct (Hget 0%nat 0%nat 0%nat 0%nat) as [H0 _]; try lia.
  split; [exact H1 | exact H0].
Defined.

(** X19: a label outside [[0, C)] anywhere in a non-empty label image
    makes [expand_as_one_hot] raise: [scatter_] rejects the index. *)
Theorem expand_as_one_hot_label_out_of_range (input : tensor4 Z)
    (N C D H W : nat) :
  size4 input = (N, D, H, W) -> (N * D * H * W)%nat <> 0%nat ->
  forallb (label_in_range C) (flat4 (data4 input)) = false ->
  expand_as_one_hot input C None
  = Raise (RuntimeError "index out of bounds").
Proof.
  intros Hs Hnz Hrange.
  unfold expand_as_one_hot, unsqueeze0. rewrite Hs. unfold scatter_1.
  cbn [size5 data5 zeros5 numel5].
  destruct (Nat.eqb_spec (1 * N * D * H * W) 0) as [Hz | _]; [lia |].
  assert (HN : (1 <=? N)%nat = true).
  { apply Nat.leb_le. destruct N; [cbn in Hnz; lia | lia]. }
  rewrite HN, !Nat.leb_refl. cbn [andb negb].
  now rewrite (positions5_in_range (C := C)), Hrange.
Qed.

Lemma expand_as_one_hot_label_out_of_range_witness :
  expand_as_one_hot (T4 (1, 1, 1, 2)%nat [[[[1%Z; 2%Z]]]]) 2 None
  = Raise (RuntimeError "index out of bounds").
Proof.
  apply (expand_as_one_hot_label_out_of_range
           (T4 (1, 1, 1, 2)%nat [[[[1%Z; 2%Z]]]]) 1 2 1 1 2);
    [reflexivity | cbn; lia | reflexivity].
Defined.

(** ** Class weights of the wrong length *)

(** X20: class weights whose number is neither 1 nor the number of
    channels make [compute_per_channel_dice] raise the broadcasting error
    (on more than one channel, of a shape [flatten] accepts). *)
Theorem dice_weight_mismatch (input target : tensor5 Q) (epsilon : Q)
    (w : list Q) (N C D H W : nat) :
  size5 input = (N, C, D, H, W) -> size5 target = (N, C, D, H, W) ->
  view_compatible (N, C, D, H, W) = true ->
  List.length w <> C -> List.length w <> 1%nat -> C <> 1%nat ->
  compute_per_channel_dice input target epsilon None (Some w)
  = Raise (RuntimeError
      "The size of tensor a must match the size of tensor b").
Proof.
  intros Hsi Hst Hv HwC Hw1 HC1. unfold compute_per_channel_dice.
  rewrite Hsi, Hst, size_eqb5_refl. cbn [negb].
  rewrite (flatten_rows input N C D H W Hsi Hv),
    (flatten_rows target N C D H W Hst Hv).
  cbn [rbind]. rewrite !zipWith_map_same, !map_map.
  unfold broadcast1 at 1. rewrite length_map, length_seq.
  destruct (Nat.eqb_spec (List.length w) C); [contradiction |].
  destruct (Nat.eqb_spec (List.length w) 1); [contradiction |].
  destruct (Nat.eqb_spec C 1); [contradiction |]. reflexivity.
Qed.

Lemma dice_weight_mismatch_witness :
  compute_per_channel_dice
    (T5 (1, 2, 1, 1, 1)%nat [[[[[1]]]; [[[0]]]]])
    (T5 (1, 2, 1, 1, 1)%nat [[[[[1]]]; [[[1]]]]]) (1 # 100000) None
    (Some [1; 2; 3])
  = Raise (RuntimeError
      "The size of tensor a must match the size of tensor b").
Proof.
  apply (dice_weight_mismatch
           (T5 (1, 2, 1, 1, 1)%nat [[[[[1]]]; [[[0]]]]])
           (T5 (1, 2, 1, 1, 1)%nat [[[[[1]]]; [[[1]]]]]) (1 # 100000)
           [1; 2; 3] 1 2 1 1 1);
    try reflexivity; cbn; lia.
Defined.

Section StopReasons.
Context `{Collaborators}.
Local Open Scope Z_scope.

Lemma preserves_True {A} (c : M A) : preserves (fun _ => True) c.
Proof. intros s _. exact Logic.I. Qed.

Lemma check_early_stopping_true (b : bool) (s : trainer) :
  wp (_check_early_stopping b)
     (fun r s' =>
        match r with
        | Ok true => patience s' <= 0
        | _ => True
        end) s.
Proof.
  unfold _check_early_stopping. destruct b.
  - apply wp_bind_modify. apply wp_bind_get. apply wp_bind_emit.
    apply wp_ret. exact Logic.I.
  - apply wp_bind_modify. apply wp_bind_get.
    destruct (Z.leb_spec (patience (set_patience (patience s - 1) s)) 0)
      as [Hle | Hgt].
    + apply wp_ret. exact Hle.
    + apply (wp_bind_inv (fun _ => True));
        [apply preserves_True | exact Logic.I | | easy].
      intros _ s1 _. apply wp_bind_emit. apply wp_ret. exact Logic.I.
Qed.

Lemma validation_true (loader : list batch) (s : trainer) :
  wp (validation loader)
     (fun r s' =>
        match r with
        | Ok true => out_of_patience s'
        | _ => True
        end) s.
Proof.
  unfold validation.
  apply (wp_bind_inv (fun _ => True));
    [apply preserves_True | exact Logic.I | intros v s1 _
    | intros; exact Logic.I].
  apply (wp_bind_inv (fun _ => True));
    [apply preserves_True | exact Logic.I | intros is_best s2 _
    | intros; exact Logic.I].
  apply (wp_bind_inv (fun _ => True));
    [apply preserves_True | exact Logic.I | intros _ s3 _
    | intros; exact Logic.I].
  apply wp_bind.
  pose proof (check_early_stopping_true is_best s3) as Hc. unfold wp in *.
  destruct (_check_early_stopping is_best s3) as [[[|] | e] s4];
    cbn [fst snd] in *; try exact Logic.I.
  unfold bind, get, emit, modify, ret. cbn [fst snd].
  split; [exact Hc |]. cbn [trace set_trace max_patience]. eauto.
Qed.

Lemma train_step_true (t : batch) (l : locals) (s : trainer) :
  wp (train_step t l)
     (fun r s' =>
        match r with
        | Ok (inr true) => out_of_patience s' \/ over_the_limit s'
        | _ => True
        end) s.
Proof.
  unfold train_step.
  do 4 (apply (wp_bind_inv (fun _ => True));
        [apply preserves_True | exact Logic.I | intros ? ? _
        | intros; exact Logic.I]).
  apply (wp_bind_inv (fun _ => True));
    [apply preserves_True | exact Logic.I | intros [output loss] ? _
    | intros; exact Logic.I].
  do 7 (apply (wp_bind_inv (fun _ => True));
        [apply preserves_True | exact Logic.I | intros ? ? _
        | intros; exact Logic.I]).
  apply (wp_bind_inv (fun _ => True));
    [apply preserves_True | exact Logic.I | intros abi ? _
    | intros; exact Logic.I].
  cbv zeta. apply wp_bind_get.
  match goal with |- wp _ _ ?s0 => set (s_now := s0) end.
  do 3 (apply (wp_bind_inv (fun _ => True));
        [apply preserves_True | exact Logic.I | intros ? ? _
        | intros; exact Logic.I]).
  match goal with |- wp _ _ ?s0 => set (s_then := s0) end.
  apply wp_bind.
  match goal with |- context [if ?b then bind (validate _) _ else _] =>
    destruct b end.
  - pose proof (validation_true (val_loader s_now) s_then) as Hv.
    unfold wp in *. fold (validation (val_loader s_now)).
    destruct (validation (val_loader s_now) s_then) as [[[|] | e] s1];
      cbn [fst snd] in *; try exact Logic.I.
    + unfold ret. cbn [fst snd]. left. exact Hv.
    + unfold bind, get. cbn [fst snd].
      destruct (Z.ltb_spec (max_num_iterations s1) (num_iterations s1));
        [| exact Logic.I].
      unfold emit, modify, ret. cbn [fst snd]. right.
      split; [assumption |]. cbn [trace set_trace max_num_iterations]. eauto.
  - unfold wp, ret, bind, get. cbn [fst snd].
    destruct (Z.ltb_spec (max_num_iterations s_then)
                (num_iterations s_then));
      [| exact Logic.I].
    unfold emit, modify, ret. cbn [fst snd]. right.
    split; [assumption |]. cbn [trace set_trace max_num_iterations]. eauto.
Qed.

Lemma train_loop_true (loader : list batch) :
  forall (l : locals) (s : trainer),
    wp (for_loop train_step loader l)
       (fun r s' =>
          match r with
          | Ok (inr true) => out_of_patience s' \/ over_the_limit s'
          | _ => True
          end) s.
Proof.
  induction loader as [| t loader IH]; intros l s.
  - exact Logic.I.
  - cbn [for_loop]. apply wp_bind.
    pose proof (train_step_true t l s) as Hstep. unfold wp in *.
    destruct (train_step t l s) as [[[l' | b] | e] s1]; cbn [fst snd] in *.
    + apply IH.
    + exact Hstep.
    + exact Logic.I.
Qed.

(** X21: [train] returns true for two reasons only: patience is used up
    ([patience <= 0]), and its last log line is the early-stopping one; or
    the iteration limit is exceeded
    ([max_num_iterations < num_iterations]), and its last log line says
    so. *)
Theorem train_stops_for_a_reason (loader : list batch) (s : trainer) :
  match fst (train loader s) with
  | Ok true =>
      out_of_patience (snd (train loader s))
      \/ over_the_limit (snd (train loader s))
  | _ => True
  end.
Proof.
  rewrite train_eq.
  pose proof (train_loop_true loader (Locals None None None RunningAcc)
                (set_model_training true s)) as Hloop.
  unfold wp in Hloop.
  destruct (for_loop train_step loader _ _) as [[[l' | b] | e] s1];
    cbn [fst snd] in *; try exact Logic.I.
  destruct b; [exact Hloop | exact Logic.I].
Qed.

End StopReasons.

Section RunInvariants.
Context `{Collaborators}.
Local Open Scope Z_scope.

(** X22: neither [train] nor [fit] changes the trainer's configuration:
    the loaders, [max_num_epochs], [max_num_iterations],
    [validate_after_iters], [log_after_iters] and [max_patience] are the
    same afterwards, whether the call returned or raised. *)
Theorem configuration_is_kept (loader : list batch) (s : trainer) :
  configuration (snd (train loader s)) = configuration s
  /\ configuration (snd (fit s)) = configuration s.
Proof.
  split.
  - apply (frame_train (fun s' => configuration s' = configuration s));
      auto.
  - apply (frame_fit (fun s' => configuration s' = configuration s)); auto.
Qed.

Lemma uniform_or_decay (lrs : list float) (v : float) (s : trainer) :
  uniform_or lrs s ->
  uniform_or lrs
    (set_param_group_lrs (map (fun _ => v) (param_group_lrs s)) s).
Proof.
  unfold uniform_or. cbn [param_group_lrs set_param_group_lrs].
  intros [-> | [v' ->]]; right; exists v; [reflexivity |].
  now rewrite map_map.
Qed.

(** X23: through [train] and [fit] the learning rates of the parameter
    groups either stay as they were or are one and the same rate for
    every group; the number of groups never changes. *)
Theorem learning_rates_stay_uniform (loader : list batch) (s : trainer) :
  let lrs := param_group_lrs s in
  (uniform_or lrs (snd (train loader s))
   /\ List.length (param_group_lrs (snd (train loader s)))
      = List.length lrs)
  /\ (uniform_or lrs (snd (fit s))
      /\ List.length (param_group_lrs (snd (fit s))) = List.length lrs).
Proof.
  cbv zeta.
  assert (Hlen : forall s', uniform_or (param_group_lrs s) s' ->
            uniform_or (param_group_lrs s) s'
            /\ List.length (param_group_lrs s')
               = List.length (param_group_lrs s)).
  { intros s' Hs'. split; [exact Hs' |].
    destruct Hs' as [-> | [v ->]]; [reflexivity | apply length_map]. }
  split; apply Hlen.
  - apply (frame_train (uniform_or (param_group_lrs s))); auto.
    + apply uniform_or_decay.
    + now left.
  - apply (frame_fit (uniform_or (param_group_lrs s))); auto.
    + apply uniform_or_decay.
    + now left.
Qed.

(** X24: through [train] and [fit], [patience] never exceeds the larger
    of its starting value and [max_patience]. *)
Theorem patience_stays_bounded (loader : list batch) (s : trainer) :
  let bound := Z.max (patience s) (max_patience s) in
  patience (snd (train loader s)) <= bound
  /\ patience (snd (fit s)) <= bound.
Proof.
  cbv zeta.
  set (J := fun s' : trainer =>
              patience s' <= Z.max (patience s) (max_patience s)
              /\ max_patience s' = max_patience s).
  assert (Hreset : forall s', J s' -> J (set_patience (max_patience s') s')).
  { intros s' [Hp Hm]. split; [| exact Hm].
    cbn [patience set_patience]. lia. }
  assert (Hdecr : forall s', J s' -> J (set_patience (patience s' - 1) s')).
  { intros s' [Hp Hm]. split; [| exact Hm].
    cbn [patience set_patience]. lia. }
  assert (Hs : J s) by (split; [lia | reflexivity]).
  split.
  - apply (frame_train J); auto.
  - apply (frame_fit J); auto.
Qed.

End RunInvariants.

(** ** One-hot expansion of one image, with an ignore index *)

Lemma nth_map_default {A B} (f : A -> B) (l : list A) (n : nat) (d : A)
    (d' : B) :
  f d = d' -> nth n (map f l) d' = f (nth n l d).
Proof. intros <-. apply map_nth. Qed.

Lemma get4_map {A B} (g : A -> B) (d : A) (d' : B) (x : nest4 A)
    (j k l m : nat) :
  g d = d' ->
  get4 d' (map (map (map (map g))) x) j k l m = g (get4 d x j k l m).
Proof.
  intros Hd. unfold get4. unfold nest4, nest3, nest2 in *.
  rewrite (nth_map_default (map (map (map g))) x j [] []) by reflexivity.
  rewrite (nth_map_default (map (map g)) _ k [] []) by reflexivity.
  rewrite (nth_map_default (map g) _ l [] []) by reflexivity.
  now apply nth_map_default.
Qed.

Lemma flat4_map {A B} (g : A -> B) (x : nest4 A) :
  flat4 (map (map (map (map g))) x) = map g (flat4 x).
Proof.
  unfold flat4, flat3. rewrite !concat_map, !map_map. f_equal.
  apply map_ext. intros y. rewrite !concat_map, !map_map. f_equal.
  apply map_ext. intros z. now rewrite concat_map.
Qed.

Lemma rows_map {A B} (p : A -> bool) (q : B -> bool) (f : A -> B) (n : nat)
    (l : list A) :
  (forall a, p a = true -> q (f a) = true) ->
  rows p n l = true -> rows q n (map f l) = true.
Proof.
  intros Hf Hl. apply rows_inv in Hl. destruct Hl as [Hlen Hp].
  unfold rows. rewrite length_map, Hlen, Nat.eqb_refl. cbn [andb].
  rewrite forallb_map_comp. now apply (forallb_impl p).
Qed.

Lemma rows4_map {A B} (g : A -> B) (N D H W : nat) (x : nest4 A) :
  rows (rows (rows (rows any W) H) D) N x = true ->
  rows (rows (rows (rows any W) H) D) N (map (map (map (map g))) x) = true.
Proof.
  apply rows_map. intros x3. apply rows_map. intros x2. apply rows_map.
  intros x1. apply rows_map. reflexivity.
Qed.

Section Zipped.
Context {A B R : Type} (f : A -> B -> R) (N C D H W : nat).

Lemma get5_zip5 (da : A) (db : B) (dc : R) (a : nest5 A) (b : nest5 B)
    (i c k l m : nat) :
  shaped N C D H W a -> shaped N C D H W b ->
  (i < N)%nat -> (c < C)%nat -> (k < D)%nat -> (l < H)%nat -> (m < W)%nat ->
  get5 dc (zip5 f a b) i c k l m
  = f (get5 da a i c k l m) (get5 db b i c k l m).
Proof.
  unfold shaped, get5, get4, zip5. unfold nest5, nest4, nest3, nest2.
  intros Ha Hb Hi Hc Hk Hl Hm.
  destruct (rows_nth _ N a i [] Ha Hi) as [Hia Ha4].
  destruct (rows_nth _ N b i [] Hb Hi) as [Hib Hb4].
  rewrite (nth_zipWith _ a b i [] [] [] Hia Hib).
  set (a4 := @nth (list (list (list (list A)))) i a []) in *.
  set (b4 := @nth (list (list (list (list B)))) i b []) in *.
  destruct (rows_nth _ C a4 c [] Ha4 Hc) as [Hca Ha3].
  destruct (rows_nth _ C b4 c [] Hb4 Hc) as [Hcb Hb3].
  rewrite (nth_zipWith _ a4 b4 c [] [] [] Hca Hcb).
  set (a3 := @nth (list (list (list A))) c a4 []) in *.
  set (b3 := @nth (list (list (list B))) c b4 []) in *.
  destruct (rows_nth _ D a3 k [] Ha3 Hk) as [Hka Ha2].
  destruct (rows_nth _ D b3 k [] Hb3 Hk) as [Hkb Hb2].
  rewrite (nth_zipWith _ a3 b3 k [] [] [] Hka Hkb).
  set (a2 := @nth (list (list A)) k a3 []) in *.
  set (b2 := @nth (list (list B)) k b3 []) in *.
  destruct (rows_nth _ H a2 l [] Ha2 Hl) as [Hla Ha1].
  destruct (rows_nth _ H b2 l [] Hb2 Hl) as [Hlb Hb1].
  rewrite (nth_zipWith _ a2 b2 l [] [] [] Hla Hlb).
  set (a1 := @nth (list A) l a2 []) in *.
  set (b1 := @nth (list B) l b2 []) in *.
  destruct (rows_nth _ W a1 m da Ha1 Hm) as [Hma _].
  destruct (rows_nth _ W b1 m db Hb1 Hm) as [Hmb _].
  apply nth_zipWith; assumption.
Qed.

End Zipped.

(** X25: [expand_as_one_hot] with an ignore index that float32 holds
    exactly, on one well-formed image ([N = 1]) whose labels are the
    ignore index or lie in [[0, C)], for [C > 0]: the entry of channel [c]
    at a voxel is the ignore index where the label is the ignore index,
    and otherwise 1 if the label is [c] and 0 if not. *)
Theorem expand_as_one_hot_keeps_ignore_index (input : tensor4 Z)
    (C D H W : nat) (ignore_index : Z) :
  float32_exact ignore_index = true ->
  size4 input = (1%nat, D, H, W) -> wf4 input = true -> (0 < C)%nat ->
  forallb (fun v => (v =? ignore_index)%Z || label_in_range C v)
          (flat4 (data4 input)) = true ->
  exists r,
    expand_as_one_hot input C (Some ignore_index) = Ok r
    /\ size5 r = (1%nat, C, D, H, W)
    /\ forall c k l m,
         (c < C)%nat -> (k < D)%nat -> (l < H)%nat -> (m < W)%nat ->
         get5 0 (data5 r) 0 c k l m
         = let v := get4 0%Z (data4 input) 0 k l m in
           if (v =? ignore_index)%Z then inject_Z ignore_index
           else if (v =? Z.of_nat c)%Z then 1 else 0.
Proof.
  intros _ Hs Hwf HC Hrange. unfold wf4 in Hwf. rewrite Hs in Hwf.
  set (zero := fun v : Z => if (v =? ignore_index)%Z then 0%Z else v).
  set (x := data4 input) in *.
  set (x' := map (map (map (map zero))) x).
  assert (Hx' : rows (rows (rows (rows any W) H) D) 1 x' = true)
    by now apply rows4_map.
  assert (Hrange' : forallb (label_in_range C) (flat4 x') = true).
  { unfold x'. rewrite flat4_map, forallb_map_comp.
    apply (forallb_impl
             (fun v => (v =? ignore_index)%Z || label_in_range C v));
      [| exact Hrange].
    intros v Hv. unfold zero. destruct (v =? ignore_index)%Z; [| exact Hv].
    unfold label_in_range. apply andb_true_intro.
    split; [reflexivity | apply Z.ltb_lt; lia]. }
  unfold expand_as_one_hot, unsqueeze0, expand. rewrite Hs.
  cbn [size5 data5 Nat.eqb hd rbind]. fold x.
  unfold scatter_1. cbn [size5 data5 zeros5 numel5 map5 map]. fold zero.
  fold x'.
  set (mask := [map (map (map (map (Z.eqb ignore_index))))
                  (repeat (hd [] x) C)]).
  assert (Hmask : shaped 1 C D H W mask).
  { unfold shaped, mask. unfold rows at 1. cbn [List.length Nat.eqb andb
      forallb]. rewrite andb_true_r.
    apply rows_map with (p := rows (rows (rows any W) H) D).
    - intros x3. apply rows_map. intros x2. apply rows_map. intros x1.
      apply rows_map. reflexivity.
    - apply rows_repeat. apply rows_inv in Hwf. destruct Hwf as [Hlen Hp].
      destruct x as [| img rest]; [discriminate |]. cbn [hd].
      cbn in Hp. now apply andb_prop in Hp. }
  assert (Hsel : forall (R : nest5 Q) c k l m,
            shaped 1 C D H W R ->
            (c < C)%nat -> (k < D)%nat -> (l < H)%nat -> (m < W)%nat ->
            get5 0 (zip5 (fun (b : bool) r => if b then inject_Z ignore_index
                                              else r) mask R) 0 c k l m
            = if (get4 0%Z x 0 k l m =? ignore_index)%Z
              then inject_Z ignore_index else get5 0 R 0 c k l m).
  { intros R c k l m HR Hc Hk Hl Hm.
    rewrite (get5_zip5 _ 1 C D H W (ignore_index =? 0)%Z 0 0 mask R)
      by (assumption || lia).
    replace (get5 (ignore_index =? 0)%Z mask 0 c k l m)
      with (get4 0%Z x 0 k l m =? ignore_index)%Z; [reflexivity |].
    unfold mask, get5. cbn [nth].
    rewrite (get4_map (Z.eqb ignore_index) 0%Z) by reflexivity.
    rewrite Z.eqb_sym. f_equal. unfold get4.
    rewrite nth_repeat_lt by assumption.
    destruct x as [| img rest]; [| reflexivity].
    apply rows_inv in Hwf. destruct Hwf as [Hlen _]. discriminate. }
  destruct (Nat.eqb_spec (1 * 1 * D * H * W) 0) as [Hz | Hnz].
  - cbn [rbind]. eexists. split; [reflexivity |]. cbn [size5].
    split; [reflexivity |]. intros c k l m Hc Hk Hl Hm. exfalso.
    assert (0 < D * H * W)%nat by (repeat apply Nat.mul_pos_pos; lia).
    lia.
  - rewrite !Nat.leb_refl. cbn [andb negb].
    rewrite (positions5_in_range (C := C)), Hrange'. cbn [negb rbind].
    destruct (scatter_fold 1 C D H W 1 (positions5 [x'])
                _ (zeros5_shaped 1 C D H W)) as [Hshape Hget].
    eexists. split; [reflexivity |]. cbn [size5 data5].
    split; [reflexivity |]. intros c k l m Hc Hk Hl Hm. cbv zeta.
    etransitivity; [exact (Hsel _ c k l m Hshape Hc Hk Hl Hm) |].
    destruct (Z.eqb_spec (get4 0%Z x 0 k l m) ignore_index) as [Hii | Hii];
      [reflexivity |].
    etransitivity;
      [exact (Hget 0%nat c k l m Nat.lt_0_1 Hc Hk Hl Hm) |].
    rewrite (zeros5_get 1 C D H W) by (assumption || lia).
    rewrite (hits_unsqueezed x' 1 C D H W) by assumption.
    cbn [Nat.eqb andb seq existsb]. rewrite orb_false_r.
    unfold x'. rewrite (get4_map zero 0%Z 0%Z)
      by (unfold zero; now destruct (0 =? ignore_index)%Z).
    unfold zero. apply Z.eqb_neq in Hii. now rewrite Hii.
Qed.

Lemma expand_as_one_hot_keeps_ignore_index_witness :
  exists r,
    expand_as_one_hot (T4 (1, 1, 1, 2)%nat [[[[1%Z; (-1)%Z]]]]) 2
      (Some (-1)%Z) = Ok r
    /\ get5 0 (data5 r) 0 1 0 0 0 = 1
    /\ get5 0 (data5 r) 0 1 0 0 1 = inject_Z (-1).
Proof.
  destruct (expand_as_one_hot_keeps_ignore_index
              (T4 (1, 1, 1, 2)%nat [[[[1%Z; (-1)%Z]]]]) 2 1 1 2 (-1)
              eq_refl eq_refl eq_refl (Nat.lt_0_succ 1) eq_refl)
    as (r & Hr & _ & Hget).
  exists r. split; [exact Hr |].
  split; [apply (Hget 1 0 0 0)%nat | apply (Hget 1 0 0 1)%nat]; lia.
Defined.

(** ** The ignore-index wrapper at work *)

Lemma get5_map5 {A B} (g : A -> B) (d : A) (d' : B) (x : nest5 A)
    (i c k l m : nat) :
  g d = d' -> get5 d' (map5 g x) i c k l m = g (get5 d x i c k l m).
Proof.
  intros Hd. unfold get5, map5. unfold nest5, nest4, nest3, nest2 in *.
  rewrite (nth_map_default (map (map (map (map g)))) x i [] [])
    by reflexivity.
  now apply get4_map.
Qed.

Lemma rows5_map {A B} (g : A -> B) (N C D H W : nat) (x : nest5 A) :
  shaped N C D H W x -> shaped N C D H W (map5 g x).
Proof.
  unfold shaped, map5. apply rows_map. intros x4. now apply rows4_map.
Qed.

(** X26: what the wrapped loss gets to see.  For an ignore index that
    float32 holds exactly, and an input and a 5-axis target of one shape,
    [IgnoreIndexLossWrapper.__call__] calls the loss on two tensors in
    which every entry at a position where the target equals the ignore
    index is 0, and every other entry is the entry of the input and of
    the target. *)
Theorem wrapper_hides_ignored_entries {R}
    (loss : tensor5 Q -> tensor5 Q -> result R) (ignore_index : Z)
    (input target : tensor5 Q) (N C D H W : nat) :
  float32_exact ignore_index = true ->
  size5 input = (N, C, D, H, W) -> size5 target = (N, C, D, H, W) ->
  wf5 input = true -> wf5 target = true ->
  exists masked_input masked_target,
    IgnoreIndexLossWrapper_call loss ignore_index input (inr target)
    = loss masked_input masked_target
    /\ forall i c k l m,
         (i < N)%nat -> (c < C)%nat -> (k < D)%nat -> (l < H)%nat ->
         (m < W)%nat ->
         let x := get5 0 (data5 input) i c k l m in
         let t := get5 0 (data5 target) i c k l m in
         let x' := get5 0 (data5 masked_input) i c k l m in
         let t' := get5 0 (data5 masked_target) i c k l m in
         if Qeq_bool t (inject_Z ignore_index)
         then x' == 0 /\ t' == 0
         else x' == x /\ t' == t.
Proof.
  intros _ Hsi Hst Hwi Hwt. unfold IgnoreIndexLossWrapper_call.
  rewrite Hsi. cbn [rbind]. rewrite Hst, size_eqb5_refl. cbn [negb].
  eexists. eexists. split; [reflexivity |].
  intros i c k l m Hi Hc Hk Hl Hm. cbv zeta.
  unfold wf5 in Hwi, Hwt. rewrite Hsi in Hwi. rewrite Hst in Hwt.
  unfold tmul, ne_mask. cbn [data5].
  set (g := fun x : Q => if Qeq_bool x (inject_Z ignore_index) then 0 else 1).
  assert (Hmask : shaped N C D H W (map5 g (data5 target)))
    by now apply rows5_map.
  rewrite !(get5_zip5 Qmult N C D H W 0 (g 0) 0) by assumption.
  rewrite (get5_map5 g 0 (g 0)) by reflexivity.
  unfold g.
  destruct (Qeq_bool (get5 0 (data5 target) i c k l m)
              (inject_Z ignore_index)); split; ring.
Qed.

Lemma wrapper_hides_ignored_entries_witness :
  exists masked_input masked_target,
    IgnoreIndexLossWrapper_call (fun a b => Ok (a, b)) 2
      (T5 (1, 1, 1, 1, 2)%nat [[[[[1 # 2; 1 # 3]]]]])
      (inr (T5 (1, 1, 1, 1, 2)%nat [[[[[1; 2]]]]]))
    = Ok (masked_input, masked_target)
    /\ get5 0 (data5 masked_input) 0 0 0 0 1 == 0
    /\ get5 0 (data5 masked_input) 0 0 0 0 0 == 1 # 2.
Proof.
  destruct (wrapper_hides_ignored_entries
              (fun a b : tensor5 Q => Ok (a, b)) 2
              (T5 (1, 1, 1, 1, 2)%nat [[[[[1 # 2; 1 # 3]]]]])
              (T5 (1, 1, 1, 1, 2)%nat [[[[[1; 2]]]]]) 1 1 1 1 2
              eq_refl eq_refl eq_refl eq_refl eq_refl)
    as (mi & mt & Hcall & Hget).
  exists mi, mt. split; [exact Hcall |]. split.
  - apply (Hget 0 0 0 0 1)%nat; lia.
  - apply (Hget 0 0 0 0 0)%nat; lia.
Defined.

(** X27: when the wrapper raises before the loss is called: on a 5-axis
    target whose shape is not the input's it raises the bare assertion,
    and on a 4-axis label image of a batch size other than 1 and the
    number of channels it raises the error of [expand_as_one_hot]. *)
Theorem wrapper_rejects (R : Type)
    (loss : tensor5 Q -> tensor5 Q -> result R) (ignore_index : Z)
    (input : tensor5 Q) (N C D H W : nat) :
  size5 input = (N, C, D, H, W) ->
  (forall target : tensor5 Q,
     size_eqb5 (N, C, D, H, W) (size5 target) = false ->
     IgnoreIndexLossWrapper_call loss ignore_index input (inr target)
     = Raise (AssertionError ""))
  /\ (forall (labels : tensor4 Z) (n d h w : nat),
        size4 labels = (n, d, h, w) -> n <> 1%nat -> n <> C ->
        IgnoreIndexLossWrapper_call loss ignore_index input (inl labels)
        = Raise (RuntimeError
            "The expanded size of the tensor must match the existing size")).
Proof.
  intros Hsi. split.
  - intros target Hne. unfold IgnoreIndexLossWrapper_call.
    rewrite Hsi. cbn [rbind]. now rewrite Hne.
  - intros labels n d h w Hs H1 HC. unfold IgnoreIndexLossWrapper_call.
    rewrite Hsi.
    unfold expand_as_one_hot, expand, unsqueeze0. rewrite Hs. cbn [size5].
    destruct (Nat.eqb_spec n 1); [contradiction |].
    destruct (Nat.eqb_spec n C); [contradiction |]. reflexivity.
Qed.

Lemma wrapper_rejects_witness :
  IgnoreIndexLossWrapper_call (fun a b : tensor5 Q => Ok (a, b)) (-1)
    (T5 (2, 3, 1, 1, 1)%nat
        [[[[[1]]]; [[[0]]]; [[[0]]]]; [[[[0]]]; [[[1]]]; [[[0]]]]])
    (inl (T4 (2, 1, 1, 1)%nat [[[[0%Z]]]; [[[1%Z]]]]))
  = Raise (RuntimeError
      "The expanded size of the tensor must match the existing size").
Proof.
  apply (proj2 (wrapper_rejects _ (fun a b : tensor5 Q => Ok (a, b)) (-1)
                  (T5 (2, 3, 1, 1, 1)%nat
                      [[[[[1]]]; [[[0]]]; [[[0]]]];
                       [[[[0]]]; [[[1]]]; [[[0]]]]])
                  2%nat 3%nat 1%nat 1%nat 1%nat eq_refl)
           (T4 (2, 1, 1, 1)%nat [[[[0%Z]]]; [[[1%Z]]]])
           2%nat 1%nat 1%nat 1%nat);
    [reflexivity | lia | lia].
Defined.

(** ** Decoding a one-hot image *)

(** [argmax] over a list that is 1 at index [v] and 0 elsewhere. *)
Lemma argmax_fold_one_hot (v : nat) :
  forall (n s : nat),
    fold_right (fun '(c, x) best => argmax_step c x best) None
      (combine (seq s n)
         (map (fun c => if (c =? v)%nat then 1 else 0) (seq s n)))
    = match n with
      | O => None
      | S _ => if (s <=? v)%nat && (v <? s + n)%nat then Some (v, 1)
               else Some (s, 0)
      end.
Proof.
  induction n as [| n IH]; intros s; [reflexivity |].
  cbn [seq map combine fold_right]. rewrite IH.
  destruct (Nat.eqb_spec s v) as [-> | Hne].
  - rewrite Nat.leb_refl.
    replace (v <? v + S n)%nat with true by (symmetry; apply Nat.ltb_lt; lia).
    cbn [andb]. destruct n as [| n]; [reflexivity |].
    replace (S v <=? v)%nat with false
      by (symmetry; apply Nat.leb_gt; lia).
    reflexivity.
  - destruct n as [| n].
    + cbn [argmax_step].
      destruct (Nat.leb_spec s v), (Nat.ltb_spec v (s + 1)); cbn [andb];
        try reflexivity; lia.
    + destruct (Nat.leb_spec (S s) v), (Nat.ltb_spec v (S s + S n)),
        (Nat.leb_spec s v), (Nat.ltb_spec v (s + S (S n))); cbn [andb];
        try lia; reflexivity.
Qed.

Lemma argmax_one_hot (v C : nat) :
  (v < C)%nat ->
  argmax_list (map (fun c => if (c =? v)%nat then 1 else 0) (seq 0 C))
  = Z.of_nat v.
Proof.
  intros Hv. unfold argmax_list, indexed. rewrite length_map, length_seq.
  rewrite (argmax_fold_one_hot v C 0).
  destruct C as [| C]; [lia |]. cbn [Nat.leb andb].
  replace (v <? 0 + S C)%nat with true by (symmetry; apply Nat.ltb_lt; lia).
  reflexivity.
Qed.

Lemma get4_in_flat4 {A} (d : A) (x : nest4 A) (N D H W j k l m : nat) :
  rows (rows (rows (rows any W) H) D) N x = true ->
  (j < N)%nat -> (k < D)%nat -> (l < H)%nat -> (m < W)%nat ->
  In (get4 d x j k l m) (flat4 x).
Proof.
  intros Hx Hj Hk Hl Hm.
  assert (Hin : In (0%nat, j, k, l, m, get4 d x j k l m)
                  (positions5 [x])).
  { apply (In_positions5 d). cbn [List.length nth].
    destruct (rows_nth _ N x j [] Hx Hj) as [Hj' H3].
    destruct (rows_nth _ D (nth j x []) k [] H3 Hk) as [Hk' H2].
    destruct (rows_nth _ H (nth k (nth j x []) []) l [] H2 Hl) as [Hl' H1].
    destruct (rows_nth _ W (nth l (nth k (nth j x []) []) []) m d H1 Hm)
      as [Hm' _].
    repeat split; try assumption; lia. }
  apply (in_map (fun p : nat * nat * nat * nat * nat * A => snd p)) in Hin.
  rewrite positions5_values in Hin. cbn [map concat snd] in Hin.
  now rewrite app_nil_r in Hin.
Qed.

Lemma map_seq_rows {A B} (p : A -> bool) (n : nat) (l : list A) (d : A)
    (f : nat -> B) (g : A -> B) :
  rows p n l = true ->
  (forall i, (i < n)%nat -> p (nth i l d) = true -> f i = g (nth i l d)) ->
  map f (seq 0 n) = map g l.
Proof.
  intros Hl Hfg. pose proof Hl as Hl'. apply rows_inv in Hl'.
  destruct Hl' as [Hlen Hp].
  rewrite <- (map_nth_seq l d) at 1. rewrite map_map, Hlen.
  apply map_ext_in. intros i Hi. apply in_seq in Hi.
  apply Hfg; [lia |]. apply forallb_nth; [assumption | lia].
Qed.

(** X28: on one well-formed image with labels in [[0, C)], taking the
    [argmax] over the channels of [expand_as_one_hot] gives the labels
    back. *)
Theorem one_hot_round_trip (input : tensor4 Z) (C D H W : nat) :
  size4 input = (1%nat, D, H, W) -> wf4 input = true ->
  forallb (label_in_range C) (flat4 (data4 input)) = true ->
  exists r,
    expand_as_one_hot input C None = Ok r /\ argmax_dim1 r = input.
Proof.
  intros Hs Hwf Hrange.
  destruct (expand_as_one_hot_entries_eq input 1 C D H W Hs Hwf Hrange)
    as (r & Hr & Hsize & Hshape & Hget).
  exists r. split; [exact Hr |].
  unfold wf4 in Hwf. rewrite Hs in Hwf. unfold wf5 in Hshape.
  rewrite Hsize in Hshape.
  destruct input as [sz x]. cbn [size4 data4] in *. subst sz.
  unfold argmax_dim1. rewrite Hsize. f_equal.
  destruct r as [rs y]. cbn [size5 data5] in *.
  pose proof Hwf as Hx. apply rows_inv in Hx. destruct Hx as [Hlenx Hpx].
  pose proof Hshape as Hy. apply rows_inv in Hy. destruct Hy as [Hleny Hpy].
  destruct x as [| img [| ? ?]]; try discriminate.
  destruct y as [| y0 [| ? ?]]; try discriminate.
  cbn [map]. apply (f_equal (fun h => [h])).
  cbn [forallb] in Hpx, Hpy. rewrite andb_true_r in Hpx, Hpy.
  rewrite <- (map_id img) at 1.
  apply (map_seq_rows _ D img [] _ _ Hpx). intros k Hk H2.
  rewrite <- (map_id (nth k img [])) at 1.
  apply (map_seq_rows _ H (nth k img []) [] _ _ H2). intros l Hl H1.
  rewrite <- (map_id (nth l (nth k img []) [])) at 1.
  apply (map_seq_rows _ W (nth l (nth k img []) []) 0%Z _ _ H1).
  intros m Hm _.
  set (v := nth m (nth l (nth k img []) []) 0%Z).
  assert (Hv : label_in_range C v = true).
  { rewrite forallb_forall in Hrange. apply Hrange.
    apply (get4_in_flat4 0%Z [img] 1 D H W 0 k l m);
      [exact Hwf | lia | assumption | assumption | assumption]. }
  unfold label_in_range in Hv. apply andb_prop in Hv.
  destruct Hv as [Hv0 HvC]. apply Z.leb_le in Hv0. apply Z.ltb_lt in HvC.
  rewrite <- (Z2Nat.id v) by assumption.
  rewrite <- (argmax_one_hot (Z.to_nat v) C) by lia. f_equal.
  symmetry. apply (map_seq_rows _ C y0 [] _ _ Hpy). intros c Hc _.
  specialize (Hget 0%nat c k l m Nat.lt_0_1 Hc Hk Hl Hm).
  unfold get5, get4 in Hget. cbn [nth seq existsb Nat.eqb andb] in Hget.
  rewrite orb_false_r in Hget. fold v in Hget.
  etransitivity; [| symmetry; exact Hget]. cbv beta.
  destruct (Nat.eqb_spec c (Z.to_nat v)) as [-> | Hne].
  - now rewrite Z2Nat.id, Z.eqb_refl.
  - destruct (Z.eqb_spec v (Z.of_nat c)) as [Heq | _]; [| reflexivity].
    subst v. rewrite Heq, Nat2Z.id in Hne. contradiction.
Qed.

Lemma one_hot_round_trip_witness :
  exists r,
    expand_as_one_hot (T4 (1, 1, 1, 3)%nat [[[[2%Z; 0%Z; 1%Z]]]]) 3 None
    = Ok r
    /\ argmax_dim1 r = T4 (1, 1, 1, 3)%nat [[[[2%Z; 0%Z; 1%Z]]]].
Proof.
  apply (one_hot_round_trip (T4 (1, 1, 1, 3)%nat [[[[2%Z; 0%Z; 1%Z]]]])
           3 1 1 3); reflexivity.
Defined.

(** ** Summing a one-hot image over its channels *)

Lemma rows_zipWith {A B R} (p : A -> bool) (q : B -> bool) (r : R -> bool)
    (f : A -> B -> R) (n : nat) :
  (forall a b, p a = true -> q b = true -> r (f a b) = true) ->
  forall (l1 : list A) (l2 : list B),
    rows p n l1 = true -> rows q n l2 = true ->
    rows r n (zipWith f l1 l2) = true.
Proof.
  intros Hf l1 l2 H1 H2. apply rows_inv in H1, H2.
  destruct H1 as [Hn1 Hp], H2 as [Hn2 Hq]. unfold rows.
  rewrite zipWith_length, Hn1, Hn2, Nat.min_id, Nat.eqb_refl. cbn [andb].
  clear Hn1 Hn2. revert l2 Hq.
  induction l1 as [| a l1 IH]; intros [| b l2] Hq; cbn in *;
    try reflexivity.
  apply andb_prop in Hp, Hq. destruct Hp as [Ha Hp], Hq as [Hb Hq].
  apply andb_true_intro. split; [now apply Hf | now apply IH].
Qed.

Lemma rows_all_equal {A} (p : A -> bool) (n : nat) (l : list A) (d a : A) :
  rows p n l = true ->
  (forall i, (i < n)%nat -> p (nth i l d) = true -> nth i l d = a) ->
  l = repeat a n.
Proof.
  intros Hl Ha. pose proof Hl as Hl'. apply rows_inv in Hl'.
  destruct Hl' as [Hlen Hp]. subst n.
  apply (nth_ext _ _ d a); [now rewrite repeat_length |].
  intros i Hi. rewrite nth_repeat_lt by assumption.
  apply Ha; [assumption | now apply forallb_nth].
Qed.

Section ChannelSum.
Context (D H W : nat).

Lemma zip3_shaped (a b : nest3 Q) :
  rows (rows (rows any W) H) D a = true ->
  rows (rows (rows any W) H) D b = true ->
  rows (rows (rows any W) H) D (zip3 Qplus a b) = true.
Proof.
  unfold zip3. apply rows_zipWith. intros a2 b2. apply rows_zipWith.
  intros a1 b1. apply rows_zipWith. reflexivity.
Qed.

Lemma sum_shaped (chans : nest4 Q) :
  forallb (rows (rows (rows any W) H) D) chans = true ->
  rows (rows (rows any W) H) D
    (fold_right (zip3 Qplus) (repeat (repeat (repeat 0 W) H) D) chans)
  = true.
Proof.
  induction chans as [| c chans IH]; intros Hc; cbn [fold_right].
  - repeat apply rows_repeat. reflexivity.
  - cbn [forallb] in Hc. apply andb_prop in Hc. destruct Hc as [Hc Hcs].
    apply zip3_shaped; [exact Hc | now apply IH].
Qed.

Lemma sum_entry (chans : nest4 Q) (k l m : nat) :
  forallb (rows (rows (rows any W) H) D) chans = true ->
  (k < D)%nat -> (l < H)%nat -> (m < W)%nat ->
  nth m (nth l (nth k (fold_right (zip3 Qplus)
                         (repeat (repeat (repeat 0 W) H) D) chans) []) []) 0
  = fold_right Qplus 0
      (map (fun xc : nest3 Q => nth m (nth l (nth k xc []) []) 0) chans).
Proof.
  intros Hc Hk Hl Hm. induction chans as [| c chans IH];
    cbn [fold_right map].
  - now rewrite !nth_repeat_lt by assumption.
  - cbn [forallb] in Hc. apply andb_prop in Hc. destruct Hc as [Hc Hcs].
    rewrite <- (IH Hcs). pose proof (sum_shaped chans Hcs) as Hs.
    set (rest := fold_right (zip3 Qplus) (repeat (repeat (repeat 0 W) H) D)
                   chans) in *.
    unfold zip3. unfold nest3, nest2 in *.
    destruct (rows_nth _ D c k [] Hc Hk) as [Hkc Hc2].
    destruct (rows_nth _ D rest k [] Hs Hk) as [Hkr Hr2].
    rewrite (nth_zipWith _ c rest k [] [] [] Hkc Hkr).
    set (c2 := @nth (list (list Q)) k c []) in *.
    set (r2 := @nth (list (list Q)) k rest []) in *.
    destruct (rows_nth _ H c2 l [] Hc2 Hl) as [Hlc Hc1].
    destruct (rows_nth _ H r2 l [] Hr2 Hl) as [Hlr Hr1].
    rewrite (nth_zipWith _ c2 r2 l [] [] [] Hlc Hlr).
    set (c1 := @nth (list Q) l c2 []) in *.
    set (r1 := @nth (list Q) l r2 []) in *.
    destruct (rows_nth _ W c1 m 0 Hc1 Hm) as [Hmc _].
    destruct (rows_nth _ W r1 m 0 Hr1 Hm) as [Hmr _].
    now rewrite (nth_zipWith _ c1 r1 m 0 0 0 Hmc Hmr).
Qed.

End ChannelSum.

Lemma sum_one_hot (v : nat) :
  forall (n s : nat),
    fold_right Qplus 0
      (map (fun c => if (c =? v)%nat then 1 else 0) (seq s n))
    = if (s <=? v)%nat && (v <? s + n)%nat then 1 else 0.
Proof.
  induction n as [| n IH]; intros s; cbn [seq map fold_right].
  - destruct (Nat.leb_spec s v), (Nat.ltb_spec v (s + 0)); cbn [andb];
      try reflexivity; lia.
  - rewrite IH.
    destruct (Nat.eqb_spec s v), (Nat.leb_spec (S s) v),
      (Nat.ltb_spec v (S s + n)), (Nat.leb_spec s v),
      (Nat.ltb_spec v (s + S n)); cbn [andb]; try lia; reflexivity.
Qed.

(** X29: on one well-formed image with labels in [[0, C)], the channels
    of [expand_as_one_hot] sum to 1 at every voxel. *)
Theorem one_hot_channels_sum_to_one (input : tensor4 Z) (C D H W : nat) :
  size4 input = (1%nat, D, H, W) -> wf4 input = true ->
  forallb (label_in_range C) (flat4 (data4 input)) = true ->
  exists r,
    expand_as_one_hot input C None = Ok r
    /\ sum_dim1 r
       = T4 (1%nat, D, H, W) [repeat (repeat (repeat 1 W) H) D].
Proof.
  intros Hs Hwf Hrange.
  destruct (expand_as_one_hot_entries_eq input 1 C D H W Hs Hwf Hrange)
    as (r & Hr & Hsize & Hshape & Hget).
  exists r. split; [exact Hr |].
  unfold wf4 in Hwf. rewrite Hs in Hwf. unfold wf5 in Hshape.
  rewrite Hsize in Hshape.
  destruct input as [sz x]. cbn [size4 data4] in *. subst sz.
  unfold sum_dim1. rewrite Hsize. f_equal.
  destruct r as [rs y]. cbn [size5 data5] in *.
  pose proof Hwf as Hx. apply rows_inv in Hx. destruct Hx as [Hlenx Hpx].
  pose proof Hshape as Hy. apply rows_inv in Hy. destruct Hy as [Hleny Hpy].
  destruct x as [| img [| ? ?]]; try discriminate.
  destruct y as [| y0 [| ? ?]]; try discriminate.
  cbn [map]. apply (f_equal (fun h => [h])).
  cbn [forallb] in Hpx, Hpy. rewrite andb_true_r in Hpx, Hpy.
  apply rows_inv in Hpy. destruct Hpy as [HlenC Hchans].
  pose proof (sum_shaped D H W y0 Hchans) as Hsum.
  apply (rows_all_equal _ D _ [] _ Hsum). intros k Hk H2.
  apply (rows_all_equal _ H _ [] _ H2). intros l Hl H1.
  apply (rows_all_equal _ W _ 0 _ H1). intros m Hm _.
  etransitivity; [exact (sum_entry D H W y0 k l m Hchans Hk Hl Hm) |].
  set (v := nth m (nth l (nth k img []) []) 0%Z).
  assert (Hv : label_in_range C v = true).
  { rewrite forallb_forall in Hrange. apply Hrange.
    apply (get4_in_flat4 0%Z [img] 1 D H W 0 k l m);
      [exact Hwf | lia | assumption | assumption | assumption]. }
  unfold label_in_range in Hv. apply andb_prop in Hv.
  destruct Hv as [Hv0 HvC]. apply Z.leb_le in Hv0. apply Z.ltb_lt in HvC.
  assert (Hone : map (fun xc : nest3 Q => nth m (nth l (nth k xc []) []) 0)
                   y0
                 = map (fun c => if (c =? Z.to_nat v)%nat then 1 else 0)
                     (seq 0 C)).
  { symmetry.
    apply (map_seq_rows (rows (rows (rows any W) H) D) C y0 []).
    - unfold rows. now rewrite HlenC, Nat.eqb_refl.
    - intros c Hc _.
      specialize (Hget 0%nat c k l m Nat.lt_0_1 Hc Hk Hl Hm).
      unfold get5, get4 in Hget.
      cbn [nth seq existsb Nat.eqb andb] in Hget.
      rewrite orb_false_r in Hget. fold v in Hget.
      etransitivity; [| symmetry; exact Hget]. cbv beta.
      destruct (Nat.eqb_spec c (Z.to_nat v)) as [-> | Hne].
      + now rewrite Z2Nat.id, Z.eqb_refl.
      + destruct (Z.eqb_spec v (Z.of_nat c)) as [Heq | _];
          [| reflexivity].
        subst v. rewrite Heq, Nat2Z.id in Hne. contradiction. }
  rewrite Hone, (sum_one_hot (Z.to_nat v) C 0). cbn [Nat.leb andb].
  replace (Z.to_nat v <? 0 + C)%nat with true
    by (symmetry; apply Nat.ltb_lt; lia).
  reflexivity.
Qed.

Lemma one_hot_channels_sum_to_one_witness :
  exists r,
    expand_as_one_hot (T4 (1, 1, 1, 3)%nat [[[[2%Z; 0%Z; 1%Z]]]]) 3 None
    = Ok r
    /\ sum_dim1 r = T4 (1, 1, 1, 3)%nat [[[[1; 1; 1]]]].
Proof.
  apply (one_hot_channels_sum_to_one
           (T4 (1, 1, 1, 3)%nat [[[[2%Z; 0%Z; 1%Z]]]]) 3 1 1 3);
    reflexivity.
Defined.
